(** * Audit pipeline: diff splitting, dispatch and report aggregation

    A shallow embedding of the audit engine of this repository:

    - [AuditCommon] follows [audit-common.ts] (the second document of
      [src/audit-mcp-server.ts]): [splitDiffByFiles], [callOpenAIAudit],
      [sendSingleAuditRequest], [callCompletion], [saveAuditReport] and
      [performAudit];
    - [AutoAudit] follows the resolver helpers [getLatestChanges] and
      [getChangedFiles] of [auto-audit.js] and of the editor shortcut;
    - [PreAudit] follows sections 4, 7 and 8 of [pre_audit.sh];
    - [Observed] names what a run shows from outside (the requests posted,
      the text a segment ends with) and holds the concrete runs.

    JavaScript strings are sequences of UTF-16 code units, so [length] and
    [substring] of the source are [length] and [firstn] on lists of code
    units; shell strings are sequences of bytes.  An asynchronous function
    is a function from the world before to the world after and an
    outcome, returned or thrown.  Console logging is not modelled. *)

From Stdlib Require Import List Arith NArith Bool Lia String Ascii.
From Stdlib Require Import DecimalString.
Import ListNotations.

Set Implicit Arguments.

(* ================================================================== *)
(** ** JavaScript strings *)
(* ================================================================== *)

Module JsString.

Local Open Scope N_scope.

(** A string value: its UTF-16 code units, in order. *)
Definition jsstring := list N.

Fixpoint bytes_of_string (s : string) : list N :=
  match s with
  | EmptyString => []
  | String a s' => N_of_ascii a :: bytes_of_string s'
  end.

(** UTF-8 bytes of a literal of this file to UTF-16 code units: a code
    point above the basic plane becomes a surrogate pair. *)
Fixpoint utf16_of_utf8 (bs : list N) : jsstring :=
  match bs with
  | [] => []
  | b0 :: r0 =>
    if b0 <? 128 then b0 :: utf16_of_utf8 r0
    else if b0 <? 224 then
      match r0 with
      | b1 :: r1 => ((b0 mod 32) * 64 + b1 mod 64) :: utf16_of_utf8 r1
      | _ => []
      end
    else if b0 <? 240 then
      match r0 with
      | b1 :: b2 :: r2 =>
        ((b0 mod 16) * 4096 + (b1 mod 64) * 64 + b2 mod 64) :: utf16_of_utf8 r2
      | _ => []
      end
    else
      match r0 with
      | b1 :: b2 :: b3 :: r3 =>
        let cp := (b0 mod 8) * 262144 + (b1 mod 64) * 4096
                  + (b2 mod 64) * 64 + b3 mod 64 in
        (55296 + (cp - 65536) / 1024) :: (56320 + (cp - 65536) mod 1024)
          :: utf16_of_utf8 r3
      | _ => []
      end
  end.

(** [lit "..."] is the JavaScript string written by that literal. *)
Definition lit (s : string) : jsstring := utf16_of_utf8 (bytes_of_string s).
Arguments lit s%_string : simpl never.

(** The line feed of ['\n'] and the double quote. *)
Definition nl : jsstring := [10].
Definition dquote : jsstring := [34].

Fixpoint jseqb (a b : jsstring) : bool :=
  match a, b with
  | [], [] => true
  | x :: a', y :: b' => (x =? y) && jseqb a' b'
  | _, _ => false
  end.

(** JavaScript truthiness of a string: the empty string is falsy. *)
Definition truthy (s : jsstring) : bool :=
  match s with [] => false | _ :: _ => true end.

(** Truthiness of a possibly [undefined] string ([process.env.X]). *)
Definition truthy_opt (o : option jsstring) : bool :=
  match o with Some s => truthy s | None => false end.

(** [a || b] on possibly undefined strings, with a defined default. *)
Definition or_default (o : option jsstring) (d : jsstring) : jsstring :=
  match o with
  | Some s => if truthy s then s else d
  | None => d
  end.

(** [s.split(sep)] for a separator of one code unit. *)
Fixpoint split (sep : N) (s : jsstring) : list jsstring :=
  match s with
  | [] => [[]]
  | c :: s' =>
    if c =? sep then [] :: split sep s'
    else match split sep s' with
         | l :: ls => (c :: l) :: ls
         | [] => [[c]]
         end
  end.

(** [xs.join(sep)]. *)
Fixpoint join (sep : jsstring) (xs : list jsstring) : jsstring :=
  match xs with
  | [] => []
  | x :: xs' =>
    match xs' with
    | [] => x
    | _ :: _ => x ++ sep ++ join sep xs'
    end
  end.

(** [s.substring(0, n)]. *)
Definition substring0 (n : nat) (s : jsstring) : jsstring := firstn n s.

(** [s.startsWith(p)], also the test of a literal prefix of a pattern. *)
Fixpoint starts_with (p s : jsstring) : bool :=
  match p, s with
  | [], _ => true
  | x :: p', y :: s' => (x =? y) && starts_with p' s'
  | _ :: _, [] => false
  end.

(** White space and line terminators, as [trim] strips them. *)
Definition js_whitespace (c : N) : bool :=
  ((9 <=? c) && (c <=? 13)) || (c =? 32) || (c =? 160) || (c =? 5760)
  || ((8192 <=? c) && (c <=? 8202)) || (c =? 8232) || (c =? 8233)
  || (c =? 8239) || (c =? 8287) || (c =? 12288) || (c =? 65279).

Fixpoint drop_while (f : N -> bool) (s : jsstring) : jsstring :=
  match s with
  | [] => []
  | c :: s' => if f c then drop_while f s' else s
  end.

(** [s.trim()]. *)
Definition trim (s : jsstring) : jsstring :=
  rev (drop_while js_whitespace (rev (drop_while js_whitespace s))).

(** Decimal rendering of a number inside a template literal. *)
Definition show_N (n : N) : jsstring :=
  lit (NilZero.string_of_uint (N.to_uint n)).

End JsString.
Export JsString.

(* ================================================================== *)
(** ** The audit engine ([audit-common.ts]) *)
(* ================================================================== *)

Module AuditCommon.

Local Open Scope N_scope.

(** *** Insertion-ordered [Map<string, string>]

    [set] on a present key replaces the value and keeps the key's place;
    on an absent key it appends. [entries()] runs in insertion order. *)
Definition JsMap := list (jsstring * jsstring).

Fixpoint map_set (k v : jsstring) (m : JsMap) : JsMap :=
  match m with
  | [] => [(k, v)]
  | (k', v') :: m' =>
    if jseqb k' k then (k', v) :: m' else (k', v') :: map_set k v m'
  end.

Definition map_size (m : JsMap) : nat := List.length m.

(** *** The file-header pattern [/^diff --git a\/(.+) b\/(.+)$/]

    No flag is set: [^] and [$] are the ends of the line, and [.] is any
    code unit but a line terminator (LF, CR, U+2028, U+2029). *)
Definition line_terminator (c : N) : bool :=
  (c =? 10) || (c =? 13) || (c =? 8232) || (c =? 8233).

Definition no_terminator (s : jsstring) : bool :=
  forallb (fun c => negb (line_terminator c)) s.

(** Where the first group ends, in the text that follows a first code
    unit of that group: the group is greedy, so the last place at which
    [" b/"] and at least one more code unit follow wins. *)
Fixpoint group1_tail (s : jsstring) : option jsstring :=
  match s with
  | [] => None
  | c :: s' =>
    match group1_tail s' with
    | Some x => Some (c :: x)
    | None =>
      if starts_with (lit " b/") s && (3 <? List.length s)%nat
      then Some [] else None
    end
  end.

(** [line.match(fileRegex)]: [Some match[1]] on a match, [None] for null. *)
Definition matchFileRegex (line : jsstring) : option jsstring :=
  let prefix := lit "diff --git a/" in
  if starts_with prefix line then
    match skipn (List.length prefix) line with
    | [] => None
    | c :: rest =>
      if no_terminator (c :: rest) then
        match group1_tail rest with
        | Some x => Some (c :: x)
        | None => None
        end
      else None
    end
  else None.

(** *** [splitDiffByFiles] *)
Record SplitState := mkSplitState {
  fileMap : JsMap;
  currentFile : jsstring;
  currentContent : list jsstring
}.

(** Saving the previous file: [if (currentFile && currentContent.length > 0)]. *)
Definition saveCurrent (st : SplitState) : JsMap :=
  if truthy (currentFile st) && (0 <? List.length (currentContent st))%nat
  then map_set (currentFile st) (join nl (currentContent st)) (fileMap st)
  else fileMap st.

(** The body of [lines.forEach]. *)
Definition splitStep (st : SplitState) (line : jsstring) : SplitState :=
  match matchFileRegex line with
  | Some path => mkSplitState (saveCurrent st) path [line]
  | None =>
    if truthy (currentFile st)
    then mkSplitState (fileMap st) (currentFile st) (currentContent st ++ [line])
    else st
  end.

Definition splitDiffByFiles (diffContent : jsstring) : JsMap :=
  if negb (truthy diffContent) then []
  else
    let lines := split 10 diffContent in
    saveCurrent (fold_left splitStep lines (mkSplitState [] [] [])).

(** *** Requests, configuration and the outside world *)

(** [AuditRequest]; [changed_files] is optional. *)
Record AuditRequest := mkAuditRequest {
  request : jsstring;
  modification_description : jsstring;
  code_changes : jsstring;
  function_list : jsstring;
  changed_files : option (list jsstring)
}.

(** The variables of [process.env] the engine reads; [None] is unset. *)
Record Env := mkEnv {
  OPENAI_API_KEY : option jsstring;
  DEEPSEEK_API_KEY : option jsstring;
  AI_PROVIDER : option jsstring;
  DEFAULT_AI_PROVIDER : option jsstring;
  OPENAI_MODEL : option jsstring;
  DEEPSEEK_MODEL : option jsstring
}.

(** A role-tagged message of a chat completion. *)
Record Message := mkMessage { role : jsstring; content : jsstring }.

(** The POST a completion call makes: the endpoint, the key of the
    [Authorization: Bearer] header, and the body's [model], [messages]
    and [max_tokens] (the body's constant [temperature] is left out). *)
Record HttpRequest := mkHttpRequest {
  url : jsstring;
  bearer : jsstring;
  model : jsstring;
  messages : list Message;
  max_tokens : N
}.

(** What [fetch] and the reading of its response come to. *)
Inductive FetchOutcome :=
| FetchRejected (message : jsstring)
    (** [fetch] or [response.json()] rejects with an [Error] *)
| NotOk (status : N) (errText : jsstring)
    (** [response.ok] is false; [errText] is [response.text()] *)
| OkJson (completion : option jsstring).
    (** [jsonData.choices?.[0]?.message?.content], [None] when undefined *)

(** Everything the engine does not own: the process environment, the
    provider (its answer may depend on the requests sent before), the
    directory of the module, the clock of [new Date().toISOString()] and
    the file store, which may refuse a write with an error message. *)
Record Host := mkHost {
  env : Env;
  fetch : list HttpRequest -> HttpRequest -> FetchOutcome;
  dirname : jsstring;
  isoNow : jsstring;
  writeRefused : jsstring -> option jsstring
}.

(** What a run changes: the requests sent, oldest first, and the files
    written, as path and content. *)
Record World := mkWorld {
  sent : list HttpRequest;
  written : list (jsstring * jsstring)
}.

(** *** Asynchronous functions as state and exception passing

    Every value thrown by the engine or by [fetch] is an [Error]; it is
    kept as its [message], which is all a handler of the source reads. *)
Inductive Outcome (A : Type) :=
| Returned (a : A)
| Thrown (message : jsstring).
Arguments Returned {A} a.
Arguments Thrown {A} message.

Definition Run (A : Type) := World -> World * Outcome A.

Definition ret {A} (a : A) : Run A := fun w => (w, Returned a).

Definition throw {A} (message : jsstring) : Run A := fun w => (w, Thrown message).

Definition bind {A B} (c : Run A) (k : A -> Run B) : Run B :=
  fun w =>
    match c w with
    | (w', Returned a) => k a w'
    | (w', Thrown e) => (w', Thrown e)
    end.

(** [try { c } catch (err) { handler }]. *)
Definition tryCatch {A} (c : Run A) (handler : jsstring -> Run A) : Run A :=
  fun w =>
    match c w with
    | (w', Returned a) => (w', Returned a)
    | (w', Thrown e) => handler e w'
    end.

Notation "x <- c ;; k" := (bind c (fun x => k))
  (at level 61, c at next level, right associativity).

(** [await fetch(...)] with the reading of the response. *)
Definition doFetch (h : Host) (req : HttpRequest) : Run FetchOutcome :=
  fun w => (mkWorld (sent w ++ [req]) (written w), Returned (fetch h (sent w) req)).

(** *** Provider selection *)

Definition AIProvider_OPENAI : jsstring := lit "openai".
Definition AIProvider_DEEPSEEK : jsstring := lit "deepseek".

Definition DEFAULT_PROVIDER (e : Env) : jsstring :=
  or_default (DEFAULT_AI_PROVIDER e) AIProvider_DEEPSEEK.

Definition getOpenAIModelName (e : Env) : jsstring :=
  or_default (OPENAI_MODEL e) (lit "gpt-4").

Definition getDeepSeekModelName (e : Env) : jsstring :=
  or_default (DEEPSEEK_MODEL e) (lit "deepseek-chat").

Definition getAIProvider (e : Env) : jsstring :=
  or_default (AI_PROVIDER e) (DEFAULT_PROVIDER e).

(** *** The two provider calls *)

(** The common tail of both calls: the status check and the reading of
    the first completion; [name] is the provider name of the message. *)
Definition readCompletion (name : jsstring) (o : FetchOutcome) : Outcome jsstring :=
  match o with
  | FetchRejected e => Thrown e
  | NotOk status errText =>
    Thrown (name ++ lit " API エラー: " ++ show_N status ++ nl ++ errText)
  | OkJson completion => Returned (or_default completion [])
  end.

(** Return or throw, as an outcome says. *)
Definition settle {A} (o : Outcome A) : Run A := fun w => (w, o).

Definition callOpenAICompletion (h : Host) (apiKey : jsstring)
    (msgs : list Message) : Run jsstring :=
  let apiUrl := lit "https://api.openai.com/v1/chat/completions" in
  let modelName := getOpenAIModelName (env h) in
  response <- doFetch h (mkHttpRequest apiUrl apiKey modelName msgs 1500) ;;
  settle (readCompletion (lit "OpenAI") response).

Definition callDeepSeekCompletion (h : Host) (apiKey : jsstring)
    (msgs : list Message) : Run jsstring :=
  let apiUrl := lit "https://api.deepseek.com/v1/chat/completions" in
  let modelName := getDeepSeekModelName (env h) in
  response <- doFetch h (mkHttpRequest apiUrl apiKey modelName msgs 1500) ;;
  settle (readCompletion (lit "DeepSeek") response).

Definition missingOpenAIKey : jsstring :=
  lit "環境変数 OPENAI_API_KEY が設定されていません。".

Definition missingDeepSeekKey : jsstring :=
  lit "環境変数 DEEPSEEK_API_KEY が設定されていません。".

(** [callCompletion]: the [switch] on the provider. *)
Definition callCompletion (h : Host) (msgs : list Message) : Run jsstring :=
  let provider := getAIProvider (env h) in
  if jseqb provider AIProvider_OPENAI then
    match OPENAI_API_KEY (env h) with
    | Some openAiKey =>
      if truthy openAiKey then callOpenAICompletion h openAiKey msgs
      else throw missingOpenAIKey
    | None => throw missingOpenAIKey
    end
  else if jseqb provider AIProvider_DEEPSEEK then
    match DEEPSEEK_API_KEY (env h) with
    | Some deepseekKey =>
      if truthy deepseekKey then callDeepSeekCompletion h deepseekKey msgs
      else throw missingDeepSeekKey
    | None => throw missingDeepSeekKey
    end
  else throw (lit "未対応のAIプロバイダです: " ++ provider).

(** *** [sendSingleAuditRequest] *)

(** The system message of an audit request, line by line. *)
Definition auditSystemPrompt : jsstring :=
  join nl [
    lit "あなたはソフトウェア監査ツールです。与えられた「リクエスト」「変更内容」「差分」「function_list」「変更ファイル一覧」を確認し、下記の観点で監査してください：";
    [];
    lit "【重要な監査観点】";
    lit "1. 指示していない変更がないか（修正内容に記載されていない変更が行われていないか）";
    lit "2. 既存機能が削除されていないか（特にfunction_list.txtに記載されている機能が失われていないか）";
    lit "3. TODO / FIXME が残っていないか";
    lit "4. 修正内容とコードの差分に整合性があるか（修正内容で述べられていることと実際のコード変更が一致しているか）";
    lit "5. 修正内容に記載されている目的が適切に実装されているか";
    [];
    lit "必ず以下の形式で監査レポートを作成してください：";
    [];
    lit "# コード監査レポート";
    [];
    lit "## 1. 指示していない変更";
    lit "[指示していない変更の有無とその詳細を記載。なければ「指示していない変更は見つかりませんでした。」と記載]";
    [];
    lit "## 2. 既存機能の削除";
    lit "[既存機能が削除されていないか、特にfunction_list.txtに記載されている機能が失われていないか確認した結果を記載]";
    [];
    lit "## 3. TODO/FIXME の残存";
    lit "[TODO/FIXMEコメントの有無とその詳細を記載。なければ「残存しているTODO/FIXMEコメントは見つかりませんでした。」と記載]";
    [];
    lit "## 4. 修正内容との整合性";
    lit "[修正内容の説明と実際のコード変更が一致しているか詳細に分析した結果を記載]";
    [];
    lit "## 5. 目的の実装状況";
    lit "[修正内容に記載されている目的が適切に実装されているか詳細に確認した結果を記載]";
    [];
    lit "## 6. 技術的問題点";
    lit "[コード品質、パフォーマンス、セキュリティなどの技術的観点での問題点があれば箇条書きで指摘]";
    lit "- 問題点1 [重要度: 高/中/低]";
    lit "- 問題点2 [重要度: 高/中/低]";
    lit "- ...";
    [];
    lit "## 7. 総合評価";
    lit "[監査全体の総合評価と、改善すべき重要な点を簡潔にまとめる]";
    [];
    lit "## function_list.txt更新案";
    lit "[今回の修正に関連してfunction_list.txtに追加・更新すべき内容。関数の振る舞いが正確に理解できるような詳細な説明と、変更されたプロンプトがある場合はそのプロンプトも含める]";
    [];
    lit "上記の各セクションは必ず含め、具体的かつ詳細な情報を提供してください。特に修正内容との整合性と目的の実装状況については詳細に分析してください。"
  ].

(** [(inputData.changed_files || []).join("\n") || "（なし）"]. *)
Definition changedFilesText (cf : option (list jsstring)) : jsstring :=
  let joined := join nl (match cf with Some fs => fs | None => [] end) in
  if truthy joined then joined else lit "（なし）".

Definition backticks : jsstring := lit "```".

(** The user message of an audit request. *)
Definition auditUserPrompt (inputData : AuditRequest) : jsstring :=
  nl ++ lit "【リクエスト】:" ++ nl
  ++ request inputData ++ nl
  ++ nl ++ lit "【修正内容の概要】:" ++ nl
  ++ modification_description inputData ++ nl
  ++ nl ++ lit "【変更されたファイル】:" ++ nl
  ++ changedFilesText (changed_files inputData) ++ nl
  ++ nl ++ lit "【function_list.txt の内容】:" ++ nl
  ++ backticks ++ nl
  ++ function_list inputData ++ nl
  ++ backticks ++ nl
  ++ nl ++ lit "【コード差分】:" ++ nl
  ++ backticks ++ lit "diff" ++ nl
  ++ code_changes inputData ++ nl
  ++ backticks ++ nl.

Definition auditMessages (inputData : AuditRequest) : list Message :=
  [ mkMessage (lit "system") auditSystemPrompt;
    mkMessage (lit "user") (auditUserPrompt inputData) ].

(** The key it is handed is not used: the call goes through
    [callCompletion], which reads the key of the selected provider. *)
Definition sendSingleAuditRequest (h : Host) (apiKey : jsstring)
    (inputData : AuditRequest) : Run jsstring :=
  callCompletion h (auditMessages inputData).

(** *** [callOpenAIAudit] *)

(** An element of [fileResults]. *)
Record FileResult := mkFileResult { file : jsstring; result : jsstring }.

(** The request built for one file of the map. *)
Definition fileRequest (inputData : AuditRequest) (filePath diffContent : jsstring)
    : AuditRequest :=
  mkAuditRequest
    (request inputData ++ lit " - ファイル: " ++ filePath)
    (modification_description inputData
       ++ lit " - このリクエストはファイル " ++ dquote ++ filePath ++ dquote
       ++ lit " のみを対象としています。")
    diffContent
    (function_list inputData)
    (Some [filePath]).

(** The text recorded for a file whose audit threw. *)
Definition errorMarker (message : jsstring) : jsstring :=
  lit "エラー: " ++ message.

(** One turn of the [for ... of fileDiffs.entries()] loop: the [try]
    pushes the audit of the file, the [catch] pushes the error text. *)
Definition auditFile (h : Host) (apiKey : jsstring) (inputData : AuditRequest)
    (fileResults : list FileResult) (entry : jsstring * jsstring)
    : Run (list FileResult) :=
  let (filePath, diffContent) := entry in
  tryCatch
    (fileAuditResult <-
       sendSingleAuditRequest h apiKey (fileRequest inputData filePath diffContent) ;;
     ret (fileResults ++ [mkFileResult filePath fileAuditResult]))
    (fun err => ret (fileResults ++ [mkFileResult filePath (errorMarker err)])).

(** The whole loop, from the results pushed so far. *)
Fixpoint auditFiles (h : Host) (apiKey : jsstring) (inputData : AuditRequest)
    (entries : JsMap) (fileResults : list FileResult) : Run (list FileResult) :=
  match entries with
  | [] => ret fileResults
  | entry :: rest =>
    fileResults' <- auditFile h apiKey inputData fileResults entry ;;
    auditFiles h apiKey inputData rest fileResults'
  end.

(** One section of the detailed results. *)
Definition fileSection (item : FileResult) : jsstring :=
  lit "## " ++ file item ++ lit " の監査結果:" ++ nl ++ nl ++ result item ++ nl.

Definition sectionSeparator : jsstring := nl ++ lit "---" ++ nl ++ nl.

Definition combinedResults (fileResults : list FileResult) : jsstring :=
  join sectionSeparator (map fileSection fileResults).

(** One line of the summary prompt: the file and the first 100 code
    units of its result. *)
Definition summaryLine (item : FileResult) : jsstring :=
  lit "- " ++ file item ++ lit ": " ++ substring0 100 (result item) ++ lit "...".

Definition summaryPrompt (inputData : AuditRequest) (fileResults : list FileResult)
    : jsstring :=
  nl ++ lit "以下は、コード変更の各ファイルに対する監査結果です。これらの結果を総合的に分析し、変更全体に対する簡潔なサマリーを作成してください。" ++ nl
  ++ lit "問題点があれば箇条書きで指摘し、全体の評価を付けてください。" ++ nl
  ++ nl ++ lit "変更の概要: " ++ modification_description inputData ++ nl
  ++ nl ++ lit "ファイル監査結果:" ++ nl
  ++ join nl (map summaryLine fileResults) ++ nl.

Definition summarySystemPrompt : jsstring :=
  lit "あなたはコード監査の専門家です。複数のファイル監査結果を統合して、全体の評価を提供してください。".

Definition summaryMessages (inputData : AuditRequest) (fileResults : list FileResult)
    : list Message :=
  [ mkMessage (lit "system") summarySystemPrompt;
    mkMessage (lit "user") (summaryPrompt inputData fileResults) ].

(** The final report of the per-file path. *)
Definition finalReport (summaryResult : jsstring) (fileResults : list FileResult)
    : jsstring :=
  lit "# 監査サマリー" ++ nl ++ nl ++ summaryResult ++ nl ++ nl
  ++ lit "# 詳細な監査結果" ++ nl ++ nl ++ combinedResults fileResults.

(** The test that keeps the diff whole:
    [fileDiffs.size <= 2 || inputData.code_changes.length < 10000]. *)
Definition keepWhole (inputData : AuditRequest) : bool :=
  (map_size (splitDiffByFiles (code_changes inputData)) <=? 2)%nat
  || (N.of_nat (List.length (code_changes inputData)) <? 10000).

(** The per-file path: the loop, the summary call, the report. *)
Definition auditPerFile (h : Host) (apiKey : jsstring) (inputData : AuditRequest)
    (fileDiffs : JsMap) : Run jsstring :=
  fileResults <- auditFiles h apiKey inputData fileDiffs [] ;;
  summaryResult <- callCompletion h (summaryMessages inputData fileResults) ;;
  ret (finalReport summaryResult fileResults).

Definition callOpenAIAudit (h : Host) (inputData : AuditRequest) : Run jsstring :=
  match OPENAI_API_KEY (env h) with
  | None => throw missingOpenAIKey
  | Some apiKey =>
    if negb (truthy apiKey) then throw missingOpenAIKey
    else
      let fileDiffs := splitDiffByFiles (code_changes inputData) in
      if keepWhole inputData then sendSingleAuditRequest h apiKey inputData
      else auditPerFile h apiKey inputData fileDiffs
  end.

(** *** [saveAuditReport] and [performAudit] *)

(** [path.join] of segments that need no normalisation. *)
Definition path_join (segments : list jsstring) : jsstring :=
  join (lit "/") segments.

(** [s.replace(/[:.]/g, "-")]. *)
Definition dashTimestamp (s : jsstring) : jsstring :=
  map (fun c => if (c =? 58) || (c =? 46) then 45 else c) s.

(** The directory is created when missing, then the report is written;
    a refused write throws. *)
Definition saveAuditReport (h : Host) (aiReport : jsstring) : Run jsstring :=
  let reportsDir := path_join [dirname h; lit "audits"; lit "reports"] in
  let timestamp := dashTimestamp (isoNow h) in
  let reportPath :=
    path_join [reportsDir; lit "audit-report-" ++ timestamp ++ lit ".txt"] in
  match writeRefused h reportPath with
  | Some e => throw e
  | None =>
    fun w => (mkWorld (sent w) (map_set reportPath aiReport (written w)),
              Returned reportPath)
  end.

(** The value [performAudit] resolves to. *)
Record AuditReport := mkAuditReport {
  status : jsstring;
  message : jsstring;
  reportPath : jsstring;
  aiReport : jsstring
}.

(** The [catch] of [performAudit] logs and throws the same error again. *)
Definition performAudit (h : Host) (params : AuditRequest) : Run AuditReport :=
  tryCatch
    (aiReport <- callOpenAIAudit h params ;;
     reportPath <- saveAuditReport h aiReport ;;
     ret (mkAuditReport (lit "success") (lit "監査レポートを生成しました。")
            reportPath aiReport))
    (fun error => throw error).

End AuditCommon.


(* ================================================================== *)
(** ** The resolver helpers ([auto-audit.js], the editor shortcut) *)
(* ================================================================== *)

Module AutoAudit.

(** The four version-control queries of the resolver. *)
Inductive GitQuery :=
| DiffCached      (** [git diff --cached] *)
| DiffWorking     (** [git diff] *)
| NamesCached     (** [git diff --cached --name-only] *)
| NamesWorking.   (** [git diff --name-only] *)

(** [execSync(cmd).toString()]: the output, or [None] when [execSync]
    throws (git is missing, or exits with an error). *)
Definition Git := GitQuery -> option jsstring.

(** What the [catch] of [getLatestChanges] returns. *)
Definition unavailable : jsstring := lit "// 変更内容を取得できませんでした".

Definition getLatestChanges (git : Git) : jsstring :=
  match git DiffCached with
  | Some diffCached =>
    if truthy (trim diffCached) then diffCached
    else match git DiffWorking with
         | Some diff => diff
         | None => unavailable
         end
  | None => unavailable
  end.

(** [[...new Set(xs)]]: the first occurrence of every element, in order. *)
Fixpoint set_spread (seen xs : list jsstring) : list jsstring :=
  match xs with
  | [] => []
  | x :: xs' =>
    if existsb (jseqb x) seen then set_spread seen xs'
    else x :: set_spread (x :: seen) xs'
  end.

(** [.split("\n").filter(Boolean)]. *)
Definition nonEmptyLines (out : jsstring) : list jsstring :=
  filter truthy (split 10 out).

Definition getChangedFiles (git : Git) : list jsstring :=
  match git NamesCached with
  | Some staged =>
    match git NamesWorking with
    | Some unstaged =>
      set_spread [] (nonEmptyLines staged ++ nonEmptyLines unstaged)
    | None => []
    end
  | None => []
  end.

End AutoAudit.

(* ================================================================== *)
(** ** The request builder ([pre_audit.sh]), sections 4, 7 and 8 *)
(* ================================================================== *)

Module PreAudit.

Local Open Scope N_scope.

(** A shell string: its bytes. *)
Definition shstring := list N.

Definition sh (s : string) : shstring := bytes_of_string s.
Arguments sh s%_string : simpl never.

(** [[ -n "$x" ]]. *)
Definition nonempty (x : shstring) : bool := truthy x.

(** [$(...)]: the output without its trailing newlines. *)
Definition cmdsubst (out : shstring) : shstring :=
  rev (drop_while (N.eqb 10) (rev out)).

(** The lines a loop reads from [<<< "$x"]: [x] followed by one
    newline. *)
Definition lines_of (x : shstring) : list shstring := split 10 x.

(** Text of the bytes 1 to 127.  On such text the POSIX locale and a
    UTF-8 locale agree: a byte is a character, and [[:space:]] is the
    bytes 9 to 13 and 32.  [grep], [sed] and the [=~] of bash are
    modelled on such text only. *)
Definition is_ascii (c : N) : bool := (1 <=? c) && (c <=? 127).

Definition ascii_text (s : shstring) : bool := forallb is_ascii s.

(** The argument is read by [echo] as options: a dash and then only the
    letters [n], [e] and [E], one at least. *)
Definition echo_option (arg : shstring) : bool :=
  match arg with
  | dash :: c :: rest =>
    (dash =? 45)
    && forallb (fun x => (x =? 110) || (x =? 101) || (x =? 69)) (c :: rest)
  | _ => false
  end.

(** What [echo "$x"] prints: [x] and a newline; for an [x] that it reads
    as options, nothing when [n] is among them and a newline otherwise. *)
Definition echo (x : shstring) : shstring :=
  if echo_option x then (if existsb (N.eqb 110) x then [] else nl)
  else x ++ nl.

(** The lines of a stream, as [grep], [sed], [awk] and the loop
    [while IFS= read -r line || [[ -n "$line" ]]] of section 3 take them:
    every line that ends with a line feed, and what follows the last
    line feed when it is not empty. *)
Definition readLines (content : shstring) : list shstring :=
  let pieces := split 10 content in
  removelast pieces
    ++ (if nonempty (last pieces []) then [last pieces []] else []).

(** The lines a filter reads from [echo "$x" |]. *)
Definition echo_lines (x : shstring) : list shstring := readLines (echo x).

(** [wc -l]: the number of line feeds. *)
Definition wc_l (out : shstring) : nat := List.length (filter (N.eqb 10) out).

(** The output of a filter that prints the lines it keeps. *)
Definition unlines (ls : list shstring) : shstring :=
  List.concat (map (fun l => l ++ nl) ls).

(** *** Section 4: the diff, staged first *)

Inductive GitQuery :=
| DiffCached     (** [git diff --cached] *)
| DiffWorking.   (** [git diff] *)

(** [tr -d '[:space:]']. *)
Definition tr_d_space (s : shstring) : shstring :=
  filter (fun c => negb (((9 <=? c) && (c <=? 13)) || (c =? 32))) s.

(** [git_stdout q] is what the query prints; [|| true] drops its status.
    The text of a staged diff is taken as [echo] prints any text that is
    not a string of its options: whole, with a newline. *)
Definition acquireDiff (git_stdout : GitQuery -> shstring) : shstring :=
  let diffCached := cmdsubst (git_stdout DiffCached) in
  if nonempty diffCached && nonempty (cmdsubst (tr_d_space (diffCached ++ nl)))
  then diffCached
  else cmdsubst (git_stdout DiffWorking).

(** *** Section 7: the awk extraction of one file's diff *)

Definition awk_blank (c : N) : bool := (c =? 32) || (c =? 9) || (c =? 10).

(** The fields of a record under the default separator; [cur] is the
    field being read. *)
Fixpoint fields_from (cur s : shstring) : list shstring :=
  match s with
  | [] => if nonempty cur then [cur] else []
  | c :: s' =>
    if awk_blank c
    then (if nonempty cur then cur :: fields_from [] s' else fields_from [] s')
    else fields_from (cur ++ [c]) s'
  end.

(** [$n] of a record, empty when the record has fewer fields. *)
Definition field (n : nat) (record : shstring) : shstring :=
  nth (n - 1) (fields_from [] record) [].

(** [/^diff --git a\//]. *)
Definition isGitHeader (line : shstring) : bool :=
  starts_with (sh "diff --git a/") line.

(** Both rules of the program on one record; the state is
    [(in_file, file_diff)]. *)
Definition awkStep (file : shstring) (st : bool * shstring) (record : shstring)
    : bool * shstring :=
  let (in_file, file_diff) := st in
  let st1 :=
    if isGitHeader record then
      if jseqb (field 3 record) (sh "b/" ++ file)
         || jseqb (field 2 record) (sh "a/" ++ file)
      then (true, file_diff ++ record ++ nl)
      else (false, file_diff)
    else (in_file, file_diff) in
  let (in_file1, file_diff1) := st1 in
  if in_file1 && negb (isGitHeader record)
  then (in_file1, file_diff1 ++ record ++ nl)
  else st1.

(** [file_diff=$(echo "$original_diff" | awk -v file="$file" '...')], for
    a path without a backslash, which [-v] would read as an escape. *)
Definition awkExtract (file original_diff : shstring) : shstring :=
  let file_diff :=
    snd (fold_left (awkStep file) (echo_lines original_diff) (false, [])) in
  cmdsubst (file_diff ++ nl).

(** Section 7 as a whole: the new [codeChanges]. *)
Definition restrictDiff (combinedFiles codeChanges : shstring) : shstring :=
  if nonempty combinedFiles then
    let original_diff := codeChanges in
    let filtered_diff :=
      fold_left
        (fun acc file =>
           if nonempty file then
             let file_diff := awkExtract file original_diff in
             if nonempty file_diff then acc ++ file_diff else acc
           else acc)
        (lines_of combinedFiles) [] in
    if nonempty filtered_diff then filtered_diff else codeChanges
  else codeChanges.

(** *** Section 8: the membership test [grep -q "^$path$"]

    The path is spliced into a basic regular expression.  The fragment
    modelled is that of ASCII text and of patterns whose only special
    character is the dot, which stands for any one character; a path
    that holds a backslash, a bracket, a star, a caret or a dollar is
    outside of it, and so is text with a byte above 127, which [grep]
    reads by the locale. *)
Definition bre_unmodelled (c : N) : bool :=
  (c =? 92) || (c =? 91) || (c =? 42) || (c =? 94) || (c =? 36).

(** An ASCII line against a pattern of ordinary characters and dots, end
    to end. *)
Fixpoint dot_match (pattern line : shstring) : bool :=
  match pattern, line with
  | [], [] => true
  | p :: pattern', c :: line' => ((p =? 46) || (p =? c)) && dot_match pattern' line'
  | _, _ => false
  end.

(** [echo "$combinedFiles" | grep -q "^$path$"]: [Some true] when some
    line that [echo] prints matches, [None] outside the fragment. *)
Definition listed (combinedFiles path : shstring) : option bool :=
  if existsb bre_unmodelled path
     || negb (ascii_text path) || negb (ascii_text combinedFiles)
  then None
  else Some (existsb (dot_match path) (echo_lines combinedFiles)).

(** *** Section 8: the header paths of the diff *)

(** [grep -E "^diff --git"]. *)
Definition isDiffGit (line : shstring) : bool :=
  starts_with (sh "diff --git") line.

Fixpoint take_while (f : N -> bool) (s : shstring) : shstring :=
  match s with
  | [] => []
  | c :: s' => if f c then c :: take_while f s' else []
  end.

Definition not_space (c : N) : bool := negb (c =? 32).

(** [sed -E 's/^diff --git a\/([^ ]+) b\/([^ ]+)$/\1/']: the first path
    of a header whose two paths hold no space, any other line as it is. *)
Definition sedHeaderPath (line : shstring) : shstring :=
  let prefix := sh "diff --git a/" in
  if starts_with prefix line then
    let rest := skipn (List.length prefix) line in
    let x := take_while not_space rest in
    let after := drop_while not_space rest in
    let y := skipn 3 after in
    if nonempty x && starts_with (sh " b/") after && nonempty y
       && forallb not_space y
    then x else line
  else line.

(** [diff_files]: the pipeline ends with [sed], whose status is 0, so
    the [|| echo ""] does not run. *)
Definition diffFiles (codeChanges : shstring) : shstring :=
  cmdsubst (unlines (map sedHeaderPath (filter isDiffGit (echo_lines codeChanges)))).

(** The first loop: [(diff_file_count, unexpected_files)], the unexpected
    paths as the list of the lines of that variable. *)
Fixpoint checkDiffFiles (combinedFiles : shstring) (diff_files : list shstring)
    (count : nat) (unexpected : list shstring) : option (nat * list shstring) :=
  match diff_files with
  | [] => Some (count, unexpected)
  | diff_file :: rest =>
    if nonempty diff_file then
      match listed combinedFiles diff_file with
      | None => None
      | Some true => checkDiffFiles combinedFiles rest (S count) unexpected
      | Some false =>
        checkDiffFiles combinedFiles rest (S count) (unexpected ++ [diff_file])
      end
    else checkDiffFiles combinedFiles rest count unexpected
  end.

(** [[[ "$line" =~ ^diff\ --git\ a/(.+)\ b/(.+)$ ]]]: [BASH_REMATCH[1]],
    the longest first path for which the rest still matches. *)
Definition bashHeaderPath (line : shstring) : option shstring :=
  let prefix := sh "diff --git a/" in
  if starts_with prefix line then
    match skipn (List.length prefix) line with
    | [] => None
    | c :: rest =>
      match AuditCommon.group1_tail rest with
      | Some x => Some (c :: x)
      | None => None
      end
    end
  else None.

(** The second loop, which rebuilds the diff: the state is
    [(filtered_diff, include_lines)]; [None] on a line outside the
    fragment. *)
Fixpoint stripLines (combinedFiles : shstring) (lines : list shstring)
    (filtered_diff : shstring) (include_lines : bool) : option shstring :=
  match lines with
  | [] => Some filtered_diff
  | line :: rest =>
    if ascii_text line then
      match bashHeaderPath line with
      | Some file_path =>
        match listed combinedFiles file_path with
        | None => None
        | Some true => stripLines combinedFiles rest (filtered_diff ++ line ++ nl) true
        | Some false => stripLines combinedFiles rest filtered_diff false
        end
      | None =>
        if include_lines
        then stripLines combinedFiles rest (filtered_diff ++ line ++ nl) true
        else stripLines combinedFiles rest filtered_diff false
      end
    else None
  end.

(** What section 8 leaves: the diff, the number of headers seen and the
    number of discrepancies that the warning prints, 0 when there is no
    warning. *)
Record Verified := mkVerified {
  codeChanges : shstring;
  diff_file_count : nat;
  warning_count : nat
}.

(** Section 8 as a whole, on ASCII text.  [unexpected_files] is kept as
    the list of its lines; the count of the warning is
    [$(echo "$unexpected_files" | wc -l)]. *)
Definition verifyDiff (combinedFiles codeChanges0 : shstring) : option Verified :=
  if ascii_text combinedFiles && ascii_text codeChanges0 then
    match checkDiffFiles combinedFiles (lines_of (diffFiles codeChanges0)) 0 [] with
    | None => None
    | Some (count, unexpected_files) =>
      match unexpected_files with
      | [] => Some (mkVerified codeChanges0 count 0)
      | _ :: _ =>
        let warning_count := wc_l (echo (join nl unexpected_files)) in
        match stripLines combinedFiles (lines_of codeChanges0) [] true with
        | None => None
        | Some filtered_diff =>
          Some (mkVerified filtered_diff count warning_count)
        end
      end
    end
  else None.

(** A line that [grep -E "^diff --git"] keeps holds none of the bytes
    the membership test is not modelled on. *)
Definition plain_header (line : shstring) : bool :=
  negb (isDiffGit line) || negb (existsb bre_unmodelled line).

(** The paths that the first loop goes through, and those among them
    that no line printed by [echo "$combinedFiles"] matches. *)
Definition diffPaths (codeChanges : shstring) : list shstring :=
  map sedHeaderPath (filter isDiffGit (lines_of codeChanges)).

Definition unlistedPaths (combinedFiles codeChanges : shstring) : list shstring :=
  filter (fun path => negb (existsb (dot_match path) (echo_lines combinedFiles)))
         (diffPaths codeChanges).

(** Sections 7 and 8 in sequence: the diff scoper. *)
Definition scopeDiff (combinedFiles codeChanges0 : shstring) : option Verified :=
  verifyDiff combinedFiles (restrictDiff combinedFiles codeChanges0).

End PreAudit.

(* ================================================================== *)
(** ** What a run shows from outside *)
(* ================================================================== *)

Module Observed.

Import AuditCommon.

(** The selected provider is one of the two and its own key is set. *)
Definition providerReady (e : Env) : bool :=
  if jseqb (getAIProvider e) AIProvider_OPENAI then truthy_opt (OPENAI_API_KEY e)
  else if jseqb (getAIProvider e) AIProvider_DEEPSEEK
       then truthy_opt (DEEPSEEK_API_KEY e)
       else false.

(** The POST that carries [msgs] to the selected provider. *)
Definition requestFor (e : Env) (msgs : list Message) : HttpRequest :=
  if jseqb (getAIProvider e) AIProvider_OPENAI
  then mkHttpRequest (lit "https://api.openai.com/v1/chat/completions")
         (or_default (OPENAI_API_KEY e) []) (getOpenAIModelName e) msgs 1500
  else mkHttpRequest (lit "https://api.deepseek.com/v1/chat/completions")
         (or_default (DEEPSEEK_API_KEY e) []) (getDeepSeekModelName e) msgs 1500.

(** The name under which the selected provider reports a failure. *)
Definition providerLabel (e : Env) : jsstring :=
  if jseqb (getAIProvider e) AIProvider_OPENAI then lit "OpenAI" else lit "DeepSeek".

(** The audit request sent for one entry of the map. *)
Definition fileRequestFor (e : Env) (inputData : AuditRequest)
    (entry : jsstring * jsstring) : HttpRequest :=
  requestFor e (auditMessages (fileRequest inputData (fst entry) (snd entry))).

Definition fileRequests (e : Env) (inputData : AuditRequest) (entries : JsMap)
    : list HttpRequest :=
  map (fileRequestFor e inputData) entries.

(** The text a segment ends with: its completion, or the error text of
    the failure of its call. *)
Definition segmentText (e : Env) (o : FetchOutcome) : jsstring :=
  match o with
  | OkJson completion => or_default completion []
  | FetchRejected m => lit "エラー: " ++ m
  | NotOk status errText =>
    lit "エラー: " ++ providerLabel e ++ lit " API エラー: " ++ show_N status
      ++ nl ++ errText
  end.

(** The results of the segments of [entries], audited in order after
    the requests of [history]. *)
Fixpoint fileResultsFrom (h : Host) (inputData : AuditRequest)
    (history : list HttpRequest) (entries : JsMap) : list FileResult :=
  match entries with
  | [] => []
  | entry :: rest =>
    let req := fileRequestFor (env h) inputData entry in
    mkFileResult (fst entry) (segmentText (env h) (fetch h history req))
      :: fileResultsFrom h inputData (history ++ [req]) rest
  end.

(** [t] occurs inside [s]. *)
Definition occurs_in (t s : jsstring) : Prop :=
  exists before after, s = before ++ t ++ after.

(** The paths of the header lines of a diff, in order. *)
Fixpoint headerPaths (lines : list jsstring) : list jsstring :=
  match lines with
  | [] => []
  | line :: rest =>
    match matchFileRegex line with
    | Some path => path :: headerPaths rest
    | None => headerPaths rest
    end
  end.

(** *** Concrete runs *)

(** Both keys set, DeepSeek selected. *)
Definition bothKeysEnv : Env :=
  mkEnv (Some (lit "sk-openai")) (Some (lit "sk-deepseek"))
        (Some (lit "deepseek")) None None None.

(** DeepSeek selected with its key, no OpenAI key. *)
Definition deepseekOnlyEnv : Env :=
  mkEnv None (Some (lit "sk-deepseek")) (Some (lit "deepseek")) None None None.

(** A provider that answers every request with the same text. *)
Definition steadyFetch (history : list HttpRequest) (req : HttpRequest)
    : FetchOutcome :=
  OkJson (Some (lit "LGTM")).

(** A provider that answers every request with 250 letters. *)
Definition verboseFetch (history : list HttpRequest) (req : HttpRequest)
    : FetchOutcome :=
  OkJson (Some (repeat 65%N 250)).

(** A provider whose second answer of a run is an HTTP error. *)
Definition secondFailsFetch (history : list HttpRequest) (req : HttpRequest)
    : FetchOutcome :=
  match history with
  | [_] => NotOk 500 (lit "overloaded")
  | _ => OkJson (Some (lit "LGTM"))
  end.

(** A provider that answers three requests and then fails. *)
Definition fourthFailsFetch (history : list HttpRequest) (req : HttpRequest)
    : FetchOutcome :=
  match history with
  | [_; _; _] => NotOk 503 (lit "unavailable")
  | _ => OkJson (Some (lit "LGTM"))
  end.

Definition hostOf (e : Env)
    (f : list HttpRequest -> HttpRequest -> FetchOutcome) : Host :=
  mkHost e f (lit "/srv/audit") (lit "2025-01-02T03:04:05.678Z") (fun _ => None).

Definition freshWorld : World := mkWorld [] [].

(** One file's segment: its header and a line of [filler] plus signs. *)
Definition segmentOf (path : string) (filler : nat) : jsstring :=
  lit "diff --git a/" ++ lit path ++ lit " b/" ++ lit path ++ nl ++ repeat 43%N filler.

Definition requestWith (diff : jsstring) : AuditRequest :=
  mkAuditRequest (lit "audit") (lit "rename helper") diff (lit "helper")
    (Some [lit "a.ts"]).

(** Two segments, 9,999 code units. *)
Definition twoFileDiff : jsstring :=
  join nl [segmentOf "a.ts" 4974; segmentOf "b.ts" 4974].

(** Three segments, 15,000 code units. *)
Definition threeFileDiff : jsstring :=
  join nl [segmentOf "a.ts" 4975; segmentOf "b.ts" 4974; segmentOf "c.ts" 4974].

(** Two segments of two lines each. *)
Definition smallTwoFileDiff : jsstring :=
  lit "diff --git a/x b/x" ++ nl ++ lit "+1" ++ nl
  ++ lit "diff --git a/y b/y" ++ nl ++ lit "+2".

(** A line ahead of the first header. *)
Definition preambleDiff : jsstring :=
  lit "index on main" ++ nl ++ lit "diff --git a/x b/x" ++ nl ++ lit "+1".

(** Two headers for the same path. *)
Definition repeatedPathDiff : jsstring :=
  lit "diff --git a/x b/x" ++ nl ++ lit "+1" ++ nl
  ++ lit "diff --git a/x b/x" ++ nl ++ lit "+2".

(** Every query of the resolver fails. *)
Definition gitMissing : AutoAudit.Git := fun _ => None.

(** Every query of the request builder prints nothing. *)
Definition gitSilent : PreAudit.GitQuery -> PreAudit.shstring := fun _ => [].

(** The diff of the scoper scenario: a segment for [a.ts], one for [b.ts]. *)
Definition scopedScenarioDiff : PreAudit.shstring :=
  PreAudit.sh "diff --git a/a.ts b/a.ts" ++ nl ++ PreAudit.sh "+x" ++ nl
  ++ PreAudit.sh "diff --git a/b.ts b/b.ts" ++ nl ++ PreAudit.sh "+y".

(** A diff with a segment for [a.ts] and one for [a-ts]. *)
Definition dottedPathDiff : PreAudit.shstring :=
  PreAudit.sh "diff --git a/a.ts b/a.ts" ++ nl ++ PreAudit.sh "+x" ++ nl
  ++ PreAudit.sh "diff --git a/a-ts b/a-ts" ++ nl ++ PreAudit.sh "+y".


(** What holds of the state of [splitDiffByFiles] once the lines
    [processed], the first of them a header, went through the loop: the
    saved files and the current one are the headers seen, and their
    texts, joined by line feeds, are the lines seen. *)
Definition splitInv (st : SplitState) (processed : list jsstring) : Prop :=
  truthy (currentFile st) = true
  /\ currentContent st <> []
  /\ map fst (fileMap st) ++ [currentFile st] = headerPaths processed
  /\ join nl (map snd (fileMap st) ++ [join nl (currentContent st)])
     = join nl processed.

End Observed.

(* ================================================================== *)
(** ** Invariants of the split, and more of what a run shows *)
(* ================================================================== *)

Module Invariants.

Import AuditCommon Observed.

Local Open Scope N_scope.

(** A line holds no line feed. *)
Definition no_nl (line : jsstring) : Prop := ~ In 10 line.

(** The state of [splitDiffByFiles] and the header paths seen so far:
    the saved keys are pairwise different, a current file has content,
    and the saved keys with the current file are the paths seen. *)
Definition keysInv (st : SplitState) (paths : list jsstring) : Prop :=
  NoDup (map fst (fileMap st))
  /\ (truthy (currentFile st) = true -> currentContent st <> [])
  /\ forall p,
       (In p (map fst (fileMap st))
        \/ (truthy (currentFile st) = true /\ p = currentFile st))
       <-> In p paths.

(** The lines of one segment: a header for [path], then lines that are
    no headers, none of them holding a line feed. *)
Definition segmentLines (path : jsstring) (lines : list jsstring) : Prop :=
  exists header rest,
    lines = header :: rest
    /\ matchFileRegex header = Some path
    /\ headerPaths rest = []
    /\ Forall no_nl lines.

(** A text is the text of one segment for [path]. *)
Definition segmentText_of (path text : jsstring) : Prop :=
  exists lines, segmentLines path lines /\ text = join nl lines.

(** Every saved text is a segment for its key, and so is the content of
    the current file. *)
Definition shapeInv (st : SplitState) : Prop :=
  Forall (fun kv => segmentText_of (fst kv) (snd kv)) (fileMap st)
  /\ (truthy (currentFile st) = true ->
      segmentLines (currentFile st) (currentContent st)).

(** A header with a rename and a path that holds [" b/"]. *)
Definition renameHeader : jsstring := lit "diff --git a/old name b/new".

End Invariants.

(* ================================================================== *)
(** ** More of what a run shows *)
(* ================================================================== *)

Module RunShape.

Import AuditCommon Observed.

Local Open Scope N_scope.

(** The error of a completion call under a configuration that is not
    ready: the missing key of the selected provider, or the selector
    that names no provider. *)
Definition configError (e : Env) : jsstring :=
  if jseqb (getAIProvider e) AIProvider_OPENAI
  then lit "環境変数 OPENAI_API_KEY が設定されていません。"
  else if jseqb (getAIProvider e) AIProvider_DEEPSEEK
       then lit "環境変数 DEEPSEEK_API_KEY が設定されていません。"
       else lit "未対応のAIプロバイダです: " ++ getAIProvider e.

(** A request goes to the selected provider: to its endpoint, with its
    own key and its model, and with the token limit of the engine. *)
Definition toSelectedProvider (e : Env) (r : HttpRequest) : Prop :=
  max_tokens r = 1500
  /\ ((getAIProvider e = lit "openai"
       /\ url r = lit "https://api.openai.com/v1/chat/completions"
       /\ OPENAI_API_KEY e = Some (bearer r)
       /\ model r = getOpenAIModelName e)
      \/ (getAIProvider e = lit "deepseek"
          /\ url r = lit "https://api.deepseek.com/v1/chat/completions"
          /\ DEEPSEEK_API_KEY e = Some (bearer r)
          /\ model r = getDeepSeekModelName e)).

(** The OpenAI key is set and DeepSeek is selected without its key. *)
Definition deepseekKeyMissingEnv : Env :=
  mkEnv (Some (lit "sk-openai")) None (Some (lit "deepseek")) None None None.

(** A provider that answers every request with an HTTP error. *)
Definition alwaysFailsFetch (history : list HttpRequest) (req : HttpRequest)
    : FetchOutcome :=
  NotOk 429 (lit "slow down").

(** The path of the report of a run on host [h]. *)
Definition reportPathOf (h : Host) : jsstring :=
  dirname h ++ lit "/audits/reports/audit-report-"
    ++ dashTimestamp (isoNow h) ++ lit ".txt".

End RunShape.

(* ================================================================== *)
(** ** Concrete answers of the version-control queries *)
(* ================================================================== *)

Module ResolverRuns.

Import AutoAudit.

(** A staged diff for [x.txt], an unstaged one for [y.txt]. *)
Definition stagedAndUnstaged : Git := fun q =>
  match q with
  | DiffCached => Some (lit "diff --git a/x.txt b/x.txt" ++ nl ++ lit "+hello")
  | DiffWorking => Some (lit "diff --git a/y.txt b/y.txt" ++ nl ++ lit "+world")
  | NamesCached => Some (lit "a.ts" ++ nl ++ lit "b.ts" ++ nl)
  | NamesWorking => Some (lit "b.ts" ++ nl ++ lit "c.ts" ++ nl)
  end.

(** Byte 9 to 13 or 32: what [tr -d '[:space:]'] deletes. *)
Definition sh_space (c : N) : bool :=
  ((9 <=? c) && (c <=? 13))%N || (c =? 32)%N.

End ResolverRuns.

(* ================================================================== *)
(** ** The request builder ([pre_audit.sh]): arguments and ignore file *)
(* ================================================================== *)

Module PreAuditSetup.

Import PreAudit ResolverRuns.

Local Open Scope N_scope.

(** *** The arguments *)

(** [HTTP_MODE], [SEND_REQUEST] and [MCP_PORT]. *)
Record Options := mkOptions {
  HTTP_MODE : bool;
  SEND_REQUEST : bool;
  MCP_PORT : shstring
}.

(** The settings before the arguments are read. *)
Definition defaultOptions : Options := mkOptions false false (sh "3000").

Definition is_digit (c : N) : bool := (48 <=? c) && (c <=? 57).

(** [[[ "$2" =~ ^[0-9]+$ ]]]. *)
Definition all_digits (s : shstring) : bool := nonempty s && forallb is_digit s.

(** The [while [ $# -gt 0 ]] loop with its [case]: after [-h] or
    [--http] an argument of digits is the port and is shifted away. *)
Fixpoint parseArgs (args : list shstring) (o : Options) : Options :=
  match args with
  | [] => o
  | arg :: rest =>
    if jseqb arg (sh "-h") || jseqb arg (sh "--http") then
      match rest with
      | next :: rest' =>
        if all_digits next
        then parseArgs rest' (mkOptions true (SEND_REQUEST o) next)
        else parseArgs rest (mkOptions true (SEND_REQUEST o) (MCP_PORT o))
      | [] => mkOptions true (SEND_REQUEST o) (MCP_PORT o)
      end
    else if jseqb arg (sh "--send")
    then parseArgs rest (mkOptions (HTTP_MODE o) true (MCP_PORT o))
    else parseArgs rest o
  end.

(** The argument is [-h] or [--http]; the argument is [--send]. *)
Definition isHttpFlag (arg : shstring) : bool :=
  jseqb arg (sh "-h") || jseqb arg (sh "--http").

Definition isSendFlag (arg : shstring) : bool := jseqb arg (sh "--send").

(** *** Section 3: the ignore file *)

(** [[[ "$line" =~ ^[[:space:]]*# ]]], on an ASCII line. *)
Definition is_comment (line : shstring) : bool :=
  match drop_while sh_space line with
  | c :: _ => c =? 35
  | [] => false
  end.

(** [sed -e 's/^[[:space:]]*//' -e 's/[[:space:]]*$//'] on one ASCII
    line. *)
Definition sed_trim (line : shstring) : shstring :=
  rev (drop_while sh_space (rev (drop_while sh_space line))).

(** [trimmed_line=$(echo "$line" | sed ...)]: nothing of the line comes
    out of [echo] when it reads it as options. *)
Definition trimmedLine (line : shstring) : shstring :=
  if echo_option line then [] else cmdsubst (sed_trim line ++ nl).

(** The body of the loop. *)
Definition loadStep (ignore_patterns : list shstring) (line : shstring)
    : list shstring :=
  if nonempty line && negb (is_comment line) then
    let trimmed_line := trimmedLine line in
    if nonempty trimmed_line then ignore_patterns ++ [trimmed_line]
    else ignore_patterns
  else ignore_patterns.

(** [ignore_patterns] after section 3, for a file of ASCII text, on
    which [[:space:]] does not depend on the locale; [file = None] is a
    missing file, which leaves the array empty, and the result [None] is
    a file outside the fragment. *)
Definition loadIgnorePatterns (file : option shstring)
    : option (list shstring) :=
  match file with
  | Some content =>
    if ascii_text content
    then Some (fold_left loadStep (readLines content) [])
    else None
  | None => Some []
  end.

(** An ignore file with a comment, blank lines and padded patterns, the
    last line without its line feed. *)
Definition sampleIgnoreFile : shstring :=
  sh "# build output" ++ nl ++ sh "  dist/.*  " ++ nl ++ nl
  ++ sh "   # indented comment" ++ nl ++ sh "-n" ++ nl ++ sh ".*\.lock".

End PreAuditSetup.

(* ================================================================== *)
(** ** The transports: the MCP tool and the JSON-RPC endpoint *)
(* ================================================================== *)

From Stdlib Require Import ZArith.

Module Transports.

Import AuditCommon.

(** *** The [audit] tool of [audit-mcp-server.ts] *)

(** The object that the tool renders with [JSON.stringify(..., null, 2)]
    into the text of its one content item. *)
Inductive ToolPayload :=
| ToolSucceeded (result : AuditReport)
| ToolFailed (error : jsstring).

Record ToolResponse := mkToolResponse {
  payload : ToolPayload;
  isError : bool
}.

(** The handler of the tool. *)
Definition auditTool (h : Host) (params : AuditRequest) : Run ToolResponse :=
  tryCatch
    (result <- performAudit h params ;;
     ret (mkToolResponse (ToolSucceeded result) false))
    (fun error => ret (mkToolResponse (ToolFailed error) true)).

(** *** [processJsonRpcRequest] and the POST handler of
    [audit-http-server.ts] *)

(** An [id]: a number, here an integer, or a string. *)
Inductive RpcId :=
| IdNumber (n : Z)
| IdString (s : jsstring).

(** A request whose [params] have the type of an [AuditRequest]; an
    absent [id] is [None]. *)
Record JsonRpcRequest := mkJsonRpcRequest {
  id : option RpcId;
  method : jsstring;
  params : AuditRequest
}.

Inductive JsonRpcResponse :=
| RpcResult (id : option RpcId) (result : AuditReport)
| RpcError (id : option RpcId) (code : Z) (message : jsstring).

Definition processJsonRpcRequest (h : Host) (request : JsonRpcRequest)
    : Run JsonRpcResponse :=
  if negb (jseqb (method request) (lit "tool/audit")) then
    ret (RpcError (id request) (-32601)
           (lit "Method not found: " ++ method request))
  else
    tryCatch
      (result <- performAudit h (params request) ;;
       ret (RpcResult (id request) result))
      (fun err => ret (RpcError (id request) (-32000) err)).

(** The body of a POST as the handler reads it: each field may be
    absent. *)
Record Body := mkBody {
  body_id : option RpcId;
  body_method : option jsstring;
  body_params : option AuditRequest
}.

(** [req.body?.id || null]: a zero and an empty string are dropped. *)
Definition idOrNull (body : option Body) : option RpcId :=
  match body with
  | Some b =>
    match body_id b with
    | Some (IdNumber 0) => None
    | Some (IdString []) => None
    | other => other
    end
  | None => None
  end.

(** The status of the HTTP answer and its JSON. *)
Record HttpReply := mkHttpReply {
  http_status : N;
  reply : JsonRpcResponse
}.

Definition invalidRequest (body : option Body) : HttpReply :=
  mkHttpReply 400
    (RpcError (idOrNull body) (-32600)
       (lit "Invalid Request: JSON-RPCリクエストの形式が不正です")).

(** [app.post('/', ...)]. *)
Definition postRoot (h : Host) (body : option Body) : Run HttpReply :=
  tryCatch
    (match body with
     | None => ret (invalidRequest body)
     | Some b =>
       match body_method b, body_params b with
       | Some m, Some p =>
         if truthy m then
           result <- processJsonRpcRequest h (mkJsonRpcRequest (body_id b) m p) ;;
           ret (mkHttpReply 200 result)
         else ret (invalidRequest body)
       | _, _ => ret (invalidRequest body)
       end
     end)
    (fun err => ret (mkHttpReply 500 (RpcError (idOrNull body) (-32603) err))).

End Transports.

(* ================================================================== *)
(** ** The first server ([audit-server.ts]) *)
(* ================================================================== *)

Module AuditServer.

Import AuditCommon.

(** The system message of that server, line by line. *)
Definition systemPrompt : jsstring :=
  join nl [
    lit "あなたはソフトウェア監査ツールです。与えられた「リクエスト」「変更内容」「差分」「function_list」「変更ファイル一覧」を確認し、";
    lit "- 指示していない変更がないか";
    lit "- 既存機能が削除されていないか";
    lit "- TODO / FIXME が残っていないか";
    lit "などを点検し、問題点があれば箇条書きで指摘してください。"
  ].

(** The one request of an audit: always to OpenAI. *)
Definition auditRequestOf (apiKey : jsstring) (inputData : AuditRequest)
    : HttpRequest :=
  mkHttpRequest (lit "https://api.openai.com/v1/chat/completions") apiKey
    (lit "gpt-3.5-turbo")
    [ mkMessage (lit "system") systemPrompt;
      mkMessage (lit "user") (auditUserPrompt inputData) ]
    800.

(** [callOpenAIAudit] of that server: the key must hold more than white
    space. *)
Definition callOpenAIAudit (h : Host) (inputData : AuditRequest) : Run jsstring :=
  match OPENAI_API_KEY (env h) with
  | None => throw missingOpenAIKey
  | Some apiKey =>
    if negb (truthy apiKey) || negb (truthy (trim apiKey))
    then throw missingOpenAIKey
    else
      response <- doFetch h (auditRequestOf apiKey inputData) ;;
      settle (readCompletion (lit "OpenAI") response)
  end.

(** The handler of its tool: the audit, the report file, the answer. *)
Definition auditTool (h : Host) (params : AuditRequest)
    : Run Transports.ToolResponse :=
  tryCatch
    (aiReport <- callOpenAIAudit h params ;;
     reportPath <- saveAuditReport h aiReport ;;
     ret (Transports.mkToolResponse
            (Transports.ToolSucceeded
               (mkAuditReport (lit "success")
                  (lit "OpenAIの監査レポートを生成しました。") reportPath aiReport))
            false))
    (fun error =>
       ret (Transports.mkToolResponse (Transports.ToolFailed error) true)).

(** A key of blanks, with DeepSeek selected. *)
Definition blankKeyEnv : Env :=
  mkEnv (Some (lit "   ")) (Some (lit "sk-deepseek")) (Some (lit "deepseek"))
        None None None.

End AuditServer.

(* ================================================================== *)
(** ** Facts about strings and about the monad *)
(* ================================================================== *)

Import AuditCommon Observed.

(** The lengths of the literals of a goal, computed. *)
Ltac literal_lengths :=
  repeat match goal with
  | |- context [List.length (lit ?s)] =>
    let n := eval vm_compute in (List.length (lit s)) in
    change (List.length (lit s)) with n
  end.

Lemma jseqb_eq (a b : jsstring) : jseqb a b = true <-> a = b.
Proof.
  revert b; induction a as [|x a IH]; intros [|y b]; simpl; split;
    try congruence; try reflexivity.
  - intros H. apply andb_true_iff in H as [Hx Hr].
    apply N.eqb_eq in Hx. apply IH in Hr. congruence.
  - intros H. injection H as -> ->. rewrite N.eqb_refl. simpl.
    apply IH. reflexivity.
Qed.

Lemma jseqb_refl (a : jsstring) : jseqb a a = true.
Proof. apply jseqb_eq. reflexivity. Qed.

Lemma truthy_or_default (o : option jsstring) :
  truthy_opt o = true -> exists k, o = Some k /\ truthy k = true /\ or_default o [] = k.
Proof.
  destruct o as [k|]; simpl; [|discriminate].
  intros H. exists k. rewrite H. auto.
Qed.

(** A completion call under a ready configuration posts one request and
    reads its answer. *)
Lemma callCompletion_ready (h : Host) (msgs : list Message) (w : World) :
  providerReady (env h) = true ->
  callCompletion h msgs w =
    (mkWorld (sent w ++ [requestFor (env h) msgs]) (written w),
     readCompletion (providerLabel (env h))
       (fetch h (sent w) (requestFor (env h) msgs))).
Proof.
  unfold providerReady, callCompletion, requestFor, providerLabel.
  destruct (jseqb (getAIProvider (env h)) AIProvider_OPENAI).
  - intros H. apply truthy_or_default in H as (k & -> & Hk & ->).
    rewrite Hk. reflexivity.
  - destruct (jseqb (getAIProvider (env h)) AIProvider_DEEPSEEK); [|discriminate].
    intros H. apply truthy_or_default in H as (k & -> & Hk & ->).
    rewrite Hk. reflexivity.
Qed.

(** Under a configuration that is not ready nothing is posted and the
    call throws. *)
Lemma callCompletion_not_ready (h : Host) (msgs : list Message) (w : World) :
  providerReady (env h) = false ->
  exists e, callCompletion h msgs w = (w, Thrown e).
Proof.
  unfold providerReady, callCompletion.
  destruct (jseqb (getAIProvider (env h)) AIProvider_OPENAI).
  - destruct (OPENAI_API_KEY (env h)) as [k|]; simpl.
    + intros ->. eexists; reflexivity.
    + intros _. eexists; reflexivity.
  - destruct (jseqb (getAIProvider (env h)) AIProvider_DEEPSEEK).
    + destruct (DEEPSEEK_API_KEY (env h)) as [k|]; simpl.
      * intros ->. eexists; reflexivity.
      * intros _. eexists; reflexivity.
    + intros _. eexists; reflexivity.
Qed.

Lemma segmentText_read (e : Env) (o : FetchOutcome) :
  segmentText e o =
    match readCompletion (providerLabel e) o with
    | Returned t => t
    | Thrown m => errorMarker m
    end.
Proof. destruct o; reflexivity. Qed.

(** One turn of the loop never throws: it pushes one result. *)
Lemma auditFile_ready (h : Host) (apiKey : jsstring) (inputData : AuditRequest)
    (acc : list FileResult) (entry : jsstring * jsstring) (w : World) :
  providerReady (env h) = true ->
  auditFile h apiKey inputData acc entry w =
    (mkWorld (sent w ++ [fileRequestFor (env h) inputData entry]) (written w),
     Returned (acc ++ [mkFileResult (fst entry)
        (segmentText (env h)
           (fetch h (sent w) (fileRequestFor (env h) inputData entry)))])).
Proof.
  intros Hr. destruct entry as [filePath diffContent].
  unfold auditFile, tryCatch, bind, sendSingleAuditRequest.
  rewrite callCompletion_ready by exact Hr.
  rewrite segmentText_read. unfold fileRequestFor. simpl fst. simpl snd.
  destruct (readCompletion _ _); reflexivity.
Qed.

(** The whole loop: one request and one result per entry, in order. *)
Lemma auditFiles_ready (h : Host) (apiKey : jsstring) (inputData : AuditRequest)
    (entries : JsMap) :
  providerReady (env h) = true ->
  forall (acc : list FileResult) (w : World),
  auditFiles h apiKey inputData entries acc w =
    (mkWorld (sent w ++ fileRequests (env h) inputData entries) (written w),
     Returned (acc ++ fileResultsFrom h inputData (sent w) entries)).
Proof.
  intros Hr. induction entries as [|entry rest IH]; intros acc w; simpl.
  - unfold ret. rewrite !app_nil_r. destruct w; reflexivity.
  - unfold bind. rewrite auditFile_ready by exact Hr.
    rewrite IH. simpl. rewrite <- !app_assoc. reflexivity.
Qed.

(* ================================================================== *)
(** ** The dispatch rule *)
(* ================================================================== *)

(** The condition of the source that keeps the diff whole, as a
    proposition on the number of segments and on the length. *)
Lemma keepWhole_iff (inputData : AuditRequest) :
  keepWhole inputData = true <->
  (map_size (splitDiffByFiles (code_changes inputData)) <= 2)%nat
  \/ (N.of_nat (List.length (code_changes inputData)) < 10000)%N.
Proof.
  unfold keepWhole. rewrite orb_true_iff, Nat.leb_le, N.ltb_lt. reflexivity.
Qed.

Lemma callOpenAIAudit_keyed (h : Host) (inputData : AuditRequest) (w : World) :
  truthy_opt (OPENAI_API_KEY (env h)) = true ->
  callOpenAIAudit h inputData w =
    if keepWhole inputData
    then callCompletion h (auditMessages inputData) w
    else auditPerFile h (or_default (OPENAI_API_KEY (env h)) []) inputData
           (splitDiffByFiles (code_changes inputData)) w.
Proof.
  intros H. apply truthy_or_default in H as (k & Hk & Ht & Hd).
  unfold callOpenAIAudit. rewrite Hd, Hk, Ht. simpl.
  destruct (keepWhole inputData); reflexivity.
Qed.

(** The per-file path under a ready configuration: the requests of the
    files, then the summary call, whose outcome decides the run. *)
Lemma auditPerFile_ready (h : Host) (apiKey : jsstring) (inputData : AuditRequest)
    (fileDiffs : JsMap) (w : World) :
  providerReady (env h) = true ->
  let fileResults := fileResultsFrom h inputData (sent w) fileDiffs in
  let reqs := fileRequests (env h) inputData fileDiffs in
  let summaryReq := requestFor (env h) (summaryMessages inputData fileResults) in
  auditPerFile h apiKey inputData fileDiffs w =
    (mkWorld (sent w ++ reqs ++ [summaryReq]) (written w),
     match readCompletion (providerLabel (env h))
             (fetch h (sent w ++ reqs) summaryReq) with
     | Returned summaryResult => Returned (finalReport summaryResult fileResults)
     | Thrown e => Thrown e
     end).
Proof.
  intros Hr. simpl. unfold auditPerFile, bind.
  rewrite auditFiles_ready by exact Hr.
  rewrite callCompletion_ready by exact Hr. simpl.
  rewrite <- app_assoc.
  destruct (readCompletion _ _); reflexivity.
Qed.

(** C1. With the key of the entry check set and the selected provider
    ready, [callOpenAIAudit] posts exactly one request, the audit of the
    whole diff, if and only if the split has at most 2 segments or the
    diff is shorter than 10,000 code units; otherwise it posts one audit
    request per segment, each for that segment alone and in the order of
    the split, followed by the one summary call of the aggregator.  The
    user message of an audit request is spelled out: it carries the diff
    of the request data inside its [diff] fence, which is the whole diff
    for the one request and the text of the segment for a request of
    the per-file path. *)
Theorem C1_dispatch_rule (h : Host) (inputData : AuditRequest) (w : World) :
  truthy_opt (OPENAI_API_KEY (env h)) = true ->
  providerReady (env h) = true ->
  let fileDiffs := splitDiffByFiles (code_changes inputData) in
  let whole :=
    (map_size fileDiffs <= 2)%nat
    \/ (N.of_nat (List.length (code_changes inputData)) < 10000)%N in
  let posted := sent (fst (callOpenAIAudit h inputData w)) in
  (whole <-> posted = sent w ++ [requestFor (env h) (auditMessages inputData)])
  /\ (~ whole ->
      posted = sent w
        ++ map (fun entry =>
                  requestFor (env h)
                    (auditMessages
                       (mkAuditRequest
                          (request inputData ++ lit " - ファイル: " ++ fst entry)
                          (modification_description inputData
                             ++ lit " - このリクエストはファイル " ++ dquote
                             ++ fst entry ++ dquote
                             ++ lit " のみを対象としています。")
                          (snd entry)
                          (function_list inputData)
                          (Some [fst entry]))))
               fileDiffs
        ++ [requestFor (env h)
              (summaryMessages inputData
                 (fileResultsFrom h inputData (sent w) fileDiffs))])
  /\ (forall r : AuditRequest,
        messages (requestFor (env h) (auditMessages r))
        = [ mkMessage (lit "system") auditSystemPrompt;
            mkMessage (lit "user")
              (nl ++ lit "【リクエスト】:" ++ nl
                ++ request r ++ nl
                ++ nl ++ lit "【修正内容の概要】:" ++ nl
                ++ modification_description r ++ nl
                ++ nl ++ lit "【変更されたファイル】:" ++ nl
                ++ match changed_files r with
                   | Some files =>
                     if truthy (join nl files) then join nl files
                     else lit "（なし）"
                   | None => lit "（なし）"
                   end ++ nl
                ++ nl ++ lit "【function_list.txt の内容】:" ++ nl
                ++ lit "```" ++ nl
                ++ function_list r ++ nl
                ++ lit "```" ++ nl
                ++ nl ++ lit "【コード差分】:" ++ nl
                ++ lit "```diff" ++ nl
                ++ code_changes r ++ nl
                ++ lit "```" ++ nl) ]).
Proof.
  intros Hkey Hr fileDiffs whole posted.
  assert (Htext : forall r : AuditRequest,
            messages (requestFor (env h) (auditMessages r))
            = [ mkMessage (lit "system") auditSystemPrompt;
                mkMessage (lit "user")
                  (nl ++ lit "【リクエスト】:" ++ nl
                ++ request r ++ nl
                ++ nl ++ lit "【修正内容の概要】:" ++ nl
                ++ modification_description r ++ nl
                ++ nl ++ lit "【変更されたファイル】:" ++ nl
                ++ match changed_files r with
                   | Some files =>
                     if truthy (join nl files) then join nl files
                     else lit "（なし）"
                   | None => lit "（なし）"
                   end ++ nl
                ++ nl ++ lit "【function_list.txt の内容】:" ++ nl
                ++ lit "```" ++ nl
                ++ function_list r ++ nl
                ++ lit "```" ++ nl
                ++ nl ++ lit "【コード差分】:" ++ nl
                ++ lit "```diff" ++ nl
                ++ code_changes r ++ nl
                ++ lit "```" ++ nl) ]).
  { intros r. unfold requestFor.
    destruct (jseqb (getAIProvider (env h)) AIProvider_OPENAI);
      cbn [messages]; unfold auditMessages, auditUserPrompt, changedFilesText,
        backticks; destruct (changed_files r); reflexivity. }
  assert (Hw : keepWhole inputData = true <-> whole) by apply keepWhole_iff.
  assert (Hposted : posted =
            if keepWhole inputData
            then sent w ++ [requestFor (env h) (auditMessages inputData)]
            else sent w ++ fileRequests (env h) inputData fileDiffs
                   ++ [requestFor (env h)
                         (summaryMessages inputData
                            (fileResultsFrom h inputData (sent w) fileDiffs))]).
  { unfold posted. rewrite callOpenAIAudit_keyed by exact Hkey.
    destruct (keepWhole inputData).
    - rewrite callCompletion_ready by exact Hr. reflexivity.
    - rewrite auditPerFile_ready by exact Hr. reflexivity. }
  destruct (keepWhole inputData) eqn:Hk.
  - split.
    + split; intros _; [exact Hposted | apply Hw; reflexivity].
    + split; [|exact Htext]. intros Hn. exfalso. apply Hn, Hw. reflexivity.
  - assert (Hnot : ~ whole) by (intros Hq; apply Hw in Hq; discriminate).
    split.
    + split; intros Hq; [contradiction|].
      exfalso. rewrite Hposted in Hq. apply app_inv_head in Hq.
      apply (f_equal (@List.length _)) in Hq.
      rewrite length_app in Hq. unfold fileRequests in Hq.
      rewrite length_map in Hq. simpl in Hq.
      apply Hnot. left. unfold map_size. fold fileDiffs. lia.
    + split; [|exact Htext]. intros _. exact Hposted.
Qed.

(** The two boundary runs of the rule: two segments and 9,999 code units
    go out as one request, whose user message carries the whole diff;
    three segments and 15,000 code units go out as three audit requests,
    one per segment and each with the text of its segment, before the
    summary call. *)
Lemma C1_dispatch_rule_witness :
  let h := hostOf bothKeysEnv steadyFetch in
  let userText :=
    (fun (req desc files fl diff : jsstring) =>
       nl ++ lit "【リクエスト】:" ++ nl ++ req ++ nl
       ++ nl ++ lit "【修正内容の概要】:" ++ nl ++ desc ++ nl
       ++ nl ++ lit "【変更されたファイル】:" ++ nl ++ files ++ nl
       ++ nl ++ lit "【function_list.txt の内容】:" ++ nl
       ++ lit "```" ++ nl ++ fl ++ nl ++ lit "```" ++ nl
       ++ nl ++ lit "【コード差分】:" ++ nl
       ++ lit "```diff" ++ nl ++ diff ++ nl ++ lit "```" ++ nl) in
  (map_size (splitDiffByFiles twoFileDiff) = 2%nat
   /\ N.of_nat (List.length twoFileDiff) = 9999%N
   /\ map messages (sent (fst (callOpenAIAudit h (requestWith twoFileDiff) freshWorld)))
      = [auditMessages (requestWith twoFileDiff)]
   /\ map (fun req => map content (messages req))
        (sent (fst (callOpenAIAudit h (requestWith twoFileDiff) freshWorld)))
      = [[auditSystemPrompt;
          userText (lit "audit") (lit "rename helper") (lit "a.ts")
            (lit "helper") twoFileDiff]])
  /\ (map_size (splitDiffByFiles threeFileDiff) = 3%nat
      /\ N.of_nat (List.length threeFileDiff) = 15000%N
      /\ map (fun req => map content (messages req))
           (firstn 3 (sent (fst (callOpenAIAudit h (requestWith threeFileDiff) freshWorld))))
         = map (fun entry =>
                  [auditSystemPrompt;
                   userText
                     (lit "audit - ファイル: " ++ fst entry)
                     (lit "rename helper - このリクエストはファイル " ++ dquote
                        ++ fst entry ++ dquote ++ lit " のみを対象としています。")
                     (fst entry) (lit "helper") (snd entry)])
             [(lit "a.ts", segmentOf "a.ts" 4975);
              (lit "b.ts", segmentOf "b.ts" 4974);
              (lit "c.ts", segmentOf "c.ts" 4974)]
      /\ List.length (sent (fst (callOpenAIAudit h (requestWith threeFileDiff) freshWorld)))
         = 4%nat).
Proof.
  intros h userText. split.
  - destruct (C1_dispatch_rule h (requestWith twoFileDiff) freshWorld
                eq_refl eq_refl) as [Hone _].
    split; [vm_compute; reflexivity|]. split; [vm_compute; reflexivity|].
    rewrite (proj1 Hone).
    + split; [reflexivity|vm_compute; reflexivity].
    + right. vm_compute. reflexivity.
  - destruct (C1_dispatch_rule h (requestWith threeFileDiff) freshWorld
                eq_refl eq_refl) as [_ [Hmany _]].
    split; [vm_compute; reflexivity|]. split; [vm_compute; reflexivity|].
    rewrite Hmany.
    + split; vm_compute; reflexivity.
    + intros Hw. apply keepWhole_iff in Hw. vm_compute in Hw. discriminate.
Defined.

(* ================================================================== *)
(** ** The empty diff *)
(* ================================================================== *)

(** C5, as stated, fails: on an empty diff the split has no segment, yet
    one completion request is posted and the report is the text the
    provider answers with. *)
Lemma C5_empty_diff_counterexample :
  let run := callOpenAIAudit (hostOf bothKeysEnv steadyFetch) (requestWith [])
               freshWorld in
  code_changes (requestWith []) = []
  /\ splitDiffByFiles (code_changes (requestWith [])) = []
  /\ List.length (sent (fst run)) = 1%nat
  /\ snd run = Returned (lit "LGTM").
Proof. vm_compute. repeat split; reflexivity. Qed.

(** C5, amended. On an empty diff the split has no segment; with the key
    of the entry check set and the selected provider ready, exactly one
    completion request is posted, the audit of the whole (empty) diff,
    and the run ends as that call ends: its completion text is the
    report, with no summary call and no per-file section. *)
Theorem C5_empty_diff_single_request (h : Host) (inputData : AuditRequest)
    (w : World) :
  code_changes inputData = [] ->
  truthy_opt (OPENAI_API_KEY (env h)) = true ->
  providerReady (env h) = true ->
  splitDiffByFiles (code_changes inputData) = []
  /\ callOpenAIAudit h inputData w =
       (mkWorld (sent w ++ [requestFor (env h) (auditMessages inputData)])
                (written w),
        readCompletion (providerLabel (env h))
          (fetch h (sent w) (requestFor (env h) (auditMessages inputData)))).
Proof.
  intros Hempty Hkey Hr. split.
  - rewrite Hempty. reflexivity.
  - rewrite callOpenAIAudit_keyed by exact Hkey.
    unfold keepWhole. rewrite Hempty. simpl.
    apply callCompletion_ready. exact Hr.
Qed.

Lemma C5_empty_diff_single_request_witness :
  let h := hostOf bothKeysEnv steadyFetch in
  splitDiffByFiles (code_changes (requestWith [])) = []
  /\ callOpenAIAudit h (requestWith []) freshWorld =
       (mkWorld [requestFor bothKeysEnv (auditMessages (requestWith []))] [],
        Returned (lit "LGTM")).
Proof.
  intros h.
  exact (C5_empty_diff_single_request h (requestWith []) freshWorld
           eq_refl eq_refl eq_refl).
Defined.

(* ================================================================== *)
(** ** Provider credentials *)
(* ================================================================== *)

(** With OpenAI selected and its key set, a missing DeepSeek key does
    not matter. *)
Lemma openai_ready_without_deepseek_key (e : Env) :
  getAIProvider e = AIProvider_OPENAI ->
  truthy_opt (OPENAI_API_KEY e) = true ->
  providerReady e = true.
Proof.
  intros Hp Hk. unfold providerReady. rewrite Hp, jseqb_refl. exact Hk.
Qed.

(** A selector that names neither provider is fatal for every
    completion call, and so for every audit. *)
Lemma unknown_provider_fatal (h : Host) (inputData : AuditRequest) (w : World) :
  jseqb (getAIProvider (env h)) AIProvider_OPENAI = false ->
  jseqb (getAIProvider (env h)) AIProvider_DEEPSEEK = false ->
  (forall msgs,
     callCompletion h msgs w
     = (w, Thrown (lit "未対応のAIプロバイダです: " ++ getAIProvider (env h))))
  /\ exists e, callOpenAIAudit h inputData w = (w, Thrown e).
Proof.
  intros Ho Hd.
  assert (Hc : forall msgs,
             callCompletion h msgs w
             = (w, Thrown (lit "未対応のAIプロバイダです: " ++ getAIProvider (env h)))).
  { intros msgs. unfold callCompletion. rewrite Ho, Hd. reflexivity. }
  split; [exact Hc|].
  unfold callOpenAIAudit.
  destruct (OPENAI_API_KEY (env h)) as [k|]; [|eexists; reflexivity].
  destruct (truthy k); simpl; [|eexists; reflexivity].
  destruct (keepWhole inputData).
  - eexists. apply Hc.
  - unfold auditPerFile, bind.
    assert (Hloop : forall entries acc,
              exists res, auditFiles h k inputData entries acc w = (w, Returned res)).
    { induction entries as [|[p d] rest IH]; intros acc; simpl.
      - eexists; reflexivity.
      - unfold bind, auditFile, tryCatch, sendSingleAuditRequest.
        rewrite Hc. simpl. apply IH. }
    destruct (Hloop (splitDiffByFiles (code_changes inputData)) []) as [res ->].
    rewrite Hc. eexists; reflexivity.
Qed.

(** Whatever the provider, an audit without the OpenAI key throws at
    its entry and posts nothing. *)
Lemma audit_needs_openai_key (h : Host) (inputData : AuditRequest) (w : World) :
  truthy_opt (OPENAI_API_KEY (env h)) = false ->
  callOpenAIAudit h inputData w = (w, Thrown missingOpenAIKey).
Proof.
  unfold callOpenAIAudit, truthy_opt.
  destruct (OPENAI_API_KEY (env h)) as [k|]; [|reflexivity].
  intros ->. reflexivity.
Qed.

(** C4, at the failing configuration: DeepSeek is selected and its key
    is set, so the completion gateway by itself posts to DeepSeek; the
    audit nevertheless throws at its entry for the missing OpenAI key,
    before any request, and [performAudit] passes that error on. *)
Theorem C4_deepseek_audit_needs_openai_key
    (f : list HttpRequest -> HttpRequest -> FetchOutcome)
    (dir now : jsstring) (refused : jsstring -> option jsstring)
    (inputData : AuditRequest) (msgs : list Message) (w : World) :
  let h := mkHost deepseekOnlyEnv f dir now refused in
  getAIProvider (env h) = AIProvider_DEEPSEEK
  /\ DEEPSEEK_API_KEY (env h) = Some (lit "sk-deepseek")
  /\ OPENAI_API_KEY (env h) = None
  /\ sent (fst (callCompletion h msgs w))
     = sent w ++ [mkHttpRequest (lit "https://api.deepseek.com/v1/chat/completions")
                    (lit "sk-deepseek") (lit "deepseek-chat") msgs 1500]
  /\ callOpenAIAudit h inputData w = (w, Thrown missingOpenAIKey)
  /\ performAudit h inputData w = (w, Thrown missingOpenAIKey).
Proof.
  intros h. repeat split.
Qed.

(* ================================================================== *)
(** ** The per-file path: results, report and summary *)
(* ================================================================== *)

Lemma keepWhole_false_iff (inputData : AuditRequest) :
  keepWhole inputData = false <->
  (2 < map_size (splitDiffByFiles (code_changes inputData)))%nat
  /\ (10000 <= N.of_nat (List.length (code_changes inputData)))%N.
Proof.
  unfold keepWhole. rewrite orb_false_iff, Nat.leb_gt, N.ltb_ge. reflexivity.
Qed.

Lemma fileResultsFrom_files (h : Host) (inputData : AuditRequest) (entries : JsMap) :
  forall history,
  map file (fileResultsFrom h inputData history entries) = map fst entries.
Proof.
  induction entries as [|entry rest IH]; intros history; simpl.
  - reflexivity.
  - rewrite IH. reflexivity.
Qed.

Lemma fileResultsFrom_length (h : Host) (inputData : AuditRequest) (entries : JsMap) :
  forall history,
  List.length (fileResultsFrom h inputData history entries) = List.length entries.
Proof.
  intros history.
  rewrite <- (length_map file), fileResultsFrom_files, length_map. reflexivity.
Qed.

(** The [k]-th result is made from the answer to the [k]-th request,
    sent after the [k] requests before it. *)
Lemma fileResultsFrom_nth (h : Host) (inputData : AuditRequest) (entries : JsMap) :
  forall history k entry,
  nth_error entries k = Some entry ->
  nth_error (fileResultsFrom h inputData history entries) k =
    Some (mkFileResult (fst entry)
            (segmentText (env h)
               (fetch h (history ++ firstn k (fileRequests (env h) inputData entries))
                  (fileRequestFor (env h) inputData entry)))).
Proof.
  induction entries as [|first rest IH]; intros history k entry Hk.
  - destruct k; discriminate.
  - destruct k as [|k]; simpl in *.
    + injection Hk as ->. rewrite app_nil_r. reflexivity.
    + rewrite (IH _ _ _ Hk). rewrite <- app_assoc. reflexivity.
Qed.

Lemma occurs_in_join (sep x : jsstring) (xs : list jsstring) :
  In x xs -> occurs_in x (join sep xs).
Proof.
  induction xs as [|y ys IH]; intros Hin; [contradiction|].
  destruct Hin as [->|Hin].
  - destruct ys as [|z zs].
    + exists [], []. simpl. rewrite app_nil_r. reflexivity.
    + exists [], (sep ++ join sep (z :: zs)). reflexivity.
  - destruct ys as [|z zs]; [contradiction|].
    destruct (IH Hin) as (before & after & Heq).
    exists (y ++ sep ++ before), after.
    change (join sep (y :: z :: zs)) with (y ++ sep ++ join sep (z :: zs)).
    rewrite Heq. rewrite <- !app_assoc. reflexivity.
Qed.

Lemma occurs_in_app_r (t a s : jsstring) :
  occurs_in t s -> occurs_in t (a ++ s).
Proof.
  intros (before & after & ->). exists (a ++ before), after.
  rewrite <- app_assoc. reflexivity.
Qed.

(** The run on the per-file path, under the two conditions on the diff. *)
Lemma callOpenAIAudit_per_file (h : Host) (inputData : AuditRequest) (w : World) :
  truthy_opt (OPENAI_API_KEY (env h)) = true ->
  providerReady (env h) = true ->
  (2 < map_size (splitDiffByFiles (code_changes inputData)))%nat ->
  (10000 <= N.of_nat (List.length (code_changes inputData)))%N ->
  let fileDiffs := splitDiffByFiles (code_changes inputData) in
  let fileResults := fileResultsFrom h inputData (sent w) fileDiffs in
  let reqs := fileRequests (env h) inputData fileDiffs in
  let summaryReq := requestFor (env h) (summaryMessages inputData fileResults) in
  callOpenAIAudit h inputData w =
    (mkWorld (sent w ++ reqs ++ [summaryReq]) (written w),
     match readCompletion (providerLabel (env h))
             (fetch h (sent w ++ reqs) summaryReq) with
     | Returned summaryResult => Returned (finalReport summaryResult fileResults)
     | Thrown e => Thrown e
     end).
Proof.
  intros Hkey Hr Hsize Hlen.
  rewrite callOpenAIAudit_keyed by exact Hkey.
  rewrite (proj2 (keepWhole_false_iff inputData) (conj Hsize Hlen)).
  apply auditPerFile_ready. exact Hr.
Qed.

(** C3. On the per-file path every segment's request is posted, whether
    or not an earlier one failed, and the summary call follows; when
    that call returns, the run returns a report in which every segment
    has its section: under the label of its path stands the completion
    text of its own call, or, when that call failed, the error text made
    from the failure. *)
Theorem C3_segment_failure_isolated (h : Host) (inputData : AuditRequest)
    (w : World) (summary : jsstring) :
  truthy_opt (OPENAI_API_KEY (env h)) = true ->
  providerReady (env h) = true ->
  (2 < map_size (splitDiffByFiles (code_changes inputData)))%nat ->
  (10000 <= N.of_nat (List.length (code_changes inputData)))%N ->
  let fileDiffs := splitDiffByFiles (code_changes inputData) in
  let reqs := fileRequests (env h) inputData fileDiffs in
  let summaryReq :=
    requestFor (env h)
      (summaryMessages inputData (fileResultsFrom h inputData (sent w) fileDiffs)) in
  readCompletion (providerLabel (env h)) (fetch h (sent w ++ reqs) summaryReq)
    = Returned summary ->
  exists report,
    callOpenAIAudit h inputData w =
      (mkWorld (sent w ++ reqs ++ [summaryReq]) (written w), Returned report)
    /\ forall k entry,
         nth_error fileDiffs k = Some entry ->
         let answer :=
           fetch h (sent w ++ firstn k reqs) (fileRequestFor (env h) inputData entry) in
         let text :=
           match answer with
           | OkJson completion => or_default completion []
           | FetchRejected m => lit "エラー: " ++ m
           | NotOk status errText =>
             lit "エラー: " ++ providerLabel (env h) ++ lit " API エラー: "
               ++ show_N status ++ nl ++ errText
           end in
         occurs_in
           (lit "## " ++ fst entry ++ lit " の監査結果:" ++ nl ++ nl ++ text ++ nl)
           report.
Proof.
  intros Hkey Hr Hsize Hlen fileDiffs reqs summaryReq Hsum.
  pose proof (callOpenAIAudit_per_file h inputData w Hkey Hr Hsize Hlen) as Hrun.
  simpl in Hrun. fold fileDiffs in Hrun. fold reqs in Hrun. fold summaryReq in Hrun.
  rewrite Hsum in Hrun.
  eexists. split; [exact Hrun|].
  intros k entry Hk answer text.
  unfold finalReport.
  do 9 apply occurs_in_app_r.
  unfold combinedResults. apply occurs_in_join.
  apply in_map_iff.
  exists (mkFileResult (fst entry) text). split; [reflexivity|].
  apply nth_error_In with (n := k).
  rewrite (fileResultsFrom_nth h inputData fileDiffs (sent w) k Hk).
  reflexivity.
Qed.

(** Three segments, the call of the second fails with an HTTP error: the
    report has the sections of the first and third with their texts and
    the section of the second with the error text. *)
Lemma C3_segment_failure_isolated_witness :
  let h := hostOf bothKeysEnv secondFailsFetch in
  exists report,
    snd (callOpenAIAudit h (requestWith threeFileDiff) freshWorld) = Returned report
    /\ occurs_in (lit "## a.ts の監査結果:" ++ nl ++ nl ++ lit "LGTM" ++ nl) report
    /\ occurs_in
         (lit "## b.ts の監査結果:" ++ nl ++ nl
            ++ lit "エラー: DeepSeek API エラー: 500" ++ nl ++ lit "overloaded" ++ nl)
         report
    /\ occurs_in (lit "## c.ts の監査結果:" ++ nl ++ nl ++ lit "LGTM" ++ nl) report.
Proof.
  intros h.
  assert (Hsize : (2 < map_size (splitDiffByFiles
                                   (code_changes (requestWith threeFileDiff))))%nat).
  { vm_compute. apply le_n. }
  assert (Hlen : (10000 <= N.of_nat (List.length
                                       (code_changes (requestWith threeFileDiff))))%N).
  { vm_compute. discriminate. }
  destruct (C3_segment_failure_isolated h (requestWith threeFileDiff) freshWorld
              (summary := lit "LGTM") eq_refl eq_refl Hsize Hlen)
    as (report & Hrun & Hsec).
  { vm_compute. reflexivity. }
  exists report. split; [rewrite Hrun; reflexivity|].
  pose proof (Hsec 0%nat (lit "a.ts", segmentOf "a.ts" 4975)) as Ha.
  pose proof (Hsec 1%nat (lit "b.ts", segmentOf "b.ts" 4974)) as Hb.
  pose proof (Hsec 2%nat (lit "c.ts", segmentOf "c.ts" 4974)) as Hc.
  repeat split.
  - specialize (Ha ltac:(vm_compute; reflexivity)).
    vm_compute in Ha. vm_compute. exact Ha.
  - specialize (Hb ltac:(vm_compute; reflexivity)).
    vm_compute in Hb. vm_compute. exact Hb.
  - specialize (Hc ltac:(vm_compute; reflexivity)).
    vm_compute in Hc. vm_compute. exact Hc.
Defined.

(** C6. A run of the per-file path that returns a report returns the
    summary section followed by the detailed section; the detailed
    section is the per-file sections joined with the rule [---], one
    section per segment and in the order of the split, each made of the
    label of its path followed by the text of that segment's own call. *)
Theorem C6_report_order (h : Host) (inputData : AuditRequest) (w w' : World)
    (report : jsstring) :
  truthy_opt (OPENAI_API_KEY (env h)) = true ->
  providerReady (env h) = true ->
  (2 < map_size (splitDiffByFiles (code_changes inputData)))%nat ->
  (10000 <= N.of_nat (List.length (code_changes inputData)))%N ->
  callOpenAIAudit h inputData w = (w', Returned report) ->
  let fileDiffs := splitDiffByFiles (code_changes inputData) in
  let reqs := fileRequests (env h) inputData fileDiffs in
  let results := fileResultsFrom h inputData (sent w) fileDiffs in
  exists summary,
    readCompletion (providerLabel (env h))
      (fetch h (sent w ++ reqs)
         (requestFor (env h) (summaryMessages inputData results)))
      = Returned summary
    /\ report =
         lit "# 監査サマリー" ++ nl ++ nl ++ summary ++ nl ++ nl
         ++ lit "# 詳細な監査結果" ++ nl ++ nl
         ++ join (nl ++ lit "---" ++ nl ++ nl)
              (map (fun item =>
                      lit "## " ++ file item ++ lit " の監査結果:" ++ nl ++ nl
                        ++ result item ++ nl)
                 results)
    /\ map file results = map fst fileDiffs
    /\ forall k entry,
         nth_error fileDiffs k = Some entry ->
         nth_error results k =
           Some (mkFileResult (fst entry)
                   (segmentText (env h)
                      (fetch h (sent w ++ firstn k reqs)
                         (fileRequestFor (env h) inputData entry)))).
Proof.
  intros Hkey Hr Hsize Hlen Hrun fileDiffs reqs results.
  rewrite (callOpenAIAudit_per_file h inputData w Hkey Hr Hsize Hlen) in Hrun.
  simpl in Hrun. fold fileDiffs in Hrun. fold reqs in Hrun. fold results in Hrun.
  destruct (readCompletion _ _) as [summary|e] eqn:Hsum in Hrun; [|discriminate].
  injection Hrun as _ <-.
  exists summary. split; [exact Hsum|]. split; [reflexivity|].
  split.
  - apply fileResultsFrom_files.
  - intros k entry Hk. apply fileResultsFrom_nth. exact Hk.
Qed.

Lemma C6_report_order_witness :
  let h := hostOf bothKeysEnv secondFailsFetch in
  exists report,
    snd (callOpenAIAudit h (requestWith threeFileDiff) freshWorld) = Returned report
    /\ report =
         lit "# 監査サマリー" ++ nl ++ nl ++ lit "LGTM" ++ nl ++ nl
         ++ lit "# 詳細な監査結果" ++ nl ++ nl
         ++ lit "## a.ts の監査結果:" ++ nl ++ nl ++ lit "LGTM" ++ nl
         ++ nl ++ lit "---" ++ nl ++ nl
         ++ lit "## b.ts の監査結果:" ++ nl ++ nl
         ++ lit "エラー: DeepSeek API エラー: 500" ++ nl ++ lit "overloaded" ++ nl
         ++ nl ++ lit "---" ++ nl ++ nl
         ++ lit "## c.ts の監査結果:" ++ nl ++ nl ++ lit "LGTM" ++ nl.
Proof.
  intros h.
  destruct (callOpenAIAudit h (requestWith threeFileDiff) freshWorld)
    as [w' [report|e]] eqn:Hrun.
  - exists report. split; [reflexivity|].
    assert (Hsize : (2 < map_size (splitDiffByFiles
                                     (code_changes (requestWith threeFileDiff))))%nat).
    { vm_compute. apply le_n. }
    assert (Hlen : (10000 <= N.of_nat (List.length
                                         (code_changes (requestWith threeFileDiff))))%N).
    { vm_compute. discriminate. }
    destruct (C6_report_order h (requestWith threeFileDiff) freshWorld
                eq_refl eq_refl Hsize Hlen Hrun) as (summary & Hsum & Hrep & _).
    vm_compute in Hsum. injection Hsum as <-.
    rewrite Hrep. vm_compute. reflexivity.
  - exfalso. vm_compute in Hrun. discriminate.
Defined.

(** C10. On the per-file path, when the summary call fails the audit
    fails with that error, whatever the calls of the segments returned:
    [callOpenAIAudit] throws after all the requests were posted, nothing
    of the results is returned, [performAudit] throws the same error and
    the set of written files is as it was. *)
Theorem C10_summary_failure_fails_audit (h : Host) (inputData : AuditRequest)
    (w : World) (e : jsstring) :
  truthy_opt (OPENAI_API_KEY (env h)) = true ->
  providerReady (env h) = true ->
  (2 < map_size (splitDiffByFiles (code_changes inputData)))%nat ->
  (10000 <= N.of_nat (List.length (code_changes inputData)))%N ->
  let fileDiffs := splitDiffByFiles (code_changes inputData) in
  let reqs := fileRequests (env h) inputData fileDiffs in
  let results := fileResultsFrom h inputData (sent w) fileDiffs in
  let summaryReq := requestFor (env h) (summaryMessages inputData results) in
  readCompletion (providerLabel (env h)) (fetch h (sent w ++ reqs) summaryReq)
    = Thrown e ->
  callOpenAIAudit h inputData w
    = (mkWorld (sent w ++ reqs ++ [summaryReq]) (written w), Thrown e)
  /\ performAudit h inputData w
     = (mkWorld (sent w ++ reqs ++ [summaryReq]) (written w), Thrown e).
Proof.
  intros Hkey Hr Hsize Hlen fileDiffs reqs results summaryReq Hsum.
  pose proof (callOpenAIAudit_per_file h inputData w Hkey Hr Hsize Hlen) as Hrun.
  simpl in Hrun. fold fileDiffs in Hrun. fold reqs in Hrun.
  fold results in Hrun. fold summaryReq in Hrun.
  rewrite Hsum in Hrun. split; [exact Hrun|].
  unfold performAudit, tryCatch, bind. rewrite Hrun. reflexivity.
Qed.

(** Three segments whose calls all succeed, then a summary call that
    fails: the audit throws the error of the summary call and no report
    is written. *)
Lemma C10_summary_failure_fails_audit_witness :
  let h := hostOf bothKeysEnv fourthFailsFetch in
  let run := performAudit h (requestWith threeFileDiff) freshWorld in
  map result (fileResultsFrom h (requestWith threeFileDiff) []
                (splitDiffByFiles threeFileDiff))
    = [lit "LGTM"; lit "LGTM"; lit "LGTM"]
  /\ snd run = Thrown (lit "DeepSeek API エラー: 503" ++ nl ++ lit "unavailable")
  /\ written (fst run) = []
  /\ List.length (sent (fst run)) = 4%nat.
Proof.
  intros h run.
  assert (Hsize : (2 < map_size (splitDiffByFiles
                                   (code_changes (requestWith threeFileDiff))))%nat).
  { vm_compute. apply le_n. }
  assert (Hlen : (10000 <= N.of_nat (List.length
                                       (code_changes (requestWith threeFileDiff))))%N).
  { vm_compute. discriminate. }
  destruct (C10_summary_failure_fails_audit h (requestWith threeFileDiff) freshWorld
              (e := lit "DeepSeek API エラー: 503" ++ nl ++ lit "unavailable")
              eq_refl eq_refl Hsize Hlen) as [_ Hperform].
  { vm_compute. reflexivity. }
  split; [vm_compute; reflexivity|].
  unfold run. rewrite Hperform. repeat split.
Defined.

(* ================================================================== *)
(** ** The summary prompt *)
(* ================================================================== *)

Lemma summaryLine_length (item : FileResult) :
  List.length (summaryLine item) <= List.length (file item) + 107.
Proof.
  unfold summaryLine, substring0. rewrite !length_app, length_firstn.
  literal_lengths. lia.
Qed.

Lemma join_nl_length (xs : list jsstring) :
  List.length (join nl xs) <= list_sum (map (fun x => List.length x + 1) xs).
Proof.
  induction xs as [|x xs IH]; [apply le_n|].
  destruct xs as [|y ys].
  - simpl. lia.
  - change (join nl (x :: y :: ys)) with (x ++ nl ++ join nl (y :: ys)).
    rewrite !length_app. change (List.length nl) with 1.
    change (list_sum (map (fun x0 => List.length x0 + 1) (x :: y :: ys)))
      with (List.length x + 1
            + list_sum (map (fun x0 => List.length x0 + 1) (y :: ys))).
    lia.
Qed.

Lemma summaryLines_length (results : list FileResult) :
  List.length (join nl (map summaryLine results))
  <= list_sum (map (fun path => List.length path + 108) (map file results)).
Proof.
  eapply Nat.le_trans; [apply join_nl_length|].
  induction results as [|item rest IH]; [apply le_n|].
  unfold list_sum in *. cbn [map fold_right].
  pose proof (summaryLine_length item). lia.
Qed.

Lemma summaryPrompt_length (inputData : AuditRequest) (results : list FileResult) :
  List.length (summaryPrompt inputData results)
  = 120 + List.length (modification_description inputData)
    + List.length (join nl (map summaryLine results)).
Proof.
  unfold summaryPrompt. rewrite !length_app.
  literal_lengths. change (List.length nl) with 1. lia.
Qed.

(** C8. On the per-file path the last request posted is the one summary
    call; its user message holds the modification description and, per
    segment and in order, a line with the path and the first 100 code
    units of that segment's text, nothing more of it; so its length stays
    under a bound that depends on the description and the paths only. *)
Theorem C8_summary_prompt_truncated (h : Host) (inputData : AuditRequest)
    (w : World) :
  truthy_opt (OPENAI_API_KEY (env h)) = true ->
  providerReady (env h) = true ->
  (2 < map_size (splitDiffByFiles (code_changes inputData)))%nat ->
  (10000 <= N.of_nat (List.length (code_changes inputData)))%N ->
  let fileDiffs := splitDiffByFiles (code_changes inputData) in
  let reqs := fileRequests (env h) inputData fileDiffs in
  let results := fileResultsFrom h inputData (sent w) fileDiffs in
  exists summaryReq prompt,
    sent (fst (callOpenAIAudit h inputData w)) = sent w ++ reqs ++ [summaryReq]
    /\ map content (messages summaryReq)
       = [lit "あなたはコード監査の専門家です。複数のファイル監査結果を統合して、全体の評価を提供してください。";
          prompt]
    /\ prompt =
         nl ++ lit "以下は、コード変更の各ファイルに対する監査結果です。これらの結果を総合的に分析し、変更全体に対する簡潔なサマリーを作成してください。" ++ nl
         ++ lit "問題点があれば箇条書きで指摘し、全体の評価を付けてください。" ++ nl
         ++ nl ++ lit "変更の概要: " ++ modification_description inputData ++ nl
         ++ nl ++ lit "ファイル監査結果:" ++ nl
         ++ join nl
              (map (fun item =>
                      lit "- " ++ file item ++ lit ": "
                        ++ firstn 100 (result item) ++ lit "...")
                 results)
         ++ nl
    /\ map file results = map fst fileDiffs
    /\ (forall k entry,
          nth_error fileDiffs k = Some entry ->
          nth_error results k =
            Some (mkFileResult (fst entry)
                    (segmentText (env h)
                       (fetch h (sent w ++ firstn k reqs)
                          (fileRequestFor (env h) inputData entry)))))
    /\ List.length prompt
       <= 120 + List.length (modification_description inputData)
          + list_sum (map (fun entry => List.length (fst entry) + 108) fileDiffs).
Proof.
  intros Hkey Hr Hsize Hlen fileDiffs reqs results.
  exists (requestFor (env h) (summaryMessages inputData results)),
         (summaryPrompt inputData results).
  split.
  { rewrite (callOpenAIAudit_per_file h inputData w Hkey Hr Hsize Hlen).
    reflexivity. }
  split.
  { unfold requestFor.
    destruct (jseqb (getAIProvider (env h)) AIProvider_OPENAI); reflexivity. }
  split; [reflexivity|].
  split; [apply fileResultsFrom_files|].
  split.
  { intros k entry Hk. apply fileResultsFrom_nth. exact Hk. }
  rewrite summaryPrompt_length.
  pose proof (summaryLines_length results) as Hlines.
  unfold results in Hlines at 2. rewrite fileResultsFrom_files in Hlines.
  rewrite map_map in Hlines. fold fileDiffs in Hlines. fold results in Hlines.
  apply Nat.add_le_mono_l. exact Hlines.
Qed.

(** A run of three segments whose texts are 250 code units long: each
    line of the summary prompt carries 100 of them. *)
Lemma C8_summary_prompt_truncated_witness :
  let h := hostOf bothKeysEnv verboseFetch in
  exists summaryReq prompt,
    last (sent (fst (callOpenAIAudit h (requestWith threeFileDiff) freshWorld)))
         summaryReq = summaryReq
    /\ map content (messages summaryReq)
       = [lit "あなたはコード監査の専門家です。複数のファイル監査結果を統合して、全体の評価を提供してください。";
          prompt]
    /\ prompt =
         nl ++ lit "以下は、コード変更の各ファイルに対する監査結果です。これらの結果を総合的に分析し、変更全体に対する簡潔なサマリーを作成してください。" ++ nl
         ++ lit "問題点があれば箇条書きで指摘し、全体の評価を付けてください。" ++ nl
         ++ nl ++ lit "変更の概要: rename helper" ++ nl
         ++ nl ++ lit "ファイル監査結果:" ++ nl
         ++ lit "- a.ts: " ++ repeat 65%N 100 ++ lit "..." ++ nl
         ++ lit "- b.ts: " ++ repeat 65%N 100 ++ lit "..." ++ nl
         ++ lit "- c.ts: " ++ repeat 65%N 100 ++ lit "..." ++ nl
    /\ List.length prompt <= 120 + 13 + (112 + 112 + 112).
Proof.
  intros h.
  assert (Hsize : (2 < map_size (splitDiffByFiles
                                   (code_changes (requestWith threeFileDiff))))%nat).
  { vm_compute. apply le_n. }
  assert (Hlen : (10000 <= N.of_nat (List.length
                                       (code_changes (requestWith threeFileDiff))))%N).
  { vm_compute. discriminate. }
  destruct (C8_summary_prompt_truncated h (requestWith threeFileDiff) freshWorld
              eq_refl eq_refl Hsize Hlen)
    as (summaryReq & prompt & Hsent & Hmsgs & Hprompt & _ & _ & Hbound).
  exists summaryReq, prompt.
  split; [rewrite Hsent, app_assoc; apply last_last|].
  split; [exact Hmsgs|].
  split.
  - rewrite Hprompt. vm_compute. reflexivity.
  - vm_compute in Hbound. vm_compute. exact Hbound.
Defined.

(* ================================================================== *)
(** ** Splitting a diff and putting it together again *)
(* ================================================================== *)

Lemma split_not_nil (sep : N) (s : jsstring) : split sep s <> [].
Proof.
  destruct s as [|c s]; simpl; [discriminate|].
  destruct (N.eqb c sep); [discriminate|].
  destruct (split sep s); discriminate.
Qed.

Lemma join_cons (sep a : jsstring) (xs : list jsstring) :
  xs <> [] -> join sep (a :: xs) = a ++ sep ++ join sep xs.
Proof. destruct xs; [contradiction|reflexivity]. Qed.

(** [s.split("\n").join("\n")] is [s]. *)
Lemma join_split (s : jsstring) : join nl (split 10 s) = s.
Proof.
  induction s as [|c s IH]; [reflexivity|].
  simpl split. destruct (N.eqb c 10) eqn:Hc.
  - apply N.eqb_eq in Hc. subst c.
    rewrite join_cons by apply split_not_nil. rewrite IH. reflexivity.
  - pose proof (split_not_nil 10 s) as Hne.
    destruct (split 10 s) as [|l ls]; [contradiction|].
    destruct ls as [|l' ls'].
    + simpl in *. congruence.
    + rewrite join_cons by discriminate.
      rewrite join_cons in IH by discriminate.
      rewrite <- IH. reflexivity.
Qed.

Lemma join_snoc (sep x : jsstring) (xs : list jsstring) :
  xs <> [] -> join sep (xs ++ [x]) = join sep xs ++ sep ++ x.
Proof.
  induction xs as [|a xs IH]; intros Hne; [contradiction|].
  destruct xs as [|b xs'].
  - reflexivity.
  - change ((a :: b :: xs') ++ [x]) with (a :: ((b :: xs') ++ [x])).
    rewrite join_cons by (simpl; discriminate).
    rewrite IH by discriminate.
    change (join sep (a :: b :: xs')) with (a ++ sep ++ join sep (b :: xs')).
    rewrite <- !app_assoc. reflexivity.
Qed.

Lemma join_last_app (sep x y : jsstring) (xs : list jsstring) :
  join sep (xs ++ [x ++ y]) = join sep (xs ++ [x]) ++ y.
Proof.
  destruct xs as [|a xs']; [reflexivity|].
  rewrite !join_snoc by discriminate.
  rewrite <- !app_assoc. reflexivity.
Qed.

Lemma map_set_fresh (k v : jsstring) (m : JsMap) :
  ~ In k (map fst m) -> map_set k v m = m ++ [(k, v)].
Proof.
  induction m as [|[k' v'] m IH]; intros Hnin; [reflexivity|].
  simpl. destruct (jseqb k' k) eqn:Hk.
  - apply jseqb_eq in Hk. subst k'. exfalso. apply Hnin. left. reflexivity.
  - rewrite IH; [reflexivity|]. intros Hin. apply Hnin. right. exact Hin.
Qed.

Lemma matchFileRegex_truthy (line path : jsstring) :
  matchFileRegex line = Some path -> truthy path = true.
Proof.
  unfold matchFileRegex.
  destruct (starts_with _ line); [|discriminate].
  destruct (skipn _ line) as [|c rest]; [discriminate|].
  destruct (no_terminator (c :: rest)); [|discriminate].
  destruct (group1_tail rest); [|discriminate].
  intros H. injection H as <-. reflexivity.
Qed.

Lemma headerPaths_app (xs ys : list jsstring) :
  headerPaths (xs ++ ys) = headerPaths xs ++ headerPaths ys.
Proof.
  induction xs as [|x xs IH]; [reflexivity|].
  simpl. destruct (matchFileRegex x); rewrite IH; reflexivity.
Qed.

Lemma NoDup_snoc_fresh (A : Type) (xs : list A) (x : A) :
  NoDup (xs ++ [x]) -> ~ In x xs.
Proof.
  intros Hnd Hin. apply NoDup_remove_2 in Hnd.
  apply Hnd. rewrite app_nil_r. exact Hin.
Qed.

(** What [saveCurrent] does in a state of the invariant whose headers
    are all different. *)
Lemma saveCurrent_inv (st : SplitState) (processed : list jsstring) :
  splitInv st processed ->
  NoDup (headerPaths processed) ->
  saveCurrent st
  = fileMap st ++ [(currentFile st, join nl (currentContent st))].
Proof.
  intros (Ht & Hc & Hkeys & _) Hnd. unfold saveCurrent. rewrite Ht.
  destruct (currentContent st) as [|l ls] eqn:Hcc; [contradiction|].
  simpl. apply map_set_fresh.
  rewrite <- Hkeys in Hnd. apply NoDup_snoc_fresh. exact Hnd.
Qed.

(** One line keeps the invariant. *)
Lemma splitStep_inv (st : SplitState) (processed : list jsstring)
    (line : jsstring) :
  processed <> [] ->
  splitInv st processed ->
  NoDup (headerPaths (processed ++ [line])) ->
  splitInv (splitStep st line) (processed ++ [line]).
Proof.
  intros Hne Hinv Hnd.
  assert (Hpaths : headerPaths (processed ++ [line])
                   = headerPaths processed
                     ++ match matchFileRegex line with
                        | Some path => [path]
                        | None => []
                        end).
  { rewrite headerPaths_app. simpl. destruct (matchFileRegex line); reflexivity. }
  unfold splitStep.
  destruct (matchFileRegex line) as [path|] eqn:Hm.
  - assert (Hnd' : NoDup (headerPaths processed)).
    { rewrite Hpaths in Hnd. apply NoDup_remove_1 in Hnd.
      rewrite app_nil_r in Hnd. exact Hnd. }
    rewrite (saveCurrent_inv Hinv Hnd').
    destruct Hinv as (Ht & Hc & Hkeys & Htext).
    unfold splitInv. rewrite Hpaths. simpl.
    split; [eapply matchFileRegex_truthy; exact Hm|].
    split; [discriminate|].
    split.
    + rewrite map_app, <- Hkeys. reflexivity.
    + rewrite map_app. simpl map.
      rewrite join_snoc.
      * rewrite Htext. rewrite join_snoc by exact Hne. reflexivity.
      * destruct (map snd (fileMap st)); discriminate.
  - destruct Hinv as (Ht & Hc & Hkeys & Htext). rewrite Ht.
    unfold splitInv. rewrite Hpaths. simpl.
    split; [exact Ht|].
    split; [destruct (currentContent st); discriminate|].
    split.
    + rewrite app_nil_r. exact Hkeys.
    + rewrite (@join_snoc nl line (currentContent st) Hc).
      rewrite join_last_app, Htext.
      rewrite join_snoc by exact Hne. reflexivity.
Qed.

(** The loop keeps the invariant. *)
Lemma fold_splitStep_inv (rest : list jsstring) :
  forall (st : SplitState) (processed : list jsstring),
  processed <> [] ->
  splitInv st processed ->
  NoDup (headerPaths (processed ++ rest)) ->
  splitInv (fold_left splitStep rest st) (processed ++ rest).
Proof.
  induction rest as [|line rest IH]; intros st processed Hne Hinv Hnd.
  - rewrite app_nil_r. exact Hinv.
  - simpl fold_left.
    replace (processed ++ line :: rest) with ((processed ++ [line]) ++ rest)
      in * by (rewrite <- app_assoc; reflexivity).
    apply IH.
    + destruct processed; discriminate.
    + apply splitStep_inv; [exact Hne|exact Hinv|].
      rewrite headerPaths_app in Hnd.
      apply NoDup_app_remove_r in Hnd. exact Hnd.
    + exact Hnd.
Qed.

(** C7, as stated, fails: the texts of two segments, put end to end, are
    not the diff, for the line feed between the segments is lost.  And
    with line feeds put back between the texts, a diff with a line ahead
    of its first header, or with two headers for one path, is still not
    rebuilt. *)
Lemma C7_concatenation_counterexample :
  List.concat (map snd (splitDiffByFiles smallTwoFileDiff))
    = lit "diff --git a/x b/x" ++ nl ++ lit "+1"
      ++ lit "diff --git a/y b/y" ++ nl ++ lit "+2"
  /\ List.concat (map snd (splitDiffByFiles smallTwoFileDiff)) <> smallTwoFileDiff
  /\ join nl (map snd (splitDiffByFiles preambleDiff)) <> preambleDiff
  /\ join nl (map snd (splitDiffByFiles repeatedPathDiff)) <> repeatedPathDiff.
Proof.
  split; [vm_compute; reflexivity|].
  repeat split; vm_compute; discriminate.
Qed.

(** C7, amended. For a diff whose first line is a file header and whose
    headers name pairwise different paths, the split has one segment per
    header, in order, and the texts of the segments joined with a line
    feed between consecutive ones are the diff, code unit for code
    unit. *)
Theorem C7_join_reconstructs (d : jsstring) :
  (exists path, matchFileRegex (hd [] (split 10 d)) = Some path) ->
  NoDup (headerPaths (split 10 d)) ->
  map fst (splitDiffByFiles d) = headerPaths (split 10 d)
  /\ join nl (map snd (splitDiffByFiles d)) = d.
Proof.
  intros [path Hhead] Hnd.
  assert (Htruthy : truthy d = true).
  { destruct d; [discriminate Hhead|reflexivity]. }
  unfold splitDiffByFiles. rewrite Htruthy. simpl negb. cbv iota.
  pose proof (join_split d) as Hjoin.
  destruct (split 10 d) as [|line0 rest] eqn:Hsplit.
  { exfalso. exact (split_not_nil 10 d Hsplit). }
  simpl hd in Hhead. simpl fold_left.
  assert (Hinit : splitInv (splitStep (mkSplitState [] [] []) line0) [line0]).
  { unfold splitStep. rewrite Hhead. unfold splitInv, saveCurrent. simpl.
    rewrite Hhead. simpl.
    split; [eapply matchFileRegex_truthy; exact Hhead|].
    split; [discriminate|]. split; reflexivity. }
  pose proof (@fold_splitStep_inv rest _ [line0] ltac:(discriminate) Hinit Hnd)
    as Hfinal.
  change ([line0] ++ rest) with (line0 :: rest) in Hfinal.
  rewrite (saveCurrent_inv Hfinal Hnd).
  destruct Hfinal as (_ & _ & Hkeys & Htext).
  rewrite !map_app. simpl map. split.
  - exact Hkeys.
  - rewrite Htext. exact Hjoin.
Qed.

Lemma C7_join_reconstructs_witness :
  map fst (splitDiffByFiles smallTwoFileDiff) = [lit "x"; lit "y"]
  /\ join nl (map snd (splitDiffByFiles smallTwoFileDiff)) = smallTwoFileDiff.
Proof.
  assert (Hhead : exists path,
             matchFileRegex (hd [] (split 10 smallTwoFileDiff)) = Some path).
  { exists (lit "x"). vm_compute. reflexivity. }
  assert (Hnd : NoDup (headerPaths (split 10 smallTwoFileDiff))).
  { vm_compute. repeat constructor; simpl; intuition discriminate. }
  destruct (C7_join_reconstructs smallTwoFileDiff Hhead Hnd) as [Hkeys Htext].
  split; [rewrite Hkeys; vm_compute; reflexivity | exact Htext].
Defined.

(* ================================================================== *)
(** ** The resolver when the version-control query fails *)
(* ================================================================== *)

(** C9, as stated, fails for the diff text: when every query fails,
    [getLatestChanges] returns a text that is not empty. *)
Lemma C9_placeholder_counterexample :
  AutoAudit.getLatestChanges gitMissing = lit "// 変更内容を取得できませんでした"
  /\ AutoAudit.getLatestChanges gitMissing <> [].
Proof. split; [reflexivity|vm_compute; discriminate]. Qed.

(** C9, amended. When every version-control query fails, nothing
    aborts: [getLatestChanges] returns its fixed one-line comment text in
    place of a diff, [getChangedFiles] returns the empty list, and in the
    request builder, where a failed query prints nothing, the diff text
    is empty. *)
Theorem C9_resolver_degrades (git : AutoAudit.Git)
    (git_stdout : PreAudit.GitQuery -> PreAudit.shstring) :
  (forall q, git q = None) ->
  (forall q, git_stdout q = []) ->
  AutoAudit.getLatestChanges git = lit "// 変更内容を取得できませんでした"
  /\ AutoAudit.getChangedFiles git = []
  /\ PreAudit.acquireDiff git_stdout = [].
Proof.
  intros Hgit Hout.
  unfold AutoAudit.getLatestChanges, AutoAudit.getChangedFiles, PreAudit.acquireDiff.
  rewrite !Hgit, !Hout. repeat split.
Qed.

Lemma C9_resolver_degrades_witness :
  AutoAudit.getLatestChanges gitMissing = lit "// 変更内容を取得できませんでした"
  /\ AutoAudit.getChangedFiles gitMissing = []
  /\ PreAudit.acquireDiff gitSilent = [].
Proof.
  apply C9_resolver_degrades; intros q; reflexivity.
Defined.

(* ================================================================== *)
(** ** The diff scoper of the request builder *)
(* ================================================================== *)

Import PreAudit.

Lemma starts_with_app (p s : list N) :
  starts_with p s = true -> s = p ++ skipn (List.length p) s.
Proof.
  revert s; induction p as [|x p IH]; intros s H; [reflexivity|].
  destruct s as [|y s]; [discriminate|].
  simpl in H. apply andb_true_iff in H as [Hx Hp].
  apply N.eqb_eq in Hx. subst y. simpl. f_equal. apply IH. exact Hp.
Qed.

(** The field being read when the record goes on is the start of the
    next field. *)
Lemma fields_from_head (s : shstring) :
  forall c cur, exists f fs, fields_from (c :: cur) s = (c :: cur ++ f) :: fs.
Proof.
  induction s as [|x s IH]; intros c cur; simpl.
  - exists [], []. rewrite app_nil_r. reflexivity.
  - destruct (awk_blank x).
    + exists [], (fields_from [] s). rewrite app_nil_r. reflexivity.
    + destruct (IH c (cur ++ [x])) as (f & fs & Heq).
      exists (x :: f), fs. rewrite Heq. rewrite <- app_assoc. reflexivity.
Qed.

(** On a header record the second field is [--git] and the third
    starts with [a/]: neither test of the program can hold. *)
Lemma awk_tests_never_hold (file record : shstring) :
  isGitHeader record = true ->
  jseqb (field 3 record) (sh "b/" ++ file)
  || jseqb (field 2 record) (sh "a/" ++ file) = false.
Proof.
  intros H. apply starts_with_app in H.
  set (rest := skipn _ record) in H. rewrite H. clear H.
  unfold field. change (sh "diff --git a/" ++ rest)
    with (100 :: 105 :: 102 :: 102 :: 32 :: 45 :: 45 :: 103 :: 105 :: 116 :: 32
            :: 97 :: 47 :: rest)%N.
  cbn -[nth Nat.sub].
  destruct (fields_from_head rest 97%N [47%N]) as (f & fs & ->).
  reflexivity.
Qed.

(** So the extraction of section 7 selects nothing. *)
Lemma awkStep_idle (file record : shstring) (file_diff : shstring) :
  awkStep file (false, file_diff) record = (false, file_diff).
Proof.
  unfold awkStep. destruct (isGitHeader record) eqn:Hh.
  - rewrite awk_tests_never_hold by exact Hh. reflexivity.
  - reflexivity.
Qed.

Lemma awkExtract_empty (file original_diff : shstring) :
  awkExtract file original_diff = [].
Proof.
  unfold awkExtract.
  assert (H : forall records,
             fold_left (awkStep file) records (false, []) = (false, [])).
  { induction records as [|r rs IH]; [reflexivity|].
    cbn [fold_left]. rewrite awkStep_idle. exact IH. }
  rewrite H. reflexivity.
Qed.

(** Section 7 leaves the diff as it finds it. *)
Lemma restrictDiff_unchanged (combinedFiles codeChanges0 : shstring) :
  restrictDiff combinedFiles codeChanges0 = codeChanges0.
Proof.
  unfold restrictDiff. destruct (nonempty combinedFiles); [|reflexivity].
  assert (H : forall files,
             fold_left
               (fun acc file =>
                  if nonempty file then
                    let file_diff := awkExtract file codeChanges0 in
                    if nonempty file_diff then acc ++ file_diff else acc
                  else acc) files [] = []).
  { induction files as [|f fs IH]; [reflexivity|].
    cbn [fold_left]. rewrite awkExtract_empty. cbn [nonempty truthy].
    destruct (nonempty f); exact IH. }
  rewrite H. reflexivity.
Qed.

(** A pattern without a dot matches itself only. *)
Lemma dot_match_exact (pattern line : shstring) :
  existsb (N.eqb 46) pattern = false ->
  dot_match pattern line = true -> pattern = line.
Proof.
  revert line; induction pattern as [|p pattern IH]; intros [|c line] Hdot Hm;
    cbn [existsb dot_match] in *; try discriminate; [reflexivity|].
  apply orb_false_iff in Hdot as [Hp Hrest].
  apply andb_true_iff in Hm as [Hpc Hm].
  rewrite N.eqb_sym in Hp. rewrite Hp in Hpc.
  apply N.eqb_eq in Hpc. subst c. f_equal. apply IH; assumption.
Qed.

(** For a path without a dot the membership test is membership among
    the lines that [echo] prints. *)
Lemma listed_exact (combinedFiles path : shstring) :
  existsb (N.eqb 46) path = false ->
  listed combinedFiles path = Some true ->
  In path (echo_lines combinedFiles).
Proof.
  unfold listed. intros Hdot.
  destruct (existsb bre_unmodelled path || negb (ascii_text path)
            || negb (ascii_text combinedFiles)); [discriminate|].
  intros H. injection H as H. apply existsb_exists in H as (l & Hin & Hm).
  apply dot_match_exact in Hm; [subst l; exact Hin | exact Hdot].
Qed.

(** What the second loop does guarantee: the diff it builds is made of
    lines of the diff it reads, and every header line it keeps passed
    the membership test. *)
Lemma stripLines_keeps_listed (combinedFiles : shstring) (lines : list shstring) :
  forall (filtered_diff : shstring) (include_lines : bool) (out : shstring),
  stripLines combinedFiles lines filtered_diff include_lines = Some out ->
  exists kept,
    out = filtered_diff ++ unlines kept
    /\ incl kept lines
    /\ Forall (fun line =>
                 forall path, bashHeaderPath line = Some path ->
                              listed combinedFiles path = Some true) kept.
Proof.
  induction lines as [|line rest IH]; intros acc inc out H; cbn [stripLines] in H.
  - injection H as <-. exists []. unfold unlines. simpl. rewrite app_nil_r.
    split; [reflexivity|]. split; [apply incl_nil_l|constructor].
  - destruct (ascii_text line); [|discriminate].
    destruct (bashHeaderPath line) as [path|] eqn:Hh.
    + destruct (listed combinedFiles path) as [[|]|] eqn:Hl; [| |discriminate].
      * apply IH in H as (kept & -> & Hincl & Hall).
        exists (line :: kept). unfold unlines. simpl. rewrite <- !app_assoc.
        split; [reflexivity|].
        split; [apply incl_cons; [left; reflexivity | apply incl_tl; exact Hincl]|].
        constructor; [|exact Hall].
        intros path' Hp. rewrite Hh in Hp. injection Hp as <-. exact Hl.
      * apply IH in H as (kept & -> & Hincl & Hall).
        exists kept. split; [reflexivity|].
        split; [apply incl_tl; exact Hincl | exact Hall].
    + destruct inc.
      * apply IH in H as (kept & -> & Hincl & Hall).
        exists (line :: kept). unfold unlines. simpl. rewrite <- !app_assoc.
        split; [reflexivity|].
        split; [apply incl_cons; [left; reflexivity | apply incl_tl; exact Hincl]|].
        constructor; [|exact Hall].
        intros path' Hp. rewrite Hh in Hp. discriminate.
      * apply IH in H as (kept & -> & Hincl & Hall).
        exists kept. split; [reflexivity|].
        split; [apply incl_tl; exact Hincl | exact Hall].
Qed.

(** The scenario of the scoper: with only [a.ts] listed, the segment of
    [b.ts] is counted as one discrepancy and taken out. *)
Lemma scoper_strips_unlisted_file :
  scopeDiff (sh "a.ts") scopedScenarioDiff
  = Some (mkVerified (sh "diff --git a/a.ts b/a.ts" ++ nl ++ sh "+x" ++ nl) 2 1).
Proof. vm_compute. reflexivity. Qed.

(** C2, at the failing input: only [a-ts] is listed, the diff has a
    segment for [a.ts] and one for [a-ts].  The path [a.ts], read as a
    pattern, matches the listed [a-ts]; so no discrepancy is counted and
    the diff leaves the scoper whole, with the segment of [a.ts], a path
    that is not listed. *)
Theorem C2_dotted_path_leaks :
  ~ In (sh "a.ts") (lines_of (sh "a-ts"))
  /\ map bashHeaderPath (filter isDiffGit (lines_of dottedPathDiff))
     = [Some (sh "a.ts"); Some (sh "a-ts")]
  /\ listed (sh "a-ts") (sh "a.ts") = Some true
  /\ scopeDiff (sh "a-ts") dottedPathDiff = Some (mkVerified dottedPathDiff 2 0).
Proof.
  split.
  - vm_compute. intros [H|[]]. discriminate H.
  - repeat split; vm_compute; reflexivity.
Qed.

(* ================================================================== *)
(** ** More on the split: keys, segments and the header pattern *)
(* ================================================================== *)

Import Invariants.

Lemma map_set_keys (k v : jsstring) (m : JsMap) (p : jsstring) :
  In p (map fst (map_set k v m)) <-> In p (map fst m) \/ p = k.
Proof.
  induction m as [|[k' v'] m IH]; simpl.
  - intuition.
  - destruct (jseqb k' k) eqn:Hk; simpl.
    + apply jseqb_eq in Hk. subst k'. intuition.
    + rewrite IH. intuition.
Qed.

Lemma map_set_NoDup (k v : jsstring) (m : JsMap) :
  NoDup (map fst m) -> NoDup (map fst (map_set k v m)).
Proof.
  induction m as [|[k' v'] m IH]; simpl; intros Hnd.
  - constructor; [intros []|constructor].
  - inversion Hnd as [|? ? Hnin Hnd']; subst.
    destruct (jseqb k' k) eqn:Hk; simpl.
    + constructor; assumption.
    + constructor; [|apply IH; exact Hnd'].
      rewrite map_set_keys. intros [Hin|Heq]; [exact (Hnin Hin)|].
      subst k'. rewrite jseqb_refl in Hk. discriminate.
Qed.

(** The keys after [saveCurrent]: the saved ones and the current file. *)
Lemma saveCurrent_keys (st : SplitState) (p : jsstring) :
  (truthy (currentFile st) = true -> currentContent st <> []) ->
  In p (map fst (saveCurrent st))
  <-> In p (map fst (fileMap st))
      \/ (truthy (currentFile st) = true /\ p = currentFile st).
Proof.
  intros Hc. unfold saveCurrent.
  destruct (truthy (currentFile st)) eqn:Ht; simpl.
  - destruct (currentContent st) as [|l ls] eqn:Hcc;
      [exact (False_ind _ (Hc eq_refl eq_refl))|].
    change (0 <? List.length (l :: ls))%nat with true. cbv iota.
    rewrite map_set_keys. intuition.
  - intuition discriminate.
Qed.

Lemma saveCurrent_NoDup (st : SplitState) :
  NoDup (map fst (fileMap st)) -> NoDup (map fst (saveCurrent st)).
Proof.
  intros Hnd. unfold saveCurrent.
  destruct (truthy (currentFile st) && _); [apply map_set_NoDup|]; exact Hnd.
Qed.

Lemma splitStep_keysInv (st : SplitState) (paths : list jsstring)
    (line : jsstring) :
  keysInv st paths ->
  keysInv (splitStep st line) (paths ++ headerPaths [line]).
Proof.
  intros (Hnd & Hc & Hkeys). unfold splitStep. simpl headerPaths.
  destruct (matchFileRegex line) as [path|] eqn:Hm.
  - unfold keysInv. simpl. split; [apply saveCurrent_NoDup; exact Hnd|].
    split; [discriminate|].
    intros p. rewrite (saveCurrent_keys st p Hc), Hkeys, in_app_iff. simpl.
    rewrite (@matchFileRegex_truthy line path Hm). intuition.
  - rewrite app_nil_r. destruct (truthy (currentFile st)) eqn:Ht.
    + unfold keysInv. simpl. split; [exact Hnd|].
      split; [intros _; destruct (currentContent st); discriminate|].
      rewrite Ht. exact Hkeys.
    + unfold keysInv. rewrite Ht. auto.
Qed.

Lemma fold_splitStep_keysInv (lines : list jsstring) :
  forall (st : SplitState) (paths : list jsstring),
  keysInv st paths ->
  keysInv (fold_left splitStep lines st) (paths ++ headerPaths lines).
Proof.
  induction lines as [|line rest IH]; intros st paths Hinv.
  - simpl. rewrite app_nil_r. exact Hinv.
  - simpl fold_left.
    replace (paths ++ headerPaths (line :: rest))
      with ((paths ++ headerPaths [line]) ++ headerPaths rest).
    + apply IH. apply splitStep_keysInv. exact Hinv.
    + rewrite <- app_assoc. f_equal.
      change (line :: rest) with ([line] ++ rest). rewrite headerPaths_app.
      reflexivity.
Qed.

(** X1. The keys of the split are pairwise different, and they are the
    paths of the header lines of the diff, no more and no less: one
    segment per path, none for a diff without a header. *)
Theorem splitDiffByFiles_keys (d : jsstring) :
  NoDup (map fst (splitDiffByFiles d))
  /\ (forall p, In p (map fst (splitDiffByFiles d))
                <-> In p (headerPaths (split 10 d)))
  /\ (map_size (splitDiffByFiles d) <= List.length (headerPaths (split 10 d)))%nat.
Proof.
  assert (Hcore : NoDup (map fst (splitDiffByFiles d))
                  /\ forall p, In p (map fst (splitDiffByFiles d))
                               <-> In p (headerPaths (split 10 d))).
  { unfold splitDiffByFiles. destruct d as [|c d'].
    { simpl. split; [constructor|]. intros p. reflexivity. }
    simpl negb. cbv iota.
    assert (Hinit : keysInv (mkSplitState [] [] []) []).
    { unfold keysInv. simpl. split; [constructor|].
      split; [discriminate|]. intros p. intuition discriminate. }
    pose proof (fold_splitStep_keysInv (split 10 (c :: d')) Hinit) as Hfin.
    simpl app in Hfin. destruct Hfin as (Hnd & Hc & Hkeys).
    split; [apply saveCurrent_NoDup; exact Hnd|].
    intros p. rewrite saveCurrent_keys by exact Hc. apply Hkeys. }
  destruct Hcore as [Hnd Hkeys]. split; [exact Hnd|]. split; [exact Hkeys|].
  unfold map_size. rewrite <- (length_map fst).
  apply NoDup_incl_length; [exact Hnd|].
  intros p Hp. apply Hkeys. exact Hp.
Qed.

Lemma split_lines_no_nl (s : jsstring) : Forall no_nl (split 10 s).
Proof.
  induction s as [|c s IH]; simpl.
  - constructor; [intros []|constructor].
  - destruct (N.eqb c 10) eqn:Hc.
    + constructor; [intros []|exact IH].
    + destruct (split 10 s) as [|l ls]; [repeat constructor|].
      * intros [H|[]]. subst c. discriminate.
      * inversion IH as [|? ? Hl Hls]; subst. constructor; [|exact Hls].
        intros [H|H]; [subst c; discriminate|exact (Hl H)].
Qed.

Lemma split_no_nl (a : jsstring) : no_nl a -> split 10 a = [a].
Proof.
  induction a as [|c a IH]; intros Hn; [reflexivity|].
  simpl. destruct (N.eqb c 10) eqn:Hc.
  - apply N.eqb_eq in Hc. subst c. exfalso. apply Hn. left. reflexivity.
  - rewrite IH; [reflexivity|]. intros H. apply Hn. right. exact H.
Qed.

Lemma split_app_nl (a s : jsstring) :
  no_nl a -> split 10 (a ++ 10%N :: s) = a :: split 10 s.
Proof.
  induction a as [|c a IH]; intros Hn; [reflexivity|].
  simpl. destruct (N.eqb c 10) eqn:Hc.
  - apply N.eqb_eq in Hc. subst c. exfalso. apply Hn. left. reflexivity.
  - rewrite IH; [reflexivity|]. intros H. apply Hn. right. exact H.
Qed.

(** [lines.join("\n").split("\n")] gives the lines back. *)
Lemma split_join (lines : list jsstring) :
  lines <> [] -> Forall no_nl lines -> split 10 (join nl lines) = lines.
Proof.
  induction lines as [|l ls IH]; intros Hne Hall; [contradiction|].
  inversion Hall as [|? ? Hl Hls]; subst.
  destruct ls as [|l' ls'].
  - simpl. apply split_no_nl. exact Hl.
  - rewrite join_cons by discriminate. unfold nl at 1.
    change ([10%N] ++ join nl (l' :: ls')) with (10%N :: join nl (l' :: ls')).
    rewrite split_app_nl by exact Hl.
    rewrite IH; [reflexivity|discriminate|exact Hls].
Qed.

Lemma map_set_Forall (P : jsstring * jsstring -> Prop) (k v : jsstring)
    (m : JsMap) :
  Forall P m -> P (k, v) -> Forall P (map_set k v m).
Proof.
  induction m as [|[k' v'] m IH]; intros Hall Hkv; simpl.
  - constructor; [exact Hkv|constructor].
  - inversion Hall as [|? ? Hh Ht]; subst.
    destruct (jseqb k' k) eqn:Hk.
    + apply jseqb_eq in Hk. subst k'. constructor; assumption.
    + constructor; [exact Hh|apply IH; assumption].
Qed.

Lemma saveCurrent_shape (st : SplitState) :
  shapeInv st ->
  Forall (fun kv => segmentText_of (fst kv) (snd kv)) (saveCurrent st).
Proof.
  intros [Hsaved Hcur]. unfold saveCurrent.
  destruct (truthy (currentFile st)) eqn:Ht; [|exact Hsaved].
  simpl. destruct (0 <? List.length (currentContent st))%nat; [|exact Hsaved].
  apply map_set_Forall; [exact Hsaved|].
  exists (currentContent st). split; [apply Hcur; reflexivity|reflexivity].
Qed.

Lemma headerPaths_nil_snoc (rest : list jsstring) (line : jsstring) :
  headerPaths rest = [] -> matchFileRegex line = None ->
  headerPaths (rest ++ [line]) = [].
Proof.
  intros Hr Hl. rewrite headerPaths_app, Hr. simpl. rewrite Hl. reflexivity.
Qed.

Lemma splitStep_shapeInv (st : SplitState) (line : jsstring) :
  no_nl line -> shapeInv st -> shapeInv (splitStep st line).
Proof.
  intros Hn Hinv. unfold splitStep.
  destruct (matchFileRegex line) as [path|] eqn:Hm.
  - split; simpl; [apply saveCurrent_shape; exact Hinv|].
    intros _. exists line, []. repeat split; try assumption.
    constructor; [exact Hn|constructor].
  - destruct (truthy (currentFile st)) eqn:Ht; [|exact Hinv].
    destruct Hinv as [Hsaved Hcur]. split; simpl; [exact Hsaved|].
    intros _. destruct (Hcur Ht) as (header & rest & Hcc & Hh & Hrest & Hall).
    exists header, (rest ++ [line]). rewrite Hcc.
    split; [reflexivity|]. split; [exact Hh|].
    split; [apply headerPaths_nil_snoc; assumption|].
    change (header :: rest ++ [line]) with ((header :: rest) ++ [line]).
    rewrite <- Hcc. apply Forall_app. split.
    + exact Hall.
    + constructor; [exact Hn|constructor].
Qed.

Lemma fold_splitStep_shapeInv (lines : list jsstring) :
  forall st, Forall no_nl lines -> shapeInv st ->
  shapeInv (fold_left splitStep lines st).
Proof.
  induction lines as [|line rest IH]; intros st Hall Hinv; [exact Hinv|].
  inversion Hall as [|? ? Hl Hrest]; subst. simpl.
  apply IH; [exact Hrest|]. apply splitStep_shapeInv; assumption.
Qed.

(** Every text of the split is a segment for its key. *)
Lemma splitDiffByFiles_shape (d : jsstring) :
  Forall (fun kv => segmentText_of (fst kv) (snd kv)) (splitDiffByFiles d).
Proof.
  unfold splitDiffByFiles. destruct (negb (truthy d)); [constructor|].
  apply saveCurrent_shape. apply fold_splitStep_shapeInv.
  - apply split_lines_no_nl.
  - split; simpl; [constructor|discriminate].
Qed.

(** Lines that are no headers are added to the current file. *)
Lemma fold_splitStep_content (rest : list jsstring) :
  forall (fm : JsMap) (cf : jsstring) (cc : list jsstring),
  truthy cf = true -> headerPaths rest = [] ->
  fold_left splitStep rest (mkSplitState fm cf cc)
  = mkSplitState fm cf (cc ++ rest).
Proof.
  induction rest as [|line rest IH]; intros fm cf cc Ht Hh; simpl.
  - rewrite app_nil_r. reflexivity.
  - simpl in Hh. destruct (matchFileRegex line) eqn:Hm; [discriminate|].
    unfold splitStep at 2. rewrite Hm. simpl. rewrite Ht.
    rewrite IH by assumption. rewrite <- app_assoc. reflexivity.
Qed.

(** The split of the text of one segment is that segment alone. *)
Lemma splitDiffByFiles_segment (path text : jsstring) :
  segmentText_of path text ->
  split 10 text <> []
  /\ matchFileRegex (hd [] (split 10 text)) = Some path
  /\ headerPaths (tl (split 10 text)) = []
  /\ splitDiffByFiles text = [(path, text)].
Proof.
  intros (lines & (header & rest & -> & Hh & Hrest & Hall) & ->).
  pose proof (@split_join (header :: rest) ltac:(discriminate) Hall) as Hsplit.
  assert (Hheader : header <> []).
  { intros ->. vm_compute in Hh. discriminate. }
  assert (Htext : truthy (join nl (header :: rest)) = true).
  { destruct header as [|c header']; [contradiction|].
    destruct rest; reflexivity. }
  pose proof (@matchFileRegex_truthy header path Hh) as Hpath.
  split; [rewrite Hsplit; discriminate|].
  split; [rewrite Hsplit; exact Hh|]. split; [rewrite Hsplit; exact Hrest|].
  unfold splitDiffByFiles. rewrite Htext, Hsplit. simpl negb. cbv iota.
  simpl fold_left. unfold splitStep at 2. rewrite Hh.
  change (saveCurrent (mkSplitState [] [] [])) with (@nil (jsstring * jsstring)).
  rewrite fold_splitStep_content by assumption.
  unfold saveCurrent. simpl. rewrite Hpath. reflexivity.
Qed.

(** X2. Every segment of a split starts with a header line for its own
    key and holds no other header; split again on its own, its text
    gives that one segment back, key and text. *)
Theorem splitDiffByFiles_segments_resplit (d path text : jsstring) :
  In (path, text) (splitDiffByFiles d) ->
  matchFileRegex (hd [] (split 10 text)) = Some path
  /\ headerPaths (tl (split 10 text)) = []
  /\ splitDiffByFiles text = [(path, text)].
Proof.
  intros Hin.
  pose proof (splitDiffByFiles_shape d) as Hall.
  rewrite Forall_forall in Hall. specialize (Hall _ Hin). simpl in Hall.
  apply splitDiffByFiles_segment in Hall. tauto.
Qed.

Lemma splitDiffByFiles_segments_resplit_witness :
  let text := lit "diff --git a/y b/y" ++ nl ++ lit "+2" in
  matchFileRegex (hd [] (split 10 text)) = Some (lit "y")
  /\ headerPaths (tl (split 10 text)) = []
  /\ splitDiffByFiles text = [(lit "y", text)].
Proof.
  intros text.
  apply (@splitDiffByFiles_segments_resplit smallTwoFileDiff).
  vm_compute. right. left. reflexivity.
Defined.

Lemma starts_with_prefix (p r : jsstring) : starts_with p (p ++ r) = true.
Proof.
  induction p as [|c p IH]; [reflexivity|].
  simpl. rewrite N.eqb_refl. exact IH.
Qed.

Lemma skipn_prefix (p r : jsstring) : skipn (List.length p) (p ++ r) = r.
Proof. induction p as [|c p IH]; [reflexivity|exact IH]. Qed.

(** Where [group1_tail] ends the group, [" b/"] and one code unit at
    least follow. *)
Lemma group1_tail_sound (s : jsstring) :
  forall x, group1_tail s = Some x ->
  exists y, s = x ++ lit " b/" ++ y /\ y <> [].
Proof.
  induction s as [|c s IH]; intros x H; [discriminate|].
  cbn [group1_tail] in H. destruct (group1_tail s) as [x'|].
  - injection H as <-. destruct (IH x' eq_refl) as (y & -> & Hy).
    exists y. split; [reflexivity|exact Hy].
  - destruct (starts_with (lit " b/") (c :: s)) eqn:Hs; [|discriminate H].
    destruct (3 <? List.length (c :: s))%nat eqn:Hlen; [|discriminate H].
    injection H as <-. apply starts_with_app in Hs.
    exists (skipn (List.length (lit " b/")) (c :: s)). split; [exact Hs|].
    intros Hnil. apply (f_equal (@List.length _)) in Hs.
    rewrite length_app, Hnil in Hs.
    apply Nat.ltb_lt in Hlen.
    change (List.length (lit " b/")) with 3%nat in Hs.
    simpl List.length in Hs. simpl List.length in Hlen. lia.
Qed.

(** X3. A line that matches the header pattern is the fixed prefix, the
    first path, [" b/"] and a second path, both paths non-empty and the
    line free of line terminators: the key of a segment is always a
    non-empty text cut from the line itself. *)
Theorem matchFileRegex_sound (line x : jsstring) :
  matchFileRegex line = Some x ->
  x <> []
  /\ exists y,
       y <> []
       /\ line = lit "diff --git a/" ++ x ++ lit " b/" ++ y
       /\ no_terminator (x ++ lit " b/" ++ y) = true.
Proof.
  unfold matchFileRegex.
  destruct (starts_with (lit "diff --git a/") line) eqn:Hp; [|discriminate].
  apply starts_with_app in Hp.
  destruct (skipn _ line) as [|c rest] eqn:Hrest; [discriminate|].
  destruct (no_terminator (c :: rest)) eqn:Hnt; [|discriminate].
  destruct (group1_tail rest) as [x'|] eqn:Hg; [|discriminate].
  intros H. injection H as <-. split; [discriminate|].
  destruct (group1_tail_sound rest Hg) as (y & Hr & Hy).
  exists y. split; [exact Hy|]. split.
  - rewrite Hp. rewrite Hr. reflexivity.
  - rewrite Hr in Hnt. exact Hnt.
Qed.

Lemma matchFileRegex_sound_witness :
  lit "old name" <> []
  /\ exists y,
       y <> []
       /\ renameHeader = lit "diff --git a/" ++ lit "old name" ++ lit " b/" ++ y
       /\ no_terminator (lit "old name" ++ lit " b/" ++ y) = true.
Proof.
  apply (@matchFileRegex_sound renameHeader). vm_compute. reflexivity.
Defined.

Lemma group1_tail_no_space (s : jsstring) :
  ~ In 32%N s -> group1_tail s = None.
Proof.
  induction s as [|c s IH]; intros Hn; [reflexivity|].
  cbn [group1_tail]. rewrite IH by (intros H; apply Hn; right; exact H).
  change (lit " b/") with [32%N; 98%N; 47%N]. cbn [starts_with].
  destruct (N.eqb 32 c) eqn:Hc; [|reflexivity].
  apply N.eqb_eq in Hc. exfalso. apply Hn. left. symmetry. exact Hc.
Qed.

Lemma group1_tail_cons (c : N) (s : jsstring) :
  group1_tail (c :: s)
  = match group1_tail s with
    | Some x => Some (c :: x)
    | None =>
      if starts_with (lit " b/") (c :: s) && (3 <? List.length (c :: s))%nat
      then Some [] else None
    end.
Proof. reflexivity. Qed.

Lemma group1_tail_complete (a b : jsstring) :
  b <> [] -> ~ In 32%N b ->
  group1_tail (a ++ lit " b/" ++ b) = Some a.
Proof.
  intros Hb Hn. induction a as [|c a IH].
  - change ([] ++ lit " b/" ++ b) with (32%N :: 98%N :: 47%N :: b).
    rewrite group1_tail_cons.
    rewrite (@group1_tail_no_space (98%N :: 47%N :: b)).
    + destruct b as [|c b']; [contradiction|]. reflexivity.
    + intros [H|[H|H]]; [discriminate H|discriminate H|exact (Hn H)].
  - change ((c :: a) ++ lit " b/" ++ b) with (c :: (a ++ lit " b/" ++ b)).
    rewrite group1_tail_cons, IH. reflexivity.
Qed.

(** X4. A header written for a first path and a second path is read
    back to the first path, whenever both are non-empty and free of line
    terminators and the second holds no space; the first may hold spaces
    and even [" b/"]. *)
Theorem matchFileRegex_header (a b : jsstring) :
  a <> [] -> b <> [] ->
  no_terminator a = true -> no_terminator b = true ->
  ~ In 32%N b ->
  matchFileRegex (lit "diff --git a/" ++ a ++ lit " b/" ++ b) = Some a.
Proof.
  intros Ha Hb Hta Htb Hn. unfold matchFileRegex.
  rewrite starts_with_prefix, skipn_prefix.
  destruct a as [|c a']; [contradiction|].
  change ((c :: a') ++ lit " b/" ++ b) with (c :: (a' ++ lit " b/" ++ b)).
  assert (Hnt : no_terminator (c :: a' ++ lit " b/" ++ b) = true).
  { change (c :: a' ++ lit " b/" ++ b) with ((c :: a') ++ lit " b/" ++ b).
    unfold no_terminator in *. rewrite !forallb_app, Hta, Htb. reflexivity. }
  cbv beta iota. rewrite Hnt.
  rewrite group1_tail_complete by assumption. reflexivity.
Qed.

Lemma matchFileRegex_header_witness :
  matchFileRegex (lit "diff --git a/" ++ lit "dir b/old name" ++ lit " b/" ++ lit "new")
  = Some (lit "dir b/old name").
Proof.
  apply matchFileRegex_header.
  - discriminate.
  - discriminate.
  - reflexivity.
  - reflexivity.
  - vm_compute. intuition discriminate.
Defined.

(* ================================================================== *)
(** ** More on the run: configuration errors, requests and the report *)
(* ================================================================== *)

Import RunShape.

Lemma world_eta (w : World) : mkWorld (sent w ++ []) (written w) = w.
Proof. destruct w. simpl. rewrite app_nil_r. reflexivity. Qed.

(** Under a configuration that is not ready a completion call posts
    nothing and throws the configuration error. *)
Lemma callCompletion_config_error (h : Host) (msgs : list Message) (w : World) :
  providerReady (env h) = false ->
  callCompletion h msgs w = (w, Thrown (configError (env h))).
Proof.
  unfold providerReady, callCompletion, configError.
  destruct (jseqb (getAIProvider (env h)) AIProvider_OPENAI).
  - destruct (OPENAI_API_KEY (env h)) as [k|]; simpl.
    + intros ->. reflexivity.
    + intros _. reflexivity.
  - destruct (jseqb (getAIProvider (env h)) AIProvider_DEEPSEEK).
    + destruct (DEEPSEEK_API_KEY (env h)) as [k|]; simpl.
      * intros ->. reflexivity.
      * intros _. reflexivity.
    + intros _. reflexivity.
Qed.

(** Then the loop records the same error text for every file. *)
Lemma auditFiles_config_error (h : Host) (apiKey : jsstring)
    (inputData : AuditRequest) (entries : JsMap) :
  providerReady (env h) = false ->
  forall (acc : list FileResult) (w : World),
  auditFiles h apiKey inputData entries acc w
  = (w, Returned
          (acc ++ map (fun entry =>
                         mkFileResult (fst entry)
                           (errorMarker (configError (env h))))
                    entries)).
Proof.
  intros Hr. induction entries as [|[p d] rest IH]; intros acc w; simpl.
  - rewrite app_nil_r. reflexivity.
  - unfold bind, auditFile, tryCatch, sendSingleAuditRequest.
    rewrite callCompletion_config_error by exact Hr. simpl.
    rewrite IH. rewrite <- app_assoc. reflexivity.
Qed.

Lemma callOpenAIAudit_config_error (h : Host) (inputData : AuditRequest)
    (w : World) :
  truthy_opt (OPENAI_API_KEY (env h)) = true ->
  providerReady (env h) = false ->
  callOpenAIAudit h inputData w = (w, Thrown (configError (env h))).
Proof.
  intros Hkey Hr. rewrite callOpenAIAudit_keyed by exact Hkey.
  destruct (keepWhole inputData).
  - apply callCompletion_config_error. exact Hr.
  - unfold auditPerFile, bind.
    rewrite auditFiles_config_error by exact Hr.
    rewrite callCompletion_config_error by exact Hr. reflexivity.
Qed.

(** X5. When the selected provider is not ready (its key is missing or
    empty, or the selector names no provider), every completion call
    throws the configuration error without posting; an audit with the
    OpenAI key set throws that same error on either path, the per-file
    path included, having posted nothing and written nothing. *)
Theorem config_error_is_fatal (h : Host) (inputData : AuditRequest) (w : World) :
  providerReady (env h) = false ->
  (forall msgs, callCompletion h msgs w = (w, Thrown (configError (env h))))
  /\ (truthy_opt (OPENAI_API_KEY (env h)) = true ->
      callOpenAIAudit h inputData w = (w, Thrown (configError (env h)))
      /\ performAudit h inputData w = (w, Thrown (configError (env h)))).
Proof.
  intros Hr. split.
  - intros msgs. apply callCompletion_config_error. exact Hr.
  - intros Hkey.
    pose proof (callOpenAIAudit_config_error h inputData w Hkey Hr) as Hrun.
    split; [exact Hrun|].
    unfold performAudit, tryCatch, bind. rewrite Hrun. reflexivity.
Qed.

(** Three segments on the per-file path, DeepSeek selected without its
    key: the run throws the missing-key error and posts nothing. *)
Lemma config_error_is_fatal_witness :
  let h := hostOf deepseekKeyMissingEnv steadyFetch in
  keepWhole (requestWith threeFileDiff) = false
  /\ performAudit h (requestWith threeFileDiff) freshWorld
     = (freshWorld, Thrown (lit "環境変数 DEEPSEEK_API_KEY が設定されていません。")).
Proof.
  intros h. split; [vm_compute; reflexivity|].
  assert (Hr : providerReady (env h) = false) by (vm_compute; reflexivity).
  assert (Hk : truthy_opt (OPENAI_API_KEY (env h)) = true)
    by (vm_compute; reflexivity).
  destruct (@config_error_is_fatal h (requestWith threeFileDiff) freshWorld Hr)
    as [_ Haudit].
  destruct (Haudit Hk) as [_ Hperform].
  rewrite Hperform. vm_compute. reflexivity.
Defined.

Lemma requestFor_selected (e : Env) (msgs : list Message) :
  providerReady e = true -> toSelectedProvider e (requestFor e msgs).
Proof.
  unfold providerReady, requestFor, toSelectedProvider.
  destruct (jseqb (getAIProvider e) AIProvider_OPENAI) eqn:Ho.
  - intros Hk. apply truthy_or_default in Hk as (k & Hk & _ & Hd).
    rewrite Hd. apply jseqb_eq in Ho. split; [reflexivity|]. left.
    repeat split; assumption.
  - destruct (jseqb (getAIProvider e) AIProvider_DEEPSEEK) eqn:Hd; [|discriminate].
    intros Hk. apply truthy_or_default in Hk as (k & Hk & _ & Hdef).
    rewrite Hdef. apply jseqb_eq in Hd. split; [reflexivity|]. right.
    repeat split; assumption.
Qed.

(** Every run of [callOpenAIAudit]: what it posts and that it writes
    nothing. *)
Lemma callOpenAIAudit_run (h : Host) (inputData : AuditRequest) (w : World) :
  exists posted out,
    callOpenAIAudit h inputData w
    = (mkWorld (sent w ++ posted) (written w), out)
    /\ (List.length posted
        <= map_size (splitDiffByFiles (code_changes inputData)) + 1)%nat
    /\ Forall (toSelectedProvider (env h)) posted.
Proof.
  destruct (truthy_opt (OPENAI_API_KEY (env h))) eqn:Hkey.
  - destruct (providerReady (env h)) eqn:Hr.
    + rewrite callOpenAIAudit_keyed by exact Hkey.
      destruct (keepWhole inputData).
      * rewrite callCompletion_ready by exact Hr.
        eexists _, _. split; [reflexivity|].
        split; [simpl; lia|].
        constructor; [apply requestFor_selected; exact Hr|constructor].
      * rewrite auditPerFile_ready by exact Hr.
        eexists _, _. split; [reflexivity|]. split.
        { rewrite length_app. unfold fileRequests, map_size.
          rewrite length_map. simpl. lia. }
        apply Forall_app. split.
        { unfold fileRequests, fileRequestFor. apply Forall_forall.
          intros r Hin. apply in_map_iff in Hin as (entry & <- & _).
          apply requestFor_selected. exact Hr. }
        constructor; [apply requestFor_selected; exact Hr|constructor].
    + rewrite callOpenAIAudit_config_error by assumption.
      exists [], (Thrown (configError (env h))). rewrite world_eta.
      split; [reflexivity|]. split; [simpl; lia|constructor].
  - rewrite audit_needs_openai_key by exact Hkey.
    exists [], (Thrown missingOpenAIKey). rewrite world_eta.
    split; [reflexivity|]. split; [simpl; lia|constructor].
Qed.

(** X6. Whatever the configuration, the provider and the request, an
    audit keeps the requests sent before it and adds at most one request
    per segment and one more; every request it adds goes to the endpoint
    of the selected provider with that provider's own key and model and
    with a limit of 1500 tokens; and the audit itself writes no file. *)
Theorem audit_posts_to_selected_provider (h : Host) (inputData : AuditRequest)
    (w : World) :
  let w' := fst (callOpenAIAudit h inputData w) in
  written w' = written w
  /\ exists posted,
       sent w' = sent w ++ posted
       /\ (List.length posted
           <= map_size (splitDiffByFiles (code_changes inputData)) + 1)%nat
       /\ Forall (toSelectedProvider (env h)) posted.
Proof.
  destruct (callOpenAIAudit_run h inputData w) as (posted & out & Hrun & Hlen & Hall).
  simpl. rewrite Hrun. simpl. split; [reflexivity|].
  exists posted. auto.
Qed.

Lemma reportPath_eq (h : Host) :
  path_join
    [path_join [dirname h; lit "audits"; lit "reports"];
     lit "audit-report-" ++ dashTimestamp (isoNow h) ++ lit ".txt"]
  = reportPathOf h.
Proof.
  unfold reportPathOf, path_join. simpl join.
  rewrite <- !app_assoc. reflexivity.
Qed.

(** X7. [performAudit] writes a report exactly when it returns: a run
    that returns has status [success], has written the returned report
    text under the returned path, the timestamped file of the reports
    directory, which the store accepted; a run that throws has written
    nothing. *)
Theorem performAudit_writes_iff_returns (h : Host) (inputData : AuditRequest)
    (w : World) :
  match performAudit h inputData w with
  | (w', Returned r) =>
    status r = lit "success"
    /\ reportPath r = reportPathOf h
    /\ writeRefused h (reportPath r) = None
    /\ written w' = map_set (reportPath r) (aiReport r) (written w)
    /\ snd (callOpenAIAudit h inputData w) = Returned (aiReport r)
  | (w', Thrown e) => written w' = written w
  end.
Proof.
  destruct (callOpenAIAudit_run h inputData w) as (posted & out & Hrun & _ & _).
  unfold performAudit, tryCatch, bind. rewrite Hrun.
  destruct out as [report|e]; [|reflexivity].
  unfold saveAuditReport. rewrite reportPath_eq.
  destruct (writeRefused h (reportPathOf h)) eqn:Hw; simpl.
  - reflexivity.
  - repeat split. exact Hw.
Qed.

(** X8. The timestamp of the report path keeps its length and every
    code unit but the colons and the dots, which all become dashes: no
    colon and no dot is left in it. *)
Theorem dashTimestamp_replaces_all (s : jsstring) :
  List.length (dashTimestamp s) = List.length s
  /\ ~ In 58%N (dashTimestamp s)
  /\ ~ In 46%N (dashTimestamp s)
  /\ forall k c,
       nth_error s k = Some c ->
       nth_error (dashTimestamp s) k
       = Some (if (N.eqb c 58 || N.eqb c 46)%bool then 45%N else c).
Proof.
  unfold dashTimestamp. split; [apply length_map|].
  assert (Hnot : forall x, (x = 58 \/ x = 46)%N -> ~ In x (dashTimestamp s)).
  { intros x Hx Hin. unfold dashTimestamp in Hin.
    apply in_map_iff in Hin as (c & Hc & _).
    destruct (N.eqb c 58 || N.eqb c 46)%bool eqn:Hb.
    - subst x. destruct Hx; discriminate.
    - subst x. apply orb_false_iff in Hb as [H1 H2].
      apply N.eqb_neq in H1, H2. destruct Hx; contradiction. }
  split; [apply Hnot; left; reflexivity|].
  split; [apply Hnot; right; reflexivity|].
  intros k c Hk. rewrite nth_error_map, Hk. reflexivity.
Qed.

(** X9. On the single-request path a failure of the one completion call
    is fatal: the audit and [performAudit] throw its error after that
    one request, and no report is written. *)
Theorem whole_path_failure_is_fatal (h : Host) (inputData : AuditRequest)
    (w : World) (e : jsstring) :
  truthy_opt (OPENAI_API_KEY (env h)) = true ->
  providerReady (env h) = true ->
  (map_size (splitDiffByFiles (code_changes inputData)) <= 2)%nat
  \/ (N.of_nat (List.length (code_changes inputData)) < 10000)%N ->
  readCompletion (providerLabel (env h))
    (fetch h (sent w) (requestFor (env h) (auditMessages inputData)))
    = Thrown e ->
  callOpenAIAudit h inputData w
  = (mkWorld (sent w ++ [requestFor (env h) (auditMessages inputData)])
             (written w), Thrown e)
  /\ performAudit h inputData w
     = (mkWorld (sent w ++ [requestFor (env h) (auditMessages inputData)])
                (written w), Thrown e).
Proof.
  intros Hkey Hr Hwhole Hfail.
  assert (Hrun : callOpenAIAudit h inputData w
                 = (mkWorld (sent w ++ [requestFor (env h) (auditMessages inputData)])
                            (written w), Thrown e)).
  { rewrite callOpenAIAudit_keyed by exact Hkey.
    rewrite (proj2 (keepWhole_iff inputData) Hwhole).
    rewrite callCompletion_ready by exact Hr. rewrite Hfail. reflexivity. }
  split; [exact Hrun|].
  unfold performAudit, tryCatch, bind. rewrite Hrun. reflexivity.
Qed.

Lemma whole_path_failure_is_fatal_witness :
  let h := hostOf bothKeysEnv alwaysFailsFetch in
  let run := performAudit h (requestWith twoFileDiff) freshWorld in
  snd run = Thrown (lit "DeepSeek API エラー: 429" ++ nl ++ lit "slow down")
  /\ List.length (sent (fst run)) = 1%nat
  /\ written (fst run) = [].
Proof.
  intros h run.
  assert (Hkey : truthy_opt (OPENAI_API_KEY (env h)) = true)
    by (vm_compute; reflexivity).
  assert (Hr : providerReady (env h) = true) by (vm_compute; reflexivity).
  assert (Hwhole :
            (map_size (splitDiffByFiles (code_changes (requestWith twoFileDiff)))
             <= 2)%nat
            \/ (N.of_nat (List.length (code_changes (requestWith twoFileDiff)))
                < 10000)%N).
  { right. vm_compute. reflexivity. }
  destruct (@whole_path_failure_is_fatal h (requestWith twoFileDiff) freshWorld
              (lit "DeepSeek API エラー: 429" ++ nl ++ lit "slow down")
              Hkey Hr Hwhole) as [_ Hperform].
  { vm_compute. reflexivity. }
  unfold run. rewrite Hperform. repeat split.
Defined.

(* ================================================================== *)
(** ** More on the resolver *)
(* ================================================================== *)

Import ResolverRuns.

Lemma existsb_jseqb (x : jsstring) (seen : list jsstring) :
  existsb (jseqb x) seen = true <-> In x seen.
Proof.
  rewrite existsb_exists. split.
  - intros (y & Hin & Heq). apply jseqb_eq in Heq. subst y. exact Hin.
  - intros Hin. exists x. split; [exact Hin|apply jseqb_refl].
Qed.

(** What [[...new Set(xs)]] keeps: every element once. *)
Lemma set_spread_spec (xs : list jsstring) :
  forall seen,
  NoDup (AutoAudit.set_spread seen xs)
  /\ forall x, In x (AutoAudit.set_spread seen xs) <-> In x xs /\ ~ In x seen.
Proof.
  induction xs as [|y xs IH]; intros seen; simpl.
  - split; [constructor|]. intros x. tauto.
  - destruct (existsb (jseqb y) seen) eqn:Hy.
    + apply existsb_jseqb in Hy. destruct (IH seen) as [Hnd Hin].
      split; [exact Hnd|]. intros x. rewrite Hin. split.
      * tauto.
      * intros [[Heq|Hx] Hns]; [subst y; contradiction|tauto].
    + assert (Hyn : ~ In y seen).
      { intros H. apply existsb_jseqb in H. congruence. }
      destruct (IH (y :: seen)) as [Hnd Hin]. split.
      * constructor; [|exact Hnd]. rewrite Hin. simpl. tauto.
      * intros x. simpl. rewrite Hin. simpl. split.
        { intros [Heq|[Hx Hns]]; [subst x; tauto|tauto]. }
        { intros [[Heq|Hx] Hns]; [left; exact Heq|].
          destruct (jseqb y x) eqn:Hyx.
          - apply jseqb_eq in Hyx. left. exact Hyx.
          - right. split; [exact Hx|]. intros [Heq|Hs]; [|tauto].
            subst x. rewrite jseqb_refl in Hyx. discriminate. }
Qed.

(** X10. When both name queries succeed, [getChangedFiles] lists every
    non-empty line of either output, each once, and nothing else. *)
Theorem getChangedFiles_dedup (git : AutoAudit.Git) (staged unstaged : jsstring) :
  git AutoAudit.NamesCached = Some staged ->
  git AutoAudit.NamesWorking = Some unstaged ->
  NoDup (AutoAudit.getChangedFiles git)
  /\ forall x,
       In x (AutoAudit.getChangedFiles git)
       <-> x <> [] /\ (In x (split 10 staged) \/ In x (split 10 unstaged)).
Proof.
  intros Hs Hu. unfold AutoAudit.getChangedFiles. rewrite Hs, Hu.
  destruct (set_spread_spec
              (AutoAudit.nonEmptyLines staged ++ AutoAudit.nonEmptyLines unstaged) [])
    as [Hnd Hin].
  split; [exact Hnd|]. intros x. rewrite Hin. simpl.
  unfold AutoAudit.nonEmptyLines. rewrite in_app_iff, !filter_In.
  assert (Ht : truthy x = true <-> x <> []).
  { destruct x; simpl; split; congruence. }
  rewrite Ht. tauto.
Qed.

Lemma getChangedFiles_dedup_witness :
  AutoAudit.getChangedFiles stagedAndUnstaged = [lit "a.ts"; lit "b.ts"; lit "c.ts"]
  /\ NoDup (AutoAudit.getChangedFiles stagedAndUnstaged)
  /\ forall x,
       In x (AutoAudit.getChangedFiles stagedAndUnstaged)
       <-> x <> []
           /\ (In x (split 10 (lit "a.ts" ++ nl ++ lit "b.ts" ++ nl))
               \/ In x (split 10 (lit "b.ts" ++ nl ++ lit "c.ts" ++ nl))).
Proof.
  split; [vm_compute; reflexivity|].
  apply (@getChangedFiles_dedup stagedAndUnstaged); reflexivity.
Defined.

Lemma truthy_rev (l : jsstring) : truthy (rev l) = truthy l.
Proof.
  destruct l as [|c l]; [reflexivity|].
  simpl. destruct (rev l); reflexivity.
Qed.

Lemma truthy_drop_while (f : N -> bool) (l : jsstring) :
  truthy (drop_while f l) = existsb (fun c => negb (f c)) l.
Proof.
  induction l as [|c l IH]; [reflexivity|].
  simpl. destruct (f c); [exact IH|reflexivity].
Qed.

Lemma existsb_drop_while (f : N -> bool) (l : jsstring) :
  existsb (fun c => negb (f c)) (drop_while f l)
  = existsb (fun c => negb (f c)) l.
Proof.
  induction l as [|c l IH]; [reflexivity|].
  simpl. destruct (f c) eqn:Hf; simpl; [exact IH|rewrite Hf; reflexivity].
Qed.

Lemma existsb_rev_eq (g : N -> bool) (l : jsstring) :
  existsb g (rev l) = existsb g l.
Proof.
  induction l as [|c l IH]; [reflexivity|].
  simpl. rewrite existsb_app, IH. simpl. rewrite orb_false_r. apply orb_comm.
Qed.

(** A text is blank for [trim] when all its code units are white space. *)
Lemma truthy_trim (s : jsstring) :
  truthy (trim s) = existsb (fun c => negb (js_whitespace c)) s.
Proof.
  unfold trim.
  rewrite truthy_rev, truthy_drop_while, existsb_rev_eq, existsb_drop_while.
  reflexivity.
Qed.

(** X11. When the staged query succeeds, [getLatestChanges] returns the
    staged diff as it is as soon as it holds one code unit that is not
    white space, whatever the unstaged diff; when the staged diff is
    blank it returns the unstaged diff as it is, or the fixed comment
    text when that query fails. *)
Theorem getLatestChanges_prefers_staged (git : AutoAudit.Git) (staged : jsstring) :
  git AutoAudit.DiffCached = Some staged ->
  (existsb (fun c => negb (js_whitespace c)) staged = true ->
   AutoAudit.getLatestChanges git = staged)
  /\ (existsb (fun c => negb (js_whitespace c)) staged = false ->
      AutoAudit.getLatestChanges git
      = match git AutoAudit.DiffWorking with
        | Some unstaged => unstaged
        | None => lit "// 変更内容を取得できませんでした"
        end).
Proof.
  intros Hs. unfold AutoAudit.getLatestChanges. rewrite Hs, truthy_trim.
  split; intros ->; reflexivity.
Qed.

Lemma getLatestChanges_prefers_staged_witness :
  AutoAudit.getLatestChanges stagedAndUnstaged
  = lit "diff --git a/x.txt b/x.txt" ++ nl ++ lit "+hello".
Proof.
  apply (@getLatestChanges_prefers_staged stagedAndUnstaged
           (lit "diff --git a/x.txt b/x.txt" ++ nl ++ lit "+hello") eq_refl).
  vm_compute. reflexivity.
Defined.

Lemma drop_while_head (f : N -> bool) (l : jsstring) (c : N) (l' : jsstring) :
  drop_while f l = c :: l' -> f c = false.
Proof.
  induction l as [|x l IH]; simpl; [discriminate|].
  destruct (f x) eqn:Hx; [exact IH|].
  intros H. injection H as <- _. exact Hx.
Qed.









(* ================================================================== *)
(** ** More on the scoper of the request builder *)
(* ================================================================== *)

(** X13. Section 7 selects nothing: for every file and every diff the
    extraction is empty, so the restriction hands the diff on as it
    found it, whatever the list of files, and the scoper is section 8
    alone. *)
Theorem restriction_selects_nothing (file combinedFiles codeChanges0 : shstring) :
  awkExtract file codeChanges0 = []
  /\ restrictDiff combinedFiles codeChanges0 = codeChanges0
  /\ scopeDiff combinedFiles codeChanges0 = verifyDiff combinedFiles codeChanges0.
Proof.
  split; [apply awkExtract_empty|].
  split; [apply restrictDiff_unchanged|].
  unfold scopeDiff. rewrite restrictDiff_unchanged. reflexivity.
Qed.

(** *** What [echo] hands to a filter *)

Lemma split_snoc_nl (s : shstring) : split 10 (s ++ nl) = split 10 s ++ [[]].
Proof.
  induction s as [|c s IH]; [reflexivity|].
  change ((c :: s) ++ nl) with (c :: (s ++ nl)). cbn [split].
  rewrite IH. destruct (N.eqb c 10); [reflexivity|].
  destruct (split 10 s) as [|l ls] eqn:Hs; [|reflexivity].
  exfalso. exact (split_not_nil 10 s Hs).
Qed.

(** A stream that ends with a line feed has the lines of the text before
    that line feed. *)
Lemma readLines_snoc_nl (s : shstring) : readLines (s ++ nl) = split 10 s.
Proof.
  unfold readLines. rewrite split_snoc_nl, removelast_last, last_last.
  cbn [nonempty truthy]. apply app_nil_r.
Qed.

Lemma echo_lines_plain (x : shstring) :
  echo_option x = false -> echo_lines x = lines_of x.
Proof.
  intros H. unfold echo_lines, echo. rewrite H. apply readLines_snoc_nl.
Qed.

Lemma echo_lines_option (x : shstring) :
  echo_option x = true -> echo_lines x = [] \/ echo_lines x = [[]].
Proof.
  intros H. unfold echo_lines, echo. rewrite H.
  destruct (existsb (N.eqb 110) x); [left|right]; reflexivity.
Qed.

(** A line that [echo] prints and that is not empty is a line of the
    variable. *)
Lemma echo_lines_sub (x l : shstring) :
  l <> [] -> In l (echo_lines x) -> In l (lines_of x).
Proof.
  intros Hl Hin. destruct (echo_option x) eqn:Ho.
  - destruct (echo_lines_option x Ho) as [H|H]; rewrite H in Hin.
    + destruct Hin.
    + destruct Hin as [Heq|[]]. exfalso. apply Hl. symmetry. exact Heq.
  - rewrite echo_lines_plain in Hin by exact Ho. exact Hin.
Qed.

(** A text that [echo] reads as options is one line, and no header. *)
Lemma echo_option_no_header (x : shstring) :
  echo_option x = true -> filter isDiffGit (lines_of x) = [].
Proof.
  intros H. destruct x as [|d [|c rest]]; try discriminate H.
  cbn [echo_option] in H. apply andb_true_iff in H as [Hd Hall].
  apply N.eqb_eq in Hd. subst d.
  assert (Hno : no_nl (45%N :: c :: rest)).
  { intros [Hx|Hin]; [discriminate Hx|].
    rewrite forallb_forall in Hall. apply Hall in Hin. discriminate Hin. }
  unfold lines_of. rewrite (@split_no_nl (45%N :: c :: rest) Hno). vm_compute. reflexivity.
Qed.

Lemma filter_isDiffGit_echo (d : shstring) :
  filter isDiffGit (echo_lines d) = filter isDiffGit (lines_of d).
Proof.
  destruct (echo_option d) eqn:Ho.
  - rewrite echo_option_no_header by exact Ho.
    destruct (echo_lines_option d Ho) as [H|H]; rewrite H; reflexivity.
  - rewrite echo_lines_plain by exact Ho. reflexivity.
Qed.

Lemma filter_nl_none (l : shstring) : no_nl l -> filter (N.eqb 10) l = [].
Proof.
  induction l as [|c l IH]; intros Hn; [reflexivity|].
  cbn [filter]. destruct (N.eqb 10 c) eqn:Hc.
  - apply N.eqb_eq in Hc. exfalso. apply Hn. left. symmetry. exact Hc.
  - apply IH. intros H. apply Hn. right. exact H.
Qed.

Lemma unlines_join (ls : list shstring) :
  ls <> [] -> unlines ls = join nl ls ++ nl.
Proof.
  induction ls as [|l ls IH]; intros Hne; [contradiction|].
  destruct ls as [|l' ls'].
  - unfold unlines. simpl. rewrite app_nil_r. reflexivity.
  - rewrite join_cons by discriminate.
    change (unlines (l :: l' :: ls')) with ((l ++ nl) ++ unlines (l' :: ls')).
    rewrite IH by discriminate. rewrite <- !app_assoc. reflexivity.
Qed.

(** [wc -l] counts the lines that were printed. *)
Lemma wc_l_unlines (ls : list shstring) :
  Forall no_nl ls -> wc_l (unlines ls) = List.length ls.
Proof.
  unfold wc_l. induction ls as [|l ls IH]; intros Hall; [reflexivity|].
  inversion Hall as [|? ? Hl Hls]; subst.
  change (unlines (l :: ls)) with ((l ++ nl) ++ unlines ls).
  rewrite !filter_app, (@filter_nl_none l Hl), length_app.
  rewrite IH by exact Hls. reflexivity.
Qed.

(** The count of the warning: the number of the paths, unless [echo]
    reads their text as options. *)
Lemma wc_l_echo_le (us : list shstring) :
  us <> [] -> Forall no_nl us ->
  wc_l (echo (join nl us)) <= List.length us
  /\ (echo_option (join nl us) = false ->
      wc_l (echo (join nl us)) = List.length us).
Proof.
  intros Hne Hall. unfold echo.
  assert (Hpos : 1 <= List.length us).
  { destruct us; [contradiction|simpl; lia]. }
  destruct (echo_option (join nl us)).
  - split; [|discriminate].
    destruct (existsb (N.eqb 110) (join nl us));
      [change (wc_l []) with 0 | change (wc_l nl) with 1]; lia.
  - rewrite <- unlines_join by exact Hne. rewrite wc_l_unlines by exact Hall.
    split; [lia|reflexivity].
Qed.

(** *** The membership test inside the fragment *)

Lemma ascii_sub (d e : shstring) :
  ascii_text d = true -> (forall c, In c e -> In c d) -> ascii_text e = true.
Proof.
  unfold ascii_text. intros Hd Hsub. apply forallb_forall. intros c Hc.
  rewrite forallb_forall in Hd. apply Hd, Hsub, Hc.
Qed.

Lemma modelled_sub (d e : shstring) :
  existsb bre_unmodelled d = false ->
  (forall c, In c e -> In c d) ->
  existsb bre_unmodelled e = false.
Proof.
  intros Hd Hsub. destruct (existsb bre_unmodelled e) eqn:He; [|reflexivity].
  apply existsb_exists in He as (c & Hin & Hc).
  assert (Ht : existsb bre_unmodelled d = true).
  { apply existsb_exists. exists c. split; [apply Hsub; exact Hin|exact Hc]. }
  congruence.
Qed.

Lemma listed_modelled (combinedFiles path : shstring) :
  ascii_text combinedFiles = true ->
  ascii_text path = true ->
  existsb bre_unmodelled path = false ->
  listed combinedFiles path
  = Some (existsb (dot_match path) (echo_lines combinedFiles)).
Proof.
  intros Hc Hp Hb. unfold listed. rewrite Hc, Hp, Hb. reflexivity.
Qed.

Lemma dot_match_nonempty (path line : shstring) :
  path <> [] -> dot_match path line = true -> line <> [].
Proof.
  intros Hp Hm ->. destruct path; [contradiction|discriminate Hm].
Qed.

Lemma bashHeaderPath_parts (line path : shstring) :
  bashHeaderPath line = Some path ->
  path <> [] /\ isDiffGit line = true /\ forall c, In c path -> In c line.
Proof.
  unfold bashHeaderPath.
  destruct (starts_with (sh "diff --git a/") line) eqn:Hp; [|discriminate].
  apply starts_with_app in Hp.
  destruct (skipn _ line) as [|c0 rest] eqn:Hrest; [discriminate|].
  destruct (AuditCommon.group1_tail rest) as [x|] eqn:Hg; [|discriminate].
  intros H. injection H as <-. split; [discriminate|]. split.
  - rewrite Hp. unfold isDiffGit.
    change (sh "diff --git a/") with (sh "diff --git" ++ sh " a/").
    rewrite <- app_assoc. apply starts_with_prefix.
  - intros c Hc. rewrite Hp. apply in_or_app. right.
    destruct (group1_tail_sound rest Hg) as (y & -> & _).
    destruct Hc as [<-|Hc]; [left; reflexivity|].
    right. apply in_or_app. left. exact Hc.
Qed.

(** The path of a header line of the fragment is in the fragment. *)
Lemma header_path_modelled (line path : shstring) :
  ascii_text line = true -> plain_header line = true ->
  bashHeaderPath line = Some path ->
  path <> [] /\ ascii_text path = true /\ existsb bre_unmodelled path = false.
Proof.
  intros Ha Hp Hh. destruct (bashHeaderPath_parts line Hh) as (Hne & Hgit & Hin).
  split; [exact Hne|]. split; [exact (@ascii_sub line path Ha Hin)|].
  unfold plain_header in Hp. rewrite Hgit in Hp. cbn [negb orb] in Hp.
  apply negb_true_iff in Hp. exact (@modelled_sub line path Hp Hin).
Qed.

(** Inside the fragment the second loop runs to its end. *)
Lemma stripLines_defined (combinedFiles : shstring) (lines : list shstring) :
  ascii_text combinedFiles = true ->
  forallb ascii_text lines = true ->
  forallb plain_header lines = true ->
  forall filtered_diff include_lines,
  exists out, stripLines combinedFiles lines filtered_diff include_lines = Some out.
Proof.
  intros Hcf. induction lines as [|line rest IH]; intros Ha Hp acc inc.
  - exists acc. reflexivity.
  - cbn [forallb] in Ha, Hp.
    apply andb_true_iff in Ha as [Hal Har].
    apply andb_true_iff in Hp as [Hpl Hpr].
    cbn [stripLines]. rewrite Hal.
    destruct (bashHeaderPath line) as [path|] eqn:Hh.
    + destruct (@header_path_modelled line path Hal Hpl Hh) as (_ & Hpa & Hpb).
      rewrite (@listed_modelled combinedFiles path Hcf Hpa Hpb).
      destruct (existsb (dot_match path) (echo_lines combinedFiles));
        apply IH; assumption.
    + destruct inc; apply IH; assumption.
Qed.

(** X14. What the strip loop guarantees, for a list of files and lines
    of ASCII text whose [diff --git] lines hold no backslash, bracket,
    star, caret or dollar: the loop runs to its end; the diff it builds
    is made of lines of the diff it read, each with its line feed; every
    header line it keeps has a path that, read as a pattern, matches a
    line of [combinedFiles]; and when that path holds no dot it is
    itself a line of [combinedFiles]. *)
Theorem strip_keeps_only_listed (combinedFiles : shstring)
    (lines : list shstring) :
  ascii_text combinedFiles = true ->
  forallb ascii_text lines = true ->
  forallb plain_header lines = true ->
  exists out kept,
    stripLines combinedFiles lines [] true = Some out
    /\ out = unlines kept
    /\ incl kept lines
    /\ forall line path,
         In line kept -> bashHeaderPath line = Some path ->
         (exists listedLine,
            In listedLine (lines_of combinedFiles)
            /\ dot_match path listedLine = true)
         /\ (existsb (N.eqb 46) path = false ->
             In path (lines_of combinedFiles)).
Proof.
  intros Hcf Ha Hp.
  destruct (@stripLines_defined combinedFiles lines Hcf Ha Hp [] true)
    as [out Hout].
  pose proof Hout as H.
  apply stripLines_keeps_listed in H as (kept & Heq & Hincl & Hall).
  exists out, kept. split; [exact Hout|]. split; [exact Heq|].
  split; [exact Hincl|].
  intros line path Hin Hh. rewrite Forall_forall in Hall.
  pose proof (Hall line Hin path Hh) as Hl.
  rewrite forallb_forall in Ha, Hp.
  destruct (@header_path_modelled line path (Ha line (Hincl line Hin))
              (Hp line (Hincl line Hin)) Hh) as (Hne & Hpa & Hpb).
  rewrite (@listed_modelled combinedFiles path Hcf Hpa Hpb) in Hl. injection Hl as Hl.
  apply existsb_exists in Hl as (l & Hlin & Hm).
  pose proof (@dot_match_nonempty path l Hne Hm) as Hlne.
  split.
  - exists l. split; [apply echo_lines_sub; assumption|exact Hm].
  - intros Hdot. apply dot_match_exact in Hm; [|exact Hdot]. subst l.
    apply echo_lines_sub; assumption.
Qed.

Lemma strip_keeps_only_listed_witness :
  exists out kept,
    stripLines (sh "a.ts") (lines_of scopedScenarioDiff) [] true = Some out
    /\ out = unlines kept
    /\ incl kept (lines_of scopedScenarioDiff)
    /\ forall line path,
         In line kept -> bashHeaderPath line = Some path ->
         (exists listedLine,
            In listedLine (lines_of (sh "a.ts"))
            /\ dot_match path listedLine = true)
         /\ (existsb (N.eqb 46) path = false -> In path (lines_of (sh "a.ts"))).
Proof.
  apply (@strip_keeps_only_listed (sh "a.ts") (lines_of scopedScenarioDiff));
    vm_compute; reflexivity.
Defined.

Lemma split_In (s line : jsstring) (c : N) :
  In line (split 10 s) -> In c line -> In c s.
Proof.
  revert line; induction s as [|x s IH]; intros line Hl Hc; simpl in Hl.
  - destruct Hl as [<-|[]]. exact Hc.
  - destruct (N.eqb x 10).
    + destruct Hl as [<-|Hl]; [destruct Hc|]. right. eapply IH; eassumption.
    + destruct (split 10 s) as [|l ls] eqn:Hs.
      * destruct Hl as [<-|[]]. destruct Hc as [<-|[]]. left. reflexivity.
      * destruct Hl as [<-|Hl].
        { destruct Hc as [<-|Hc]; [left; reflexivity|].
          right. apply (IH l); [left; reflexivity|exact Hc]. }
        { right. apply (IH line); [right; exact Hl|exact Hc]. }
Qed.

Lemma take_while_In (f : N -> bool) (s : shstring) (c : N) :
  In c (take_while f s) -> In c s.
Proof.
  induction s as [|x s IH]; simpl; [tauto|].
  destruct (f x); [|intros []]. intros [H|H]; [left; exact H|right; auto].
Qed.

Lemma skipn_In (n : nat) (s : shstring) (c : N) :
  In c (skipn n s) -> In c s.
Proof.
  intros H. rewrite <- (firstn_skipn n s). apply in_or_app. right. exact H.
Qed.

(** What [sed] prints for a line is made of bytes of the line, and is
    not empty when the line is not. *)
Lemma sedHeaderPath_In (line : shstring) (c : N) :
  In c (sedHeaderPath line) -> In c line.
Proof.
  unfold sedHeaderPath.
  destruct (starts_with _ line); [|tauto].
  destruct (_ && _); [|tauto].
  intros H. apply take_while_In, skipn_In in H. exact H.
Qed.

Lemma sedHeaderPath_nonempty (line : shstring) :
  line <> [] -> sedHeaderPath line <> [].
Proof.
  intros Hl. unfold sedHeaderPath.
  destruct (starts_with _ line); [|exact Hl].
  destruct (nonempty (take_while not_space _)) eqn:Hx; simpl; [|exact Hl].
  destruct (_ && _); [|exact Hl].
  destruct (take_while not_space _); [discriminate|discriminate].
Qed.

Lemma join_last_byte (ls : list shstring) :
  ls <> [] ->
  Forall (fun l => l <> [] /\ no_nl l) ls ->
  exists s c, join nl ls = s ++ [c] /\ c <> 10%N.
Proof.
  induction ls as [|l ls IH]; intros Hne Hall; [contradiction|].
  inversion Hall as [|? ? [Hl Hn] Hrest]; subst.
  destruct ls as [|l' ls'].
  - simpl. destruct (exists_last Hl) as (s & c & ->).
    exists s, c. split; [reflexivity|].
    intros ->. apply Hn. apply in_or_app. right. left. reflexivity.
  - rewrite join_cons by discriminate.
    destruct (IH ltac:(discriminate) Hrest) as (s & c & -> & Hc).
    exists (l ++ nl ++ s), c. rewrite <- !app_assoc. split; [reflexivity|exact Hc].
Qed.

(** The printed lines, read back from the variable they went into. *)
Lemma lines_of_cmdsubst_unlines (ls : list shstring) :
  ls <> [] ->
  Forall (fun l => l <> [] /\ no_nl l) ls ->
  lines_of (cmdsubst (unlines ls)) = ls.
Proof.
  intros Hne Hall.
  destruct (join_last_byte Hne Hall) as (s & c & Hj & Hc).
  assert (Hcmd : cmdsubst (unlines ls) = join nl ls).
  { rewrite unlines_join by exact Hne. rewrite Hj. unfold cmdsubst.
    rewrite !rev_app_distr.
    change (rev nl ++ rev [c] ++ rev s) with (10%N :: c :: rev s).
    assert (H10 : N.eqb 10 c = false).
    { apply N.eqb_neq. intros H. apply Hc. symmetry. exact H. }
    cbn [drop_while]. rewrite N.eqb_refl, H10. cbn [rev].
    rewrite rev_involutive. reflexivity. }
  rewrite Hcmd. unfold lines_of. apply split_join; [exact Hne|].
  apply Forall_impl with (2 := Hall). tauto.
Qed.

(** The header paths that section 8 walks through. *)
Lemma diffFiles_lines (d : shstring) :
  Forall (fun l => l <> [] /\ no_nl l) (diffPaths d)
  /\ (diffPaths d <> [] -> lines_of (diffFiles d) = diffPaths d)
  /\ (diffPaths d = [] -> lines_of (diffFiles d) = [[]]).
Proof.
  assert (Hall : Forall (fun l => l <> [] /\ no_nl l) (diffPaths d)).
  { unfold diffPaths. apply Forall_forall. intros e He.
    apply in_map_iff in He as (line & <- & Hline).
    apply filter_In in Hline as [Hin Hd]. split.
    - apply sedHeaderPath_nonempty. intros ->. discriminate Hd.
    - intros H10. apply sedHeaderPath_In in H10.
      pose proof (split_lines_no_nl d) as Hno. rewrite Forall_forall in Hno.
      exact (Hno line Hin H10). }
  assert (Heq : diffFiles d = cmdsubst (unlines (diffPaths d))).
  { unfold diffFiles, diffPaths. rewrite filter_isDiffGit_echo. reflexivity. }
  split; [exact Hall|]. split.
  - intros Hne. rewrite Heq. apply lines_of_cmdsubst_unlines; assumption.
  - intros Hnil. rewrite Heq, Hnil. reflexivity.
Qed.

(** The paths of the first loop are in the fragment when the diff is. *)
Lemma diffPaths_modelled (d : shstring) :
  ascii_text d = true ->
  forallb plain_header (lines_of d) = true ->
  Forall (fun e => e <> [] /\ existsb bre_unmodelled e = false
                   /\ ascii_text e = true) (diffPaths d).
Proof.
  intros Hd Hp. unfold diffPaths. apply Forall_forall. intros e He.
  apply in_map_iff in He as (line & <- & Hline).
  apply filter_In in Hline as [Hin Hgit].
  rewrite forallb_forall in Hp. pose proof (Hp line Hin) as Hpl.
  unfold plain_header in Hpl. rewrite Hgit in Hpl. cbn [negb orb] in Hpl.
  apply negb_true_iff in Hpl.
  split; [apply sedHeaderPath_nonempty; intros ->; discriminate Hgit|].
  split.
  - apply (@modelled_sub line (sedHeaderPath line) Hpl).
    intros c Hc. apply sedHeaderPath_In. exact Hc.
  - apply (@ascii_sub d (sedHeaderPath line) Hd).
    intros c Hc. apply (split_In d line c Hin). apply sedHeaderPath_In. exact Hc.
Qed.

(** The first loop counts every path and collects those that no line
    matches. *)
Lemma checkDiffFiles_spec (combinedFiles : shstring) (dfs : list shstring) :
  ascii_text combinedFiles = true ->
  Forall (fun e => e <> [] /\ existsb bre_unmodelled e = false
                   /\ ascii_text e = true) dfs ->
  forall count unexpected,
  checkDiffFiles combinedFiles dfs count unexpected
  = Some (count + List.length dfs,
          unexpected
          ++ filter (fun path =>
                       negb (existsb (dot_match path) (echo_lines combinedFiles)))
               dfs).
Proof.
  intros Hcf. induction dfs as [|df rest IH]; intros Hall c u;
    cbn [checkDiffFiles].
  - cbn [filter List.length]. rewrite Nat.add_0_r, app_nil_r. reflexivity.
  - inversion Hall as [|? ? (Hne & Hb & Ha) Hrest]; subst.
    destruct df as [|x df']; [contradiction|].
    change (nonempty (x :: df')) with true. cbv iota.
    rewrite (@listed_modelled combinedFiles (x :: df') Hcf Ha Hb). cbn [filter List.length].
    destruct (existsb (dot_match (x :: df')) (echo_lines combinedFiles));
      cbn [negb]; rewrite IH by exact Hrest.
    + f_equal. f_equal. lia.
    + rewrite <- app_assoc. f_equal. f_equal. lia.
Qed.

Lemma lines_ascii (d : shstring) :
  ascii_text d = true -> forallb ascii_text (lines_of d) = true.
Proof.
  intros Hd. apply forallb_forall. intros line Hin.
  apply (@ascii_sub d line Hd). intros c Hc. exact (split_In d line c Hin Hc).
Qed.

(** Section 8 inside the fragment, in one equation. *)
Lemma verifyDiff_spec (combinedFiles d : shstring) :
  ascii_text combinedFiles = true ->
  ascii_text d = true ->
  forallb plain_header (lines_of d) = true ->
  verifyDiff combinedFiles d
  = match unlistedPaths combinedFiles d with
    | [] => Some (mkVerified d (List.length (diffPaths d)) 0)
    | u :: us =>
      match stripLines combinedFiles (lines_of d) [] true with
      | Some out =>
        Some (mkVerified out (List.length (diffPaths d))
                (wc_l (echo (join nl (u :: us)))))
      | None => None
      end
    end.
Proof.
  intros Hcf Hd Hp. unfold verifyDiff, unlistedPaths. rewrite Hcf, Hd.
  cbn [andb]. cbv iota.
  pose proof (@diffPaths_modelled d Hd Hp) as Hmod.
  destruct (diffFiles_lines d) as (_ & Hne & Hnil).
  destruct (diffPaths d) as [|e L] eqn:HL.
  - rewrite (Hnil eq_refl). reflexivity.
  - rewrite (Hne ltac:(discriminate)).
    rewrite (@checkDiffFiles_spec combinedFiles (e :: L) Hcf Hmod 0 []).
    cbn [app Nat.add].
    destruct (filter _ (e :: L)); reflexivity.
Qed.



(** Against an empty list no path is listed. *)
Lemma unlisted_by_empty (paths : list shstring) :
  Forall (fun e => e <> []) paths ->
  filter (fun path => negb (existsb (dot_match path) (echo_lines []))) paths
  = paths.
Proof.
  intros Hall. apply forallb_filter_id. apply forallb_forall. intros p Hp.
  rewrite Forall_forall in Hall. specialize (Hall p Hp).
  destruct p as [|c p]; [contradiction|reflexivity].
Qed.

(** Against an empty list, once a header was left out, everything that
    follows is left out. *)
Lemma stripLines_all_unlisted (lines : list shstring) :
  forallb ascii_text lines = true ->
  forallb plain_header lines = true ->
  stripLines [] lines [] false = Some [].
Proof.
  induction lines as [|line rest IH]; intros Ha Hp; [reflexivity|].
  cbn [forallb] in Ha, Hp.
  apply andb_true_iff in Ha as [Hal Har].
  apply andb_true_iff in Hp as [Hpl Hpr].
  cbn [stripLines]. rewrite Hal.
  destruct (bashHeaderPath line) as [path|] eqn:Hh; [|apply IH; assumption].
  destruct (@header_path_modelled line path Hal Hpl Hh) as (Hne & Hpa & Hpb).
  rewrite (@listed_modelled [] path eq_refl Hpa Hpb).
  destruct path as [|c path]; [contradiction|].
  change (existsb (dot_match (c :: path)) (echo_lines [])) with false.
  cbv iota. apply IH; assumption.
Qed.

(** X16. With an empty list of files the scoper empties the diff: for a
    diff of ASCII text that starts with a header line and whose
    [diff --git] lines hold no backslash, bracket, star, caret or
    dollar, no line is kept and every [diff --git] line is counted as a
    file; the count of the warning is that number too, unless [echo]
    reads the text of the paths as options (one path such as [-n]). *)
Theorem empty_scope_empties_diff (d : shstring) :
  ascii_text d = true ->
  forallb plain_header (lines_of d) = true ->
  (exists path, bashHeaderPath (hd [] (lines_of d)) = Some path) ->
  let n := List.length (filter isDiffGit (lines_of d)) in
  0 < n
  /\ exists w,
       scopeDiff [] d = Some (mkVerified [] n w)
       /\ w <= n
       /\ (echo_option (join nl (diffPaths d)) = false -> w = n).
Proof.
  intros Hd Hp [path Hhead] n.
  assert (Hn : List.length (diffPaths d) = n).
  { unfold diffPaths, n. apply length_map. }
  pose proof (@lines_ascii d Hd) as Ha.
  destruct (diffFiles_lines d) as (Hall & _).
  assert (Hunl : unlistedPaths [] d = diffPaths d).
  { unfold unlistedPaths. apply unlisted_by_empty.
    apply Forall_impl with (2 := Hall). tauto. }
  assert (Hstrip : stripLines [] (lines_of d) [] true = Some []).
  { destruct (lines_of d) as [|line0 rest] eqn:Hlines.
    { exfalso. exact (split_not_nil 10 d Hlines). }
    cbn [hd] in Hhead. cbn [forallb] in Ha, Hp.
    apply andb_true_iff in Ha as [Hal Har].
    apply andb_true_iff in Hp as [Hpl Hpr].
    cbn [stripLines]. rewrite Hal, Hhead.
    destruct (@header_path_modelled line0 path Hal Hpl Hhead) as (Hne & Hpa & Hpb).
    rewrite (@listed_modelled [] path eq_refl Hpa Hpb).
    destruct path as [|c path]; [contradiction|].
    change (existsb (dot_match (c :: path)) (echo_lines [])) with false.
    cbv iota. apply stripLines_all_unlisted; assumption. }
  assert (Hpos : 0 < n).
  { unfold n. destruct (lines_of d) as [|line0 rest] eqn:Hlines.
    { exfalso. exact (split_not_nil 10 d Hlines). }
    cbn [hd] in Hhead.
    destruct (bashHeaderPath_parts line0 Hhead) as (_ & Hgit & _).
    cbn [filter]. rewrite Hgit. cbn [List.length]. lia. }
  split; [exact Hpos|].
  unfold scopeDiff. rewrite restrictDiff_unchanged.
  rewrite (@verifyDiff_spec [] d eq_refl Hd Hp), Hunl, Hstrip, Hn.
  destruct (diffPaths d) as [|u us] eqn:Hpaths.
  { exfalso. cbn [List.length] in Hn. lia. }
  assert (Hno : Forall no_nl (u :: us)).
  { apply Forall_impl with (2 := Hall). tauto. }
  destruct (@wc_l_echo_le (u :: us) ltac:(discriminate) Hno) as [Hle Heq].
  exists (wc_l (echo (join nl (u :: us)))).
  split; [reflexivity|]. rewrite Hn in Hle, Heq. split; [exact Hle|exact Heq].
Qed.

Lemma empty_scope_empties_diff_witness :
  (0 < 2)
  /\ exists w,
       scopeDiff [] scopedScenarioDiff = Some (mkVerified [] 2 w)
       /\ w <= 2
       /\ (echo_option (join nl (diffPaths scopedScenarioDiff)) = false -> w = 2).
Proof.
  apply (@empty_scope_empties_diff scopedScenarioDiff).
  - vm_compute. reflexivity.
  - vm_compute. reflexivity.
  - exists (sh "a.ts"). vm_compute. reflexivity.
Defined.

(* ================================================================== *)
(** ** The arguments and the ignore file of the request builder *)
(* ================================================================== *)

Import PreAuditSetup.

(** An argument of digits is no flag. *)
Lemma all_digits_no_flag (s : shstring) :
  all_digits s = true -> isHttpFlag s = false /\ isSendFlag s = false.
Proof.
  unfold all_digits, isHttpFlag, isSendFlag.
  destruct s as [|c s]; [discriminate|]. simpl forallb.
  intros H. apply andb_true_iff in H as [_ H].
  apply andb_true_iff in H as [Hc _].
  unfold is_digit in Hc. apply andb_true_iff in Hc as [Hlo _].
  apply N.leb_le in Hlo.
  assert (H45 : N.eqb c 45 = false) by (apply N.eqb_neq; lia).
  change (sh "-h") with [45%N; 104%N].
  change (sh "--http") with [45%N; 45%N; 104%N; 116%N; 116%N; 112%N].
  change (sh "--send") with [45%N; 45%N; 115%N; 101%N; 110%N; 100%N].
  cbn [jseqb]. rewrite H45. split; reflexivity.
Qed.

Lemma http_flag_not_send (arg : shstring) :
  isHttpFlag arg = true -> isSendFlag arg = false.
Proof.
  unfold isHttpFlag, isSendFlag. intros H.
  apply orb_true_iff in H as [H|H]; apply jseqb_eq in H; subst arg;
    vm_compute; reflexivity.
Qed.

(** The loop, from any settings, on lists of arguments up to a length. *)
Lemma parseArgs_general (n : nat) :
  forall (args : list shstring) (o : Options),
  List.length args <= n ->
  HTTP_MODE (parseArgs args o) = HTTP_MODE o || existsb isHttpFlag args
  /\ SEND_REQUEST (parseArgs args o) = SEND_REQUEST o || existsb isSendFlag args
  /\ (all_digits (MCP_PORT o) = true ->
      all_digits (MCP_PORT (parseArgs args o)) = true)
  /\ (existsb isHttpFlag args = false ->
      MCP_PORT (parseArgs args o) = MCP_PORT o).
Proof.
  induction n as [|n IH]; intros args o Hlen.
  - destruct args; [|simpl in Hlen; lia]. simpl. rewrite !orb_false_r. auto.
  - destruct args as [|arg rest].
    { simpl. rewrite !orb_false_r. auto. }
    simpl in Hlen. cbn [parseArgs existsb]. fold (isHttpFlag arg).
    fold (isSendFlag arg).
    destruct (isHttpFlag arg) eqn:Hh.
    + rewrite (http_flag_not_send arg Hh). rewrite orb_true_r. simpl orb.
      destruct rest as [|next rest'].
      * simpl. rewrite orb_false_r.
        repeat split; auto; try discriminate.
      * destruct (all_digits next) eqn:Hd.
        { destruct (all_digits_no_flag next Hd) as [Hnh Hns].
          destruct (IH rest' (mkOptions true (SEND_REQUEST o) next)
                      ltac:(simpl in Hlen; lia)) as (H1 & H2 & H3 & H4).
          cbn [existsb]. rewrite Hns. simpl orb.
          rewrite H1, H2. simpl.
          repeat split; auto; try discriminate. }
        { destruct (IH (next :: rest')
                      (mkOptions true (SEND_REQUEST o) (MCP_PORT o))
                      ltac:(simpl in Hlen; simpl; lia)) as (H1 & H2 & H3 & H4).
          rewrite H1, H2. simpl.
          repeat split; auto; try discriminate. }
    + simpl orb. destruct (isSendFlag arg) eqn:Hs.
      * destruct (IH rest (mkOptions (HTTP_MODE o) true (MCP_PORT o))
                    ltac:(lia)) as (H1 & H2 & H3 & H4).
        rewrite H1, H2. simpl. rewrite orb_true_r. repeat split; auto.
      * destruct (IH rest o ltac:(lia)) as (H1 & H2 & H3 & H4).
        rewrite H1, H2. simpl. repeat split; auto.
Qed.

Lemma existsb_or (f g : shstring -> bool) (l : list shstring) :
  existsb (fun x => f x || g x) l = existsb f l || existsb g l.
Proof.
  induction l as [|x l IH]; [reflexivity|].
  simpl. rewrite IH. destruct (f x), (g x), (existsb f l); reflexivity.
Qed.

Lemma existsb_flag_In (flag : shstring) (args : list shstring) :
  existsb (fun arg => jseqb arg flag) args = true <-> In flag args.
Proof.
  rewrite existsb_exists. split.
  - intros (a & Hin & Heq). apply jseqb_eq in Heq. subst a. exact Hin.
  - intros Hin. exists flag. split; [exact Hin|apply jseqb_refl].
Qed.

(** X17. The flags are honoured wherever they stand: HTTP mode is on
    exactly when [-h] or [--http] is among the arguments, sending is on
    exactly when [--send] is among them, no flag is lost to the port
    that may follow [-h]; the port is always a number, and it is 3000
    when HTTP mode is off. *)
Theorem parseArgs_flags (args : list shstring) :
  let o := parseArgs args defaultOptions in
  (HTTP_MODE o = true <-> In (sh "-h") args \/ In (sh "--http") args)
  /\ (SEND_REQUEST o = true <-> In (sh "--send") args)
  /\ all_digits (MCP_PORT o) = true
  /\ (HTTP_MODE o = false -> MCP_PORT o = sh "3000").
Proof.
  intros o.
  destruct (parseArgs_general (n := List.length args) args defaultOptions
              (le_n _)) as (H1 & H2 & H3 & H4).
  fold o in H1, H2, H3, H4. simpl in H1, H2.
  assert (Hhttp : existsb isHttpFlag args = true
                  <-> In (sh "-h") args \/ In (sh "--http") args).
  { rewrite <- !existsb_flag_In. rewrite <- orb_true_iff.
    unfold isHttpFlag. rewrite existsb_or. reflexivity. }
  split; [rewrite H1; exact Hhttp|].
  split; [rewrite H2; apply existsb_flag_In|].
  split; [apply H3; reflexivity|].
  intros Hoff. apply H4. rewrite <- H1. exact Hoff.
Qed.

Lemma drop_while_snoc_keep (f : N -> bool) (l : jsstring) (c : N) :
  f c = false -> exists u, drop_while f (l ++ [c]) = u ++ [c].
Proof.
  intros Hc. induction l as [|x l IH]; simpl.
  - rewrite Hc. exists []. reflexivity.
  - destruct (f x); [exact IH|]. exists (x :: l). reflexivity.
Qed.

(** What [sed] leaves of a line ends with no white space. *)
Lemma sed_trim_last (line front : shstring) (c : N) :
  sed_trim line = front ++ [c] -> sh_space c = false.
Proof.
  unfold sed_trim. intros H. apply (f_equal (@rev N)) in H.
  rewrite rev_involutive, rev_app_distr in H. simpl in H.
  apply drop_while_head in H. exact H.
Qed.

(** And it starts where the white space at the start of the line ends. *)
Lemma sed_trim_first (line rest : shstring) (c : N) :
  sed_trim line = c :: rest ->
  exists t, drop_while sh_space line = c :: t /\ sh_space c = false.
Proof.
  unfold sed_trim. destruct (drop_while sh_space line) as [|c0 t] eqn:Ht.
  - simpl. discriminate.
  - pose proof (drop_while_head _ _ Ht) as Hc0.
    simpl rev. destruct (drop_while_snoc_keep sh_space (rev t) c0 Hc0) as [u ->].
    rewrite rev_app_distr. simpl. intros H. injection H as <- _.
    exists t. split; [reflexivity|exact Hc0].
Qed.

Lemma cmdsubst_line (s : shstring) :
  (forall front, s <> front ++ [10%N]) -> cmdsubst (s ++ nl) = s.
Proof.
  intros Hs. unfold cmdsubst. rewrite rev_app_distr.
  change (rev nl ++ rev s) with (10%N :: rev s).
  cbn [drop_while]. rewrite N.eqb_refl.
  destruct (rev s) as [|c r] eqn:Hr.
  - simpl. apply (f_equal (@rev N)) in Hr. rewrite rev_involutive in Hr.
    symmetry. exact Hr.
  - assert (Hs' : s = rev r ++ [c]).
    { apply (f_equal (@rev N)) in Hr. rewrite rev_involutive in Hr. exact Hr. }
    cbn [drop_while]. destruct (N.eqb 10 c) eqn:Hc.
    + apply N.eqb_eq in Hc. subst c. exfalso. exact (Hs (rev r) Hs').
    + symmetry. exact Hs'.
Qed.

(** A pattern that the loop adds is the trimmed text of its line. *)
Lemma trimmedLine_sed (line : shstring) :
  nonempty (trimmedLine line) = true -> trimmedLine line = sed_trim line.
Proof.
  unfold trimmedLine. destruct (echo_option line); [discriminate|].
  intros _. apply cmdsubst_line. intros front H.
  apply sed_trim_last in H. discriminate.
Qed.

Lemma fold_loadStep_spec (lines0 lines : list shstring) :
  forall acc,
  incl lines lines0 ->
  Forall (fun p => p <> []
                   /\ exists line, In line lines0 /\ is_comment line = false
                                   /\ p = sed_trim line) acc ->
  Forall (fun p => p <> []
                   /\ exists line, In line lines0 /\ is_comment line = false
                                   /\ p = sed_trim line)
         (fold_left loadStep lines acc).
Proof.
  induction lines as [|line rest IH]; intros acc Hincl Hacc; [exact Hacc|].
  simpl. apply IH.
  - intros x Hx. apply Hincl. right. exact Hx.
  - unfold loadStep.
    destruct (nonempty line && negb (is_comment line)) eqn:Hc; [|exact Hacc].
    destruct (nonempty (trimmedLine line)) eqn:Ht; [|exact Hacc].
    apply Forall_app. split; [exact Hacc|]. constructor; [|constructor].
    apply andb_true_iff in Hc as [_ Hc]. apply negb_true_iff in Hc. split.
    + destruct (trimmedLine line); [discriminate|discriminate].
    + exists line. split; [apply Hincl; left; reflexivity|].
      split; [exact Hc|]. apply trimmedLine_sed. exact Ht.
Qed.

Lemma drop_while_decomp (f : N -> bool) (s : jsstring) :
  exists pre, s = pre ++ drop_while f s /\ forallb f pre = true.
Proof.
  induction s as [|c s IH]; [exists []; split; reflexivity|].
  cbn [drop_while]. destruct (f c) eqn:Hc.
  - destruct IH as (pre & Heq & Hpre). exists (c :: pre). split.
    + cbn [app]. f_equal. exact Heq.
    + cbn [forallb]. rewrite Hc. exact Hpre.
  - exists []. split; reflexivity.
Qed.

Lemma drop_while_spaces (f : N -> bool) (pre s : jsstring) :
  forallb f pre = true -> drop_while f (pre ++ s) = drop_while f s.
Proof.
  induction pre as [|c pre IH]; intros H; [reflexivity|].
  cbn [forallb] in H. apply andb_true_iff in H as [Hc Hpre].
  cbn [app drop_while]. rewrite Hc. apply IH. exact Hpre.
Qed.

Lemma forallb_rev (f : N -> bool) (l : jsstring) :
  forallb f l = true -> forallb f (rev l) = true.
Proof.
  intros H. apply forallb_forall. intros x Hx. apply in_rev in Hx.
  rewrite forallb_forall in H. apply H. exact Hx.
Qed.

(** What [sed] takes off a line is white space at its two ends. *)
Lemma sed_trim_decomp (line : shstring) :
  exists before after,
    line = before ++ sed_trim line ++ after
    /\ forallb sh_space before = true /\ forallb sh_space after = true.
Proof.
  destruct (drop_while_decomp sh_space line) as (before & Hline & Hb).
  destruct (drop_while_decomp sh_space (rev (drop_while sh_space line)))
    as (pre & Hrev & Hpre).
  exists before, (rev pre).
  split; [|split; [exact Hb|apply forallb_rev; exact Hpre]].
  unfold sed_trim.
  assert (Hmid : rev (drop_while sh_space (rev (drop_while sh_space line)))
                 ++ rev pre = drop_while sh_space line).
  { rewrite <- rev_app_distr, <- Hrev. apply rev_involutive. }
  rewrite Hmid. exact Hline.
Qed.

(** And it takes off all of it. *)
Lemma sed_trim_of_padded (before p after : shstring) :
  forallb sh_space before = true -> forallb sh_space after = true ->
  p <> [] -> sh_space (hd 32%N p) = false -> sh_space (last p 32%N) = false ->
  sed_trim (before ++ p ++ after) = p.
Proof.
  intros Hb Ha Hne Hh Hl. unfold sed_trim.
  rewrite drop_while_spaces by exact Hb.
  assert (Hfront : drop_while sh_space (p ++ after) = p ++ after).
  { destruct p as [|c p']; [contradiction|]. cbn [hd] in Hh.
    cbn [app drop_while]. rewrite Hh. reflexivity. }
  rewrite Hfront, rev_app_distr.
  rewrite drop_while_spaces by (apply forallb_rev; exact Ha).
  destruct (@exists_last _ p Hne) as (front & x & Hx). subst p.
  rewrite last_last in Hl. rewrite rev_app_distr. cbn [rev app drop_while].
  rewrite Hl. cbn [rev]. rewrite rev_involutive. reflexivity.
Qed.

Lemma is_comment_padded (before p after : shstring) :
  forallb sh_space before = true ->
  p <> [] -> sh_space (hd 32%N p) = false -> hd 32%N p <> 35%N ->
  is_comment (before ++ p ++ after) = false.
Proof.
  intros Hb Hne Hh Hhash. unfold is_comment.
  rewrite drop_while_spaces by exact Hb.
  destruct p as [|c p']; [contradiction|]. cbn [hd] in Hh, Hhash.
  cbn [app drop_while]. rewrite Hh. apply N.eqb_neq. exact Hhash.
Qed.

Lemma fold_loadStep_mono (lines : list shstring) :
  forall acc p, In p acc -> In p (fold_left loadStep lines acc).
Proof.
  induction lines as [|l rest IH]; intros acc p H; [exact H|].
  cbn [fold_left]. apply IH. unfold loadStep.
  destruct (nonempty l && negb (is_comment l)); [|exact H].
  destruct (nonempty (trimmedLine l)); [|exact H].
  apply in_or_app. left. exact H.
Qed.

(** A line of the file that passes both tests gives its pattern. *)
Lemma fold_loadStep_adds (lines : list shstring) :
  forall acc line,
  In line lines -> nonempty line = true -> is_comment line = false ->
  nonempty (trimmedLine line) = true ->
  In (trimmedLine line) (fold_left loadStep lines acc).
Proof.
  induction lines as [|l rest IH]; intros acc line Hin Hn Hc Ht;
    [destruct Hin|].
  cbn [fold_left]. destruct Hin as [->|Hin].
  - apply fold_loadStep_mono. unfold loadStep. rewrite Hn, Hc, Ht.
    cbn [negb andb]. apply in_or_app. right. left. reflexivity.
  - apply IH; assumption.
Qed.

(** X18. The patterns loaded from an ignore file of ASCII text.  Every
    pattern is a line of the file that is no comment, without the white
    space at its two ends: it is not empty, starts with no white space
    and no hash sign, and ends with no white space.  And every such line
    gives its pattern, unless [echo] reads the line as options (a line
    such as [-n]), which is then lost. *)
Theorem loadIgnorePatterns_trimmed (content : shstring) :
  ascii_text content = true ->
  exists patterns,
    loadIgnorePatterns (Some content) = Some patterns
    /\ (forall pattern,
          In pattern patterns ->
          pattern <> []
          /\ sh_space (hd 32%N pattern) = false
          /\ hd 32%N pattern <> 35%N
          /\ sh_space (last pattern 32%N) = false
          /\ exists line before after,
               In line (readLines content)
               /\ line = before ++ pattern ++ after
               /\ forallb sh_space before = true
               /\ forallb sh_space after = true)
    /\ (forall before pattern after,
          In (before ++ pattern ++ after) (readLines content) ->
          forallb sh_space before = true ->
          forallb sh_space after = true ->
          pattern <> [] ->
          sh_space (hd 32%N pattern) = false ->
          hd 32%N pattern <> 35%N ->
          sh_space (last pattern 32%N) = false ->
          echo_option (before ++ pattern ++ after) = false ->
          In pattern patterns).
Proof.
  intros Hascii. unfold loadIgnorePatterns. rewrite Hascii.
  exists (fold_left loadStep (readLines content) []).
  split; [reflexivity|]. split.
  - intros pattern Hin.
    pose proof (@fold_loadStep_spec (readLines content) (readLines content) []
                  (incl_refl _) (Forall_nil _)) as Hall.
    rewrite Forall_forall in Hall.
    destruct (Hall pattern Hin) as (Hne & line & Hline & Hcomment & Heq).
    split; [exact Hne|].
    destruct pattern as [|c rest]; [contradiction|].
    destruct (sed_trim_first line (eq_sym Heq)) as (t & Hdrop & Hc).
    split; [exact Hc|]. split.
    + cbn [hd]. intros ->. unfold is_comment in Hcomment.
      rewrite Hdrop in Hcomment. discriminate.
    + split.
      * destruct (@exists_last _ (c :: rest) ltac:(discriminate))
          as (front & x & Hx).
        rewrite Hx, last_last. rewrite Hx in Heq.
        apply (@sed_trim_last line front x). symmetry. exact Heq.
      * destruct (sed_trim_decomp line) as (before & after & Hdec & Hb & Ha).
        exists line, before, after. rewrite Heq.
        split; [exact Hline|]. split; [exact Hdec|]. split; assumption.
  - intros before pattern after Hin Hb Ha Hne Hh Hhash Hl Hecho.
    pose proof (@sed_trim_of_padded before pattern after Hb Ha Hne Hh Hl) as Htrim.
    assert (Htl : trimmedLine (before ++ pattern ++ after) = pattern).
    { unfold trimmedLine. rewrite Hecho, Htrim. apply cmdsubst_line.
      intros front Hfront. rewrite Hfront, last_last in Hl. discriminate Hl. }
    rewrite <- Htl. apply fold_loadStep_adds.
    + exact Hin.
    + destruct pattern as [|c p]; [contradiction|].
      destruct before; reflexivity.
    + apply (@is_comment_padded before pattern after); assumption.
    + rewrite Htl. destruct pattern; [contradiction|reflexivity].
Qed.

Lemma loadIgnorePatterns_trimmed_witness :
  exists patterns,
    loadIgnorePatterns (Some sampleIgnoreFile) = Some patterns
    /\ patterns = [sh "dist/.*"; sh ".*\.lock"]
    /\ (forall pattern,
          In pattern patterns ->
          pattern <> []
          /\ sh_space (hd 32%N pattern) = false
          /\ hd 32%N pattern <> 35%N
          /\ sh_space (last pattern 32%N) = false
          /\ exists line before after,
               In line (readLines sampleIgnoreFile)
               /\ line = before ++ pattern ++ after
               /\ forallb sh_space before = true
               /\ forallb sh_space after = true).
Proof.
  destruct (@loadIgnorePatterns_trimmed sampleIgnoreFile)
    as (patterns & Hload & Hsound & _); [vm_compute; reflexivity|].
  exists patterns. split; [exact Hload|]. split; [|exact Hsound].
  assert (Hrun : loadIgnorePatterns (Some sampleIgnoreFile)
                 = Some [sh "dist/.*"; sh ".*\.lock"])
    by (vm_compute; reflexivity).
  rewrite Hrun in Hload. injection Hload as <-. reflexivity.
Defined.

(* ================================================================== *)
(** ** The transports and the first server *)
(* ================================================================== *)

Import Transports.

(** What [performAudit] leaves written, by its outcome. *)
Lemma performAudit_written (h : Host) (inputData : AuditRequest) (w w' : World)
    (o : Outcome AuditReport) :
  performAudit h inputData w = (w', o) ->
  match o with
  | Returned r =>
    status r = lit "success"
    /\ written w' = map_set (reportPath r) (aiReport r) (written w)
  | Thrown _ => written w' = written w
  end.
Proof.
  destruct (callOpenAIAudit_run h inputData w) as (posted & out & Hrun & _ & _).
  unfold performAudit, tryCatch, bind. rewrite Hrun.
  destruct out as [report|e].
  - unfold saveAuditReport.
    destruct (writeRefused h _); simpl; intros H; injection H as <- <-.
    + reflexivity.
    + split; reflexivity.
  - simpl. intros H. injection H as <- <-. reflexivity.
Qed.

(** X19. [processJsonRpcRequest] never throws and answers with the id of
    the request.  For a method other than [tool/audit] it answers error
    -32601 and does nothing else: no request is posted, no file written.
    For [tool/audit] it answers the result of [performAudit], or error
    -32000 with the message of what [performAudit] threw; and whenever
    it answers an error, no report was written. *)
Theorem processJsonRpcRequest_answers (h : Host) (request : JsonRpcRequest)
    (w : World) :
  exists w' resp,
    processJsonRpcRequest h request w = (w', Returned resp)
    /\ match resp with RpcResult i _ => i | RpcError i _ _ => i end = id request
    /\ (method request <> lit "tool/audit" ->
        w' = w
        /\ resp = RpcError (id request) (-32601)
                    (lit "Method not found: " ++ method request))
    /\ (method request = lit "tool/audit" ->
        match performAudit h (params request) w with
        | (w1, Returned r) => w' = w1 /\ resp = RpcResult (id request) r
        | (w1, Thrown e) => w' = w1 /\ resp = RpcError (id request) (-32000) e
        end)
    /\ (forall i code message,
          resp = RpcError i code message -> written w' = written w).
Proof.
  unfold processJsonRpcRequest.
  destruct (jseqb (method request) (lit "tool/audit")) eqn:Hm;
    cbn [negb]; cbv iota.
  - apply jseqb_eq in Hm.
    unfold tryCatch, bind, ret.
    destruct (performAudit h (params request) w) as [w1 [r|e]] eqn:Hrun.
    + eexists _, _. split; [reflexivity|]. split; [reflexivity|].
      split; [intros Hne; contradiction|]. split; [intros _; auto|].
      intros i code message H. discriminate H.
    + eexists _, _. split; [reflexivity|]. split; [reflexivity|].
      split; [intros Hne; contradiction|]. split; [intros _; auto|].
      intros _ _ _ _. exact (performAudit_written _ _ _ Hrun).
  - eexists _, _. split; [reflexivity|]. split; [reflexivity|].
    split; [auto|]. split.
    + intros Heq. rewrite Heq, jseqb_refl in Hm. discriminate.
    + intros _ _ _ _. reflexivity.
Qed.

(** X20. The POST handler never throws and never answers 500 for a body
    whose fields have their types: it answers 400, with error -32600 and
    no effect, exactly when the body, a non-empty method or the params
    are missing, and 200 otherwise, failures of the audit included. *)
Theorem postRoot_status (h : Host) (body : option Body) (w : World) :
  exists w' r,
    postRoot h body w = (w', Returned r)
    /\ (http_status r = 200%N \/ http_status r = 400%N)
    /\ (http_status r = 400%N
        <-> (body = None
             \/ exists b, body = Some b
                          /\ (truthy_opt (body_method b) = false
                              \/ body_params b = None)))
    /\ (http_status r = 400%N ->
        w' = w
        /\ reply r = RpcError (idOrNull body) (-32600)
                       (lit "Invalid Request: JSON-RPCリクエストの形式が不正です")).
Proof.
  unfold postRoot, tryCatch.
  destruct body as [b|].
  - destruct (body_method b) as [m|] eqn:Hmeth.
    + destruct (body_params b) as [p|] eqn:Hpar.
      * destruct (truthy m) eqn:Htm.
        { unfold bind.
          destruct (processJsonRpcRequest_answers h
                      (mkJsonRpcRequest (body_id b) m p) w)
            as (w1 & resp & Hrun & _).
          rewrite Hrun. eexists _, _. split; [reflexivity|]. simpl.
          split; [left; reflexivity|]. split.
          - split; [discriminate|].
            intros [H|(b' & Hb & [Hf|Hn])]; [discriminate| |].
            + injection Hb as <-. rewrite Hmeth in Hf. simpl in Hf. congruence.
            + injection Hb as <-. congruence.
          - discriminate. }
        { eexists _, _. split; [reflexivity|]. simpl.
          split; [right; reflexivity|]. split; [|auto].
          split; [|reflexivity]. intros _. right. exists b.
          split; [reflexivity|]. left. rewrite Hmeth. exact Htm. }
      * eexists _, _. split; [reflexivity|]. simpl.
        split; [right; reflexivity|]. split; [|auto].
        split; [|reflexivity]. intros _. right. exists b.
        split; [reflexivity|]. right. exact Hpar.
    + eexists _, _. split; [reflexivity|]. simpl.
      split; [right; reflexivity|]. split; [|auto].
      split; [|reflexivity]. intros _. right. exists b.
      split; [reflexivity|]. left. rewrite Hmeth. reflexivity.
  - eexists _, _. split; [reflexivity|]. simpl.
    split; [right; reflexivity|]. split; [|auto].
    split; [|reflexivity]. intros _. left. reflexivity.
Qed.

(** X21. The [audit] tool never throws.  It flags its answer as an error
    exactly when [performAudit] threw, and then carries the message and
    no report was written; otherwise it carries the report that
    [performAudit] returned, which was written under the returned
    path. *)
Theorem auditTool_answers (h : Host) (params : AuditRequest) (w : World) :
  exists w' resp,
    auditTool h params w = (w', Returned resp)
    /\ match performAudit h params w with
       | (w1, Returned r) =>
         w' = w1 /\ resp = mkToolResponse (ToolSucceeded r) false
         /\ status r = lit "success"
         /\ written w' = map_set (reportPath r) (aiReport r) (written w)
       | (w1, Thrown e) =>
         w' = w1 /\ resp = mkToolResponse (ToolFailed e) true
         /\ written w' = written w
       end
    /\ (isError resp = true <-> exists e, payload resp = ToolFailed e).
Proof.
  unfold auditTool, tryCatch, bind.
  destruct (performAudit h params w) as [w1 [r|e]] eqn:Hrun.
  - pose proof (performAudit_written _ _ _ Hrun) as [Hs Hw].
    eexists _, _. split; [reflexivity|]. split; [auto|].
    simpl. split; [discriminate|]. intros [e H]. discriminate H.
  - pose proof (performAudit_written _ _ _ Hrun) as Hw.
    eexists _, _. split; [reflexivity|]. split; [auto|].
    simpl. split; [intros _; exists e; reflexivity|reflexivity].
Qed.

(** X22. The first server posts one request at most, and always to
    OpenAI.  With a key that holds more than white space its audit posts
    exactly one request, whatever the size of the diff and whatever
    provider is selected: to the OpenAI endpoint, with that key, the
    model [gpt-3.5-turbo], 800 tokens, its system message and a user
    message that carries the whole diff; the outcome of the audit is
    that of this one request.  With a key that is unset or blank it
    throws before posting. *)
Theorem first_server_posts_once (h : Host) (inputData : AuditRequest) (w : World) :
  (forall apiKey,
     OPENAI_API_KEY (env h) = Some apiKey ->
     existsb (fun c => negb (js_whitespace c)) apiKey = true ->
     exists req,
       AuditServer.callOpenAIAudit h inputData w
       = (mkWorld (sent w ++ [req]) (written w),
          match fetch h (sent w) req with
          | FetchRejected e => Thrown e
          | NotOk status errText =>
            Thrown (lit "OpenAI API エラー: " ++ show_N status ++ nl ++ errText)
          | OkJson (Some completion) => Returned completion
          | OkJson None => Returned []
          end)
       /\ url req = lit "https://api.openai.com/v1/chat/completions"
       /\ bearer req = apiKey
       /\ model req = lit "gpt-3.5-turbo"
       /\ max_tokens req = 800%N
       /\ messages req
          = [ mkMessage (lit "system")
                (lit "あなたはソフトウェア監査ツールです。与えられた「リクエスト」「変更内容」「差分」「function_list」「変更ファイル一覧」を確認し、"
                 ++ nl ++ lit "- 指示していない変更がないか"
                 ++ nl ++ lit "- 既存機能が削除されていないか"
                 ++ nl ++ lit "- TODO / FIXME が残っていないか"
                 ++ nl ++ lit "などを点検し、問題点があれば箇条書きで指摘してください。");
              mkMessage (lit "user")
                (nl ++ lit "【リクエスト】:" ++ nl
                 ++ request inputData ++ nl
                 ++ nl ++ lit "【修正内容の概要】:" ++ nl
                 ++ modification_description inputData ++ nl
                 ++ nl ++ lit "【変更されたファイル】:" ++ nl
                 ++ match changed_files inputData with
                    | Some files =>
                      if truthy (join nl files) then join nl files
                      else lit "（なし）"
                    | None => lit "（なし）"
                    end ++ nl
                 ++ nl ++ lit "【function_list.txt の内容】:" ++ nl
                 ++ lit "```" ++ nl
                 ++ function_list inputData ++ nl
                 ++ lit "```" ++ nl
                 ++ nl ++ lit "【コード差分】:" ++ nl
                 ++ lit "```diff" ++ nl
                 ++ code_changes inputData ++ nl
                 ++ lit "```" ++ nl) ])
  /\ ((OPENAI_API_KEY (env h) = None
       \/ exists apiKey,
            OPENAI_API_KEY (env h) = Some apiKey
            /\ existsb (fun c => negb (js_whitespace c)) apiKey = false) ->
      AuditServer.callOpenAIAudit h inputData w
      = (w, Thrown (lit "環境変数 OPENAI_API_KEY が設定されていません。"))).
Proof.
  unfold AuditServer.callOpenAIAudit. split.
  - intros apiKey Hk Hns. rewrite Hk, truthy_trim, Hns.
    assert (Ht : truthy apiKey = true).
    { destruct apiKey; [discriminate|reflexivity]. }
    rewrite Ht. cbn [negb orb].
    exists (AuditServer.auditRequestOf apiKey inputData).
    split.
    + unfold bind, doFetch, settle, readCompletion.
      destruct (fetch h (sent w) (AuditServer.auditRequestOf apiKey inputData))
        as [e|status errText|[completion|]]; try reflexivity.
      destruct completion; reflexivity.
    + unfold AuditServer.auditRequestOf. cbn [url bearer model max_tokens messages].
      repeat (split; [reflexivity|]).
      unfold AuditServer.systemPrompt, auditUserPrompt, changedFilesText, backticks.
      destruct (changed_files inputData); reflexivity.
  - intros [Hnone|(apiKey & Hk & Hblank)].
    + rewrite Hnone. reflexivity.
    + rewrite Hk, truthy_trim, Hblank. simpl. rewrite orb_true_r. reflexivity.
Qed.

(** With the key [sk-openai], DeepSeek selected and a diff of three
    segments and 15,000 code units, the first server posts one request,
    to OpenAI; with a key of three spaces it throws before posting. *)
Lemma first_server_posts_once_witness :
  (exists req,
     AuditServer.callOpenAIAudit (hostOf bothKeysEnv steadyFetch)
       (requestWith threeFileDiff) freshWorld
     = (mkWorld [req] [], Returned (lit "LGTM"))
     /\ url req = lit "https://api.openai.com/v1/chat/completions"
     /\ bearer req = lit "sk-openai"
     /\ model req = lit "gpt-3.5-turbo"
     /\ max_tokens req = 800%N)
  /\ AuditServer.callOpenAIAudit (hostOf AuditServer.blankKeyEnv steadyFetch)
       (requestWith threeFileDiff) freshWorld
     = (freshWorld, Thrown (lit "環境変数 OPENAI_API_KEY が設定されていません。")).
Proof.
  split.
  - destruct (@first_server_posts_once (hostOf bothKeysEnv steadyFetch)
                (requestWith threeFileDiff) freshWorld) as [Hpost _].
    assert (Hkey : existsb (fun c => negb (js_whitespace c)) (lit "sk-openai")
                   = true) by (vm_compute; reflexivity).
    destruct (Hpost (lit "sk-openai") eq_refl Hkey)
      as (req & Hrun & Hurl & Hbearer & Hmodel & Htokens & _).
    exists req. split; [exact Hrun|].
    split; [exact Hurl|]. split; [exact Hbearer|]. split; assumption.
  - apply (@first_server_posts_once (hostOf AuditServer.blankKeyEnv steadyFetch)
             (requestWith threeFileDiff) freshWorld).
    right. exists (lit "   "). split; reflexivity.
Defined.
